(** * ai_camera_pipeline.py: the benchmark harness and its analysis

    A shallow embedding of [StreamProcessor.run_single_stream],
    [PerformanceBenchmark.benchmark_streams] and
    [PerformanceBenchmark.find_optimal_configuration].

    Python values are modelled as the program has them: dictionaries as
    finite maps from string keys, [int] as [Z], [float] as the kernel's
    binary64 numbers with their IEEE 754 operations, exceptions as an error
    result.  What the program obtains from outside (the subprocess, the
    clock, the order in which futures complete) is read from a [World]. *)

From Stdlib Require Import ZArith Bool Lia.
From Stdlib Require Import Uint63 Floats.
From stdpp Require Import base option list gmap strings pretty sorting.

Local Open Scope Z_scope.

(** ** Python values and exceptions *)

Inductive pyval :=
  | VStr (s : string)
  | VInt (z : Z)
  | VFloat (f : float)
  | VBool (b : bool).

Inductive py_error :=
  | ZeroDivisionError
  | KeyError (key : string)
  | IndexError
  | TypeError
  | ValueError.

Inductive res (A : Type) :=
  | Ok (a : A)
  | Raise (e : py_error).
Arguments Ok {A} a.
Arguments Raise {A} e.

Definition bind {A B} (m : res A) (k : A -> res B) : res B :=
  match m with
  | Ok a => k a
  | Raise e => Raise e
  end.

Notation "x <-! m ; k" := (bind m (fun x => k))
  (at level 100, m at next level, right associativity).

Fixpoint filterM {A} (f : A -> res bool) (l : list A) : res (list A) :=
  match l with
  | [] => Ok []
  | x :: l' =>
      b <-! f x; ys <-! filterM f l'; Ok (if b then x :: ys else ys)
  end.

(** [d[k]]: a missing key raises [KeyError]. *)
Definition getitem (d : gmap string pyval) (k : string) : res pyval :=
  match d !! k with
  | Some v => Ok v
  | None => Raise (KeyError k)
  end.

(** ** Numbers

    [float(n)] for the ints of this program (counts of frames and of
    streams, all below 2^63), rounded to nearest even as Python does. *)
Definition float_of_int (z : Z) : float := of_uint63 (Uint63.of_Z z).

(** The literals [0.5] and [0.8]; the latter is the binary64 number nearest
    to 8/10. *)
Definition half : float := 0.5%float.
Definition degradation_factor : float := 0x1.999999999999ap-1%float.

Definition len {A} (l : list A) : Z := Z.of_nat (length l).

(** [a % b] on ints, for a divisor that is not negative. *)
Definition py_mod (a b : Z) : res Z :=
  if b =? 0 then Raise ZeroDivisionError else Ok (a mod b).

(** [l[i]] for an index that is not negative. *)
Definition list_getitem {A} (l : list A) (i : Z) : res A :=
  match l !! Z.to_nat i with
  | Some x => Ok x
  | None => Raise IndexError
  end.

(** The truth value of an object, as [if r['success']] tests it. *)
Definition truthy (v : pyval) : bool :=
  match v with
  | VStr s => negb (String.eqb s "")
  | VInt z => negb (z =? 0)
  | VFloat f => negb (PrimFloat.eqb f 0%float)
  | VBool b => b
  end.

(** Python's numbers: [bool] is an [int]; a [str] is no number. *)
Inductive num :=
  | NInt (z : Z)
  | NFloat (f : float).

Definition as_num (v : pyval) : res num :=
  match v with
  | VInt z => Ok (NInt z)
  | VBool b => Ok (NInt (Z.b2z b))
  | VFloat f => Ok (NFloat f)
  | VStr _ => Raise TypeError
  end.

Definition to_float (n : num) : float :=
  match n with
  | NInt z => float_of_int z
  | NFloat f => f
  end.

(** [a + b]: int plus int stays an int, anything else is a float sum. *)
Definition num_add (a b : num) : num :=
  match a, b with
  | NInt x, NInt y => NInt (x + y)
  | _, _ => NFloat (to_float a + to_float b)%float
  end.

(** [sum(f(r) for r in l)]: starts from the int 0, and reads and adds one
    element after the other from the left. *)
Definition py_sum {A} (f : A -> res pyval) (l : list A) : res num :=
  foldl (fun acc r => a <-! acc; v <-! f r; n <-! as_num v; Ok (num_add a n))
        (Ok (NInt 0)) l.

(** [s / n] with [n = len(...)]: true division, always a float. *)
Definition truediv (s : num) (n : Z) : res float :=
  if n =? 0 then Raise ZeroDivisionError
  else Ok (to_float s / float_of_int n)%float.

(** ** StreamProcessor.run_single_stream *)

(** What the try block of [run_single_stream] meets: either the monitoring
    loop ends after [ticks] iterations with [actual_duration] seconds on the
    clock, or an [Exception] with message [msg] is raised inside it. *)
Inductive Outcome :=
  | Finished (ticks : nat) (actual_duration : float)
  | Failed (msg : string).

(** The body of the while loop, [ticks] times: one frame per iteration, one
    detection every tenth frame. *)
Fixpoint frame_loop (ticks : nat) (frame_count detection_count : Z) : Z * Z :=
  match ticks with
  | O => (frame_count, detection_count)
  | S t =>
      let frame_count := frame_count + 1 in
      let detection_count :=
        if frame_count mod 10 =? 0 then detection_count + 1
        else detection_count in
      frame_loop t frame_count detection_count
  end.

(** [frame_count / actual_duration if actual_duration > 0 else 0] *)
Definition actual_fps_of (frame_count : Z) (actual_duration : float) : pyval :=
  if (0 <? actual_duration)%float
  then VFloat (float_of_int frame_count / actual_duration)%float
  else VInt 0.

Definition run_single_stream (device : string) (o : Outcome)
    (stream_id : string) (fps_target : Z) : gmap string pyval :=
  match o with
  | Finished ticks actual_duration =>
      let '(frame_count, detection_count) := frame_loop ticks 0 0 in
      let actual_fps := actual_fps_of frame_count actual_duration in
      <["stream_id" := VStr stream_id]>
      (<["device" := VStr device]>
      (<["target_fps" := VInt fps_target]>
      (<["actual_fps" := actual_fps]>
      (<["frames_processed" := VInt frame_count]>
      (<["detections" := VInt detection_count]>
      (<["duration" := VFloat actual_duration]>
      (<["success" := VBool true]> ∅)))))))
  | Failed msg =>
      <["stream_id" := VStr stream_id]>
      (<["device" := VStr device]>
      (<["error" := VStr msg]>
      (<["success" := VBool false]> ∅)))
  end.

(** ** PerformanceBenchmark.benchmark_streams *)

(** One entry of [self.results]; the dict literal has always these keys. *)
Record TrialRecord := {
  device : string;
  num_streams : Z;
  target_fps : Z;
  successful_streams : Z;
  avg_fps_per_stream : float;
  total_fps : float;
  total_detections : num;
  timestamp : string
}.

(** What a run of [benchmark_streams] reads from outside. A trial is named
    by the position of its target in [fps_targets] and by its number of
    streams. *)
Record World := {
  (** the fate of stream [i] of a trial, run on a video file *)
  workload : nat -> Z -> Z -> string -> Outcome;
  (** which of the pending futures [as_completed] yields next *)
  completion : nat -> Z -> nat -> nat;
  (** [datetime.now().isoformat()] when the trial is recorded *)
  now : nat -> Z -> string
}.

(** The effects of a run that can be observed from outside, besides
    [self.results]. *)
Inductive Event :=
  | MonitorStarted (fps_target num_streams : Z)
  | Submitted (fps_target num_streams i : Z) (video_file : string)
  | Slept.

Record Bench := {
  results : list TrialRecord;
  trace : list Event
}.

(** Computations on the benchmark's state that may raise. *)
Definition M (A : Type) : Type := Bench -> res A * Bench.

Definition ret {A} (a : A) : M A := fun b => (Ok a, b).
Definition raise {A} (e : py_error) : M A := fun b => (Raise e, b).
Definition lift {A} (r : res A) : M A := fun b => (r, b).
Definition mbindM {A B} (m : M A) (k : A -> M B) : M B :=
  fun b =>
    match m b with
    | (Ok a, b') => k a b'
    | (Raise e, b') => (Raise e, b')
    end.

Notation "x <~ m ; k" := (mbindM m (fun x => k))
  (at level 100, m at next level, right associativity).

Definition emit (ev : Event) : M unit :=
  fun b => (Ok tt, {| results := results b; trace := trace b ++ [ev] |}).

Definition append_result (r : TrialRecord) : M unit :=
  fun b => (Ok tt, {| results := results b ++ [r]; trace := trace b |}).

(** [as_completed(futures)]: the futures come in the order in which they
    complete, whatever it is; every future comes once. *)
Fixpoint as_completed {A} (choose : nat -> nat) (fuel : nat) (pending : list A)
    : list A :=
  match fuel with
  | O => []
  | S fuel' =>
      let k := (choose fuel' `mod` length pending)%nat in
      match pending !! k with
      | Some x => x :: as_completed choose fuel' (delete k pending)
      | None => []
      end
  end.

(** The loop [for i in range(num_streams)] that submits the streams. *)
Fixpoint submit_streams (w : World) (pos : nat) (video_files : list string)
    (device : string) (fps_target num_streams : Z) (indices : list Z)
    : M (list (gmap string pyval)) :=
  match indices with
  | [] => ret []
  | i :: rest =>
      k <~ lift (py_mod i (len video_files));
      video_file <~ lift (list_getitem video_files k);
      _ <~ emit (Submitted fps_target num_streams i video_file);
      let future :=
        run_single_stream device (workload w pos num_streams i video_file)
          ("stream_" +:+ pretty i) fps_target in
      futures <~ submit_streams w pos video_files device fps_target
                   num_streams rest;
      ret (future :: futures)
  end.

Definition is_successful (r : gmap string pyval) : res bool :=
  v <-! getitem r "success"; Ok (truthy v).

(** The dict built under [if successful_streams:]. *)
Definition make_result (device : string) (num_streams fps_target : Z)
    (timestamp : string) (successful_streams : list (gmap string pyval))
    : res TrialRecord :=
  s <-! py_sum (fun r => getitem r "actual_fps") successful_streams;
  avg_fps <-! truediv s (len successful_streams);
  total_detections <-!
    py_sum (fun r => getitem r "detections") successful_streams;
  Ok {| device := device;
        num_streams := num_streams;
        target_fps := fps_target;
        successful_streams := len successful_streams;
        avg_fps_per_stream := avg_fps;
        total_fps := (avg_fps * float_of_int (len successful_streams))%float;
        total_detections := total_detections;
        timestamp := timestamp |}.

(** [len(successful_streams) < num_streams * 0.5]: the product is a float;
    the int on the left is compared as the float it converts to, which is
    the int itself for every count below 2^53. *)
Definition degraded_significantly (successful num_streams : Z) : bool :=
  (float_of_int successful <? float_of_int num_streams * half)%float.

(** The body of the loop over [num_streams]; the result tells whether the
    loop is left by [break]. *)
Definition trial (w : World) (pos : nat) (video_files : list string)
    (device : string) (fps_target num_streams : Z) : M bool :=
  _ <~ emit (MonitorStarted fps_target num_streams);
  _ <~ (if num_streams <=? 0 then raise ValueError else ret tt);
  futures <~ submit_streams w pos video_files device fps_target num_streams
               (seqZ 0 num_streams);
  let stream_results :=
    as_completed (completion w pos num_streams) (length futures) futures in
  successful_streams <~ lift (filterM is_successful stream_results);
  _ <~ match successful_streams with
       | [] => ret tt
       | _ :: _ =>
           result <~ lift (make_result device num_streams fps_target
                             (now w pos num_streams) successful_streams);
           append_result result
       end;
  ret (degraded_significantly (len successful_streams) num_streams).

(** [for num_streams in range(1, max_streams + 1)], over what is left of
    the range. *)
Fixpoint stream_loop (w : World) (pos : nat) (video_files : list string)
    (device : string) (fps_target : Z) (levels : list Z) : M unit :=
  match levels with
  | [] => ret tt
  | num_streams :: rest =>
      stop <~ trial w pos video_files device fps_target num_streams;
      if stop then ret tt
      else _ <~ emit Slept;
           stream_loop w pos video_files device fps_target rest
  end.

(** [for fps_target in fps_targets], over what is left of the list. *)
Fixpoint target_loop (w : World) (pos : nat) (video_files : list string)
    (device : string) (max_streams : Z) (fps_targets : list Z) : M unit :=
  match fps_targets with
  | [] => ret tt
  | fps_target :: rest =>
      _ <~ stream_loop w pos video_files device fps_target
             (seqZ 1 max_streams);
      target_loop w (S pos) video_files device max_streams rest
  end.

Definition benchmark_streams (w : World) (video_files : list string)
    (device : string) (max_streams : Z) (fps_targets : list Z) : M unit :=
  target_loop w 0 video_files device max_streams fps_targets.

(** ** PerformanceBenchmark.find_optimal_configuration *)

Record Report := {
  max_streams : Z;
  best_config : TrialRecord;
  bottleneck_at_streams : Z;
  total_results : Z
}.

(** [max(first, *rest)] under an order [lt]: a later element replaces the
    best one only when it is greater. *)
Definition py_max {A} (lt : A -> A -> bool) (first : A) (rest : list A) : A :=
  foldl (fun best x => if lt best x then x else best) first rest.

(** The key [(x['target_fps'], x['num_streams'])] and the order of tuples. *)
Definition sort_key (r : TrialRecord) : Z * Z := (target_fps r, num_streams r).

Definition tuple_lt (a b : Z * Z) : bool :=
  if a.1 =? b.1 then a.2 <? b.2 else a.1 <? b.1.

(** [sorted(results, key=...)] is a stable sort; so is this insertion. *)
Fixpoint insert_sorted (x : TrialRecord) (l : list TrialRecord)
    : list TrialRecord :=
  match l with
  | [] => [x]
  | y :: l' =>
      if tuple_lt (sort_key y) (sort_key x) then y :: insert_sorted x l'
      else x :: y :: l'
  end.

Definition sorted (l : list TrialRecord) : list TrialRecord :=
  foldr insert_sorted [] l.

(** The test of the bottleneck loop on [prev] and [curr]. *)
Definition drops (prev curr : TrialRecord) : bool :=
  (avg_fps_per_stream curr <? avg_fps_per_stream prev * degradation_factor)%float
  && (target_fps curr =? target_fps prev).

(** The loop over [i] in [range(1, len(sorted_results))], with
    [prev = sorted_results[i-1]] and the records from index [i] on. *)
Fixpoint find_bottleneck (prev : TrialRecord) (rest : list TrialRecord)
    (bottleneck_stream_count : Z) : Z :=
  match rest with
  | [] => bottleneck_stream_count
  | curr :: rest' =>
      if drops prev curr then num_streams prev
      else find_bottleneck curr rest' bottleneck_stream_count
  end.

(** The body of the loop over the devices, for a list of results that is
    not empty. *)
Definition analyze (first : TrialRecord) (rest : list TrialRecord) : Report :=
  let results := first :: rest in
  let max_streams := py_max Z.ltb (num_streams first) (num_streams <$> rest) in
  let best_fps_config :=
    py_max (fun a b => (total_fps a <? total_fps b)%float) first rest in
  let sorted_results := sorted results in
  let bottleneck_stream_count :=
    match sorted_results with
    | [] => max_streams
    | r0 :: rs => find_bottleneck r0 rs max_streams
    end in
  {| max_streams := max_streams;
     best_config := best_fps_config;
     bottleneck_at_streams := bottleneck_stream_count;
     total_results := len results |}.

Definition results_of (dev : string) (results : list TrialRecord)
    : list TrialRecord :=
  filter (fun r => device r = dev) results.

Definition find_optimal_configuration (results : list TrialRecord)
    : option (gmap string Report) :=
  match results with
  | [] => None
  | _ :: _ =>
      let cpu_results := results_of "CPU" results in
      let gpu_results := results_of "GPU" results in
      Some (foldl (fun analysis '(device, results) =>
                     match results with
                     | [] => analysis
                     | first :: rest => <[device := analyze first rest]> analysis
                     end)
                  ∅ [("CPU", cpu_results); ("GPU", gpu_results)])
  end.

(** ** Classes of binary64 numbers

    The facts about floats below are read off the specification of the
    operations ([SpecFloat]); these are the classes they are stated with. *)

(** A number (not a NaN) whose sign bit is [s]. *)
Definition signed (s : bool) (x : spec_float) : Prop :=
  match x with
  | S754_zero s' | S754_infinity s' | S754_finite s' _ _ => s' = s
  | S754_nan => False
  end.

(** Zero (of either sign), or above it. *)
Definition SFnonneg (x : spec_float) : Prop :=
  match x with
  | S754_zero _ | S754_infinity false | S754_finite false _ _ => True
  | _ => False
  end.

Definition SFpositive (x : spec_float) : Prop :=
  match x with
  | S754_infinity false | S754_finite false _ _ => True
  | _ => False
  end.

(** Neither infinite nor a NaN. *)
Definition SFbounded (x : spec_float) : Prop :=
  match x with
  | S754_zero _ | S754_finite _ _ _ => True
  | _ => False
  end.

(** What a count converts to: zero, or a finite number from 1 to 2^64. *)
Definition SFcount (x : spec_float) : Prop :=
  match x with
  | S754_zero false => True
  | S754_finite false m e => 1 <= Zdigits2 (Z.pos m) + e <= 64
  | _ => False
  end.

(** Numbers are ordered as their keys are, lexicographically; a NaN has no
    key, and the two zeros share one. *)
Definition SFkey (x : spec_float) : option (Z * Z * Z) :=
  match x with
  | S754_nan => None
  | S754_zero _ => Some (0, 0, 0)
  | S754_infinity s => Some (if s then -2 else 2, 0, 0)
  | S754_finite s m e =>
      Some (if s then (-1, - e, - Z.pos m) else (1, e, Z.pos m))
  end.

Definition key_lt (a b : Z * Z * Z) : Prop :=
  a.1.1 < b.1.1 \/
  a.1.1 = b.1.1 /\ (a.1.2 < b.1.2 \/ a.1.2 = b.1.2 /\ a.2 < b.2).

Definition key_eq (a b : Z * Z * Z) : Prop :=
  a.1.1 = b.1.1 /\ a.1.2 = b.1.2 /\ a.2 = b.2.

(** [0 <= x], and [x == x] (which fails for a NaN only). *)
Definition nonneg (x : float) : Prop := (0 <=? x)%float = true.
Definition is_number (x : float) : Prop := (x =? x)%float = true.

(** ** The terms of the specification

    Stated directly, to compare the program with. *)

(** A stream result counts as successful when its [success] is true. *)
Definition succeeded (r : gmap string pyval) : bool :=
  match r !! "success" with
  | Some v => truthy v
  | None => false
  end.

(** The achieved rate and the detected events of a stream result. *)
Definition achieved_rate (r : gmap string pyval) : float :=
  match r !! "actual_fps" with
  | Some (VFloat f) => f
  | Some (VInt z) => float_of_int z
  | _ => 0%float
  end.

Definition events_detected (r : gmap string pyval) : Z :=
  match r !! "detections" with
  | Some (VInt z) => z
  | _ => 0
  end.

(** The mean of a list of rates: their sum, divided by how many they are. *)
Definition mean (xs : list float) : float :=
  (foldl PrimFloat.add 0%float xs / float_of_int (len xs))%float.

(** The workload spec of stream [i], round robin. *)
Definition video_of (video_files : list string) (i : Z) : string :=
  default "" (video_files !! Z.to_nat (i mod len video_files)).

(** The stream results of a trial: as launched, in the order of submission,
    and as collected, in the order of completion. *)
Definition launched (w : World) (pos : nat) (video_files : list string)
    (device : string) (fps_target num_streams : Z)
    : list (gmap string pyval) :=
  (fun i => run_single_stream device
              (workload w pos num_streams i (video_of video_files i))
              ("stream_" +:+ pretty i) fps_target)
  <$> seqZ 0 num_streams.

Definition collected (w : World) (pos : nat) (video_files : list string)
    (device : string) (fps_target num_streams : Z)
    : list (gmap string pyval) :=
  let futures := launched w pos video_files device fps_target num_streams in
  as_completed (completion w pos num_streams) (length futures) futures.

Definition successful (w : World) (pos : nat) (video_files : list string)
    (device : string) (fps_target num_streams : Z)
    : list (gmap string pyval) :=
  filter (fun r => succeeded r)
    (collected w pos video_files device fps_target num_streams).

(** Whether every stream of a trial fails. *)
Definition all_fail (w : World) (pos : nat) (video_files : list string)
    (num_streams : Z) : Prop :=
  forall i, 0 <= i < num_streams ->
    exists msg, workload w pos num_streams i (video_of video_files i) = Failed msg.

(** The early-stop test of a trial, on its count of successes. *)
Definition stops (w : World) (pos : nat) (video_files : list string)
    (device : string) (fps_target num_streams : Z) : bool :=
  degraded_significantly
    (len (successful w pos video_files device fps_target num_streams))
    num_streams.

(** The trials of a run, (target rate, concurrency) in the order in which
    they begin. *)
Definition trials_of (tr : list Event) : list (Z * Z) :=
  omap (fun ev => match ev with
                  | MonitorStarted fps_target num_streams =>
                      Some (fps_target, num_streams)
                  | _ => None
                  end) tr.

(** [r] is in [l], no record of [l] has a greater aggregate rate, and every
    record before [r] has a smaller one. *)
Definition first_maximum (l : list TrialRecord) (r : TrialRecord) : Prop :=
  exists i : nat, l !! i = Some r /\
    (forall x, x ∈ l -> (total_fps x <=? total_fps r)%float = true) /\
    (forall (j : nat) x, (j < i)%nat -> l !! j = Some x ->
       (total_fps x <? total_fps r)%float = true).

(** The invariant of a trial record. *)
Definition well_formed (r : TrialRecord) : Prop :=
  0 <= successful_streams r <= num_streams r /\ nonneg (total_fps r).

(** Ordered by key, as [sorted] leaves a list. *)
Definition key_le (a b : TrialRecord) : Prop :=
  tuple_lt (sort_key b) (sort_key a) = false.

(** A list is a stable sort of another when it is ordered by key and holds,
    for every key, the same records in the same order. *)
Definition stable_sort_of (l' l : list TrialRecord) : Prop :=
  StronglySorted key_le l' /\
  forall k, filter (fun r => sort_key r = k) l'
            = filter (fun r => sort_key r = k) l.

(** What [run_single_stream] returns, and what it returns when the stream
    has run to its end. *)
Definition stream_result (r : gmap string pyval) : Prop :=
  exists device o stream_id fps_target,
    r = run_single_stream device o stream_id fps_target.

Definition finished_result (r : gmap string pyval) : Prop :=
  exists device ticks elapsed stream_id fps_target,
    r = run_single_stream device (Finished ticks elapsed) stream_id fps_target.

(** The record of a trial as the specification has it: the mean of the
    achieved rates of the successful results, that mean times their number,
    and the sum of their detected events. *)
Definition trial_record (w : World) (pos : nat) (video_files : list string)
    (device : string) (fps_target num_streams : Z) : TrialRecord :=
  let ok := successful w pos video_files device fps_target num_streams in
  let avg_rate_per_stream := mean (achieved_rate <$> ok) in
  {| device := device;
     num_streams := num_streams;
     target_fps := fps_target;
     successful_streams := len ok;
     avg_fps_per_stream := avg_rate_per_stream;
     total_fps := (avg_rate_per_stream * float_of_int (len ok))%float;
     total_detections := NInt (foldr Z.add 0 (events_detected <$> ok));
     timestamp := now w pos num_streams |}.

(** What a trial is seen to do: it starts the monitor, then submits its
    streams one after the other. *)
Definition trial_events (video_files : list string)
    (fps_target num_streams : Z) : list Event :=
  MonitorStarted fps_target num_streams ::
  ((fun i => Submitted fps_target num_streams i (video_of video_files i))
   <$> seqZ 0 num_streams).

(** What a trial appends to the log: its record when some stream has
    succeeded, nothing otherwise. *)
Definition recorded (w : World) (pos : nat) (video_files : list string)
    (device : string) (fps_target num_streams : Z) : list TrialRecord :=
  match successful w pos video_files device fps_target num_streams with
  | [] => []
  | _ :: _ => [trial_record w pos video_files device fps_target num_streams]
  end.

(** The levels of concurrency that are tested: those of the range, up to
    and including the first one at which the early-stop test holds. *)
Fixpoint tested_levels (stop : Z -> bool) (levels : list Z) : list Z :=
  match levels with
  | [] => []
  | n :: rest => n :: (if stop n then [] else tested_levels stop rest)
  end.

Definition sweep_levels (w : World) (pos : nat) (video_files : list string)
    (device : string) (fps_target max_streams : Z) : list Z :=
  tested_levels (stops w pos video_files device fps_target)
    (seqZ 1 max_streams).

(** The records and the events of the trials of one target rate, with the
    pause after each trial that does not stop the loop. *)
Definition target_records (w : World) (video_files : list string)
    (device : string) (max_streams : Z) (pos : nat) (fps_target : Z)
    : list TrialRecord :=
  mjoin (recorded w pos video_files device fps_target
         <$> sweep_levels w pos video_files device fps_target max_streams).

Definition level_events (w : World) (pos : nat) (video_files : list string)
    (device : string) (fps_target num_streams : Z) : list Event :=
  trial_events video_files fps_target num_streams ++
  (if stops w pos video_files device fps_target num_streams then []
   else [Slept]).

Definition target_events (w : World) (video_files : list string)
    (device : string) (max_streams : Z) (pos : nat) (fps_target : Z)
    : list Event :=
  mjoin (level_events w pos video_files device fps_target
         <$> sweep_levels w pos video_files device fps_target max_streams).

(** ** Scenarios *)

Definition fresh : Bench := {| results := []; trace := [] |}.

(** Scenario A: four streams that run for 60 seconds and process 600, 720,
    540 and 660 frames, completing in the order of their submission. *)
Definition scenario_A : World :=
  {| workload := fun _ _ i _ =>
       match i with
       | 0 => Finished 600 60%float
       | 1 => Finished 720 60%float
       | 2 => Finished 540 60%float
       | _ => Finished 660 60%float
       end;
     completion := fun _ _ _ => 0%nat;
     now := fun _ _ => "2024-01-01T00:00:00" |}.

(** A world in which no stream can be started. *)
Definition no_backend : World :=
  {| workload := fun _ _ _ _ =>
       Failed "[Errno 2] No such file or directory: 'gst-launch-1.0'";
     completion := fun _ _ _ => 0%nat;
     now := fun _ _ => "2024-01-01T00:00:00" |}.

(** Scenario B: at the first target rate, only four of the ten streams of
    the trial at concurrency 10 succeed; every other stream of the sweep
    succeeds. *)
Definition scenario_B : World :=
  {| workload := fun pos n i _ =>
       if (pos =? 0)%nat && (n =? 10) && (4 <=? i)
       then Failed "backend saturated"
       else Finished 1800 60%float;
     completion := fun _ _ _ => 0%nat;
     now := fun _ _ => "2024-01-01T00:00:00" |}.

(** A pair of records of one target rate where the per-stream rate of the
    second is below 0.8 times that of the first. *)
Definition degraded_pair (prev curr : TrialRecord) : Prop :=
  target_fps curr = target_fps prev /\
  (avg_fps_per_stream curr
   <? avg_fps_per_stream prev * degradation_factor)%float = true.

(** The order of two keys, target rate first and concurrency second. *)
Definition key_before (a b : Z * Z) : Prop :=
  a.1 < b.1 \/ a.1 = b.1 /\ a.2 <= b.2.

(** A record of a device, with the rate per stream given. *)
Definition record_of (dev : string) (fps_target n : Z) (avg : float)
    : TrialRecord :=
  {| device := dev;
     num_streams := n;
     target_fps := fps_target;
     successful_streams := n;
     avg_fps_per_stream := avg;
     total_fps := (avg * float_of_int n)%float;
     total_detections := NInt 0;
     timestamp := "2024-01-01T00:00:00" |}.

(** Scenario C: one target rate, concurrency 1, 2, 4 and 8 with 30, 29, 28
    and 15 per stream, logged in some other order. *)
Definition scenario_C : list TrialRecord :=
  [record_of "CPU" 30 8 15; record_of "CPU" 30 1 30;
   record_of "CPU" 30 4 28; record_of "CPU" 30 2 29].

(** Scenario D: records of the GPU only. *)
Definition scenario_D : list TrialRecord :=
  [record_of "GPU" 30 1 30; record_of "GPU" 30 2 29].

(** Two records of the same aggregate rate, the one of the greater target
    rate logged first. *)
Definition tied : list TrialRecord :=
  [record_of "CPU" 30 1 42; record_of "CPU" 15 1 42].

(** ** More terms, for the properties beyond the claims *)

(** The streams a run submits, (index, video file), in the order of their
    submission. *)
Definition submissions_of (tr : list Event) : list (Z * string) :=
  omap (fun ev => match ev with
                  | Submitted _ _ i video_file => Some (i, video_file)
                  | _ => None
                  end) tr.

(** What a record says of its trial apart from the rates: these are counts,
    names and ints. *)
Definition counts_of (r : TrialRecord) : string * Z * Z * Z * num :=
  (device r, num_streams r, target_fps r, successful_streams r,
   total_detections r).

(** A record that a sweep of a device, up to [max] streams over the given
    target rates, can have appended. *)
Definition from_sweep (dev : string) (max : Z) (fps_targets : list Z)
    (r : TrialRecord) : Prop :=
  device r = dev /\ target_fps r ∈ fps_targets /\
  1 <= successful_streams r <= num_streams r /\ num_streams r <= max.

(** ** Strings *)

Definition newline : string := String (Ascii.ascii_of_nat 10) "".

(** [s.replace(old, new)] for an [old] that is not empty, as it is in this
    program: the occurrences of [old] are replaced from the left, and do not
    overlap. [skip] counts the characters of a match still to pass. *)
Fixpoint replace_from (old new s : string) (skip : nat) : string :=
  match s with
  | EmptyString => EmptyString
  | String c s' =>
      match skip with
      | S k => replace_from old new s' k
      | O =>
          if String.prefix old s
          then new +:+ replace_from old new s' (String.length old - 1)
          else String c (replace_from old new s' 0)
      end
  end.

Definition str_replace (old new s : string) : string :=
  replace_from old new s 0.

(** The ASCII characters that [str.strip()] removes: the blank, tab to
    carriage return, and the four separators. *)
Definition is_space (c : Ascii.ascii) : bool :=
  let n := Ascii.nat_of_ascii c in
  ((n =? 32) || ((9 <=? n) && (n <=? 13)) || ((28 <=? n) && (n <=? 31)))%nat.

Fixpoint lstrip (s : string) : string :=
  match s with
  | EmptyString => EmptyString
  | String c s' => if is_space c then lstrip s' else s
  end.

Fixpoint rstrip (s : string) : string :=
  match s with
  | EmptyString => EmptyString
  | String c s' =>
      match rstrip s' with
      | EmptyString => if is_space c then EmptyString else String c EmptyString
      | r => String c r
      end
  end.

Definition strip (s : string) : string := rstrip (lstrip s).

(** Whether a character is in a string, and whether a string is part of
    another. *)
Fixpoint has_char (c : Ascii.ascii) (s : string) : bool :=
  match s with
  | EmptyString => false
  | String c' s' => Ascii.eqb c c' || has_char c s'
  end.

Definition occurs (old s : string) : Prop :=
  exists pre post, s = pre +:+ old +:+ post.

(** ** StreamProcessor.create_gst_pipeline

    [model_path] and [detection_threshold] are the fields of the processor,
    the latter as the text that the f-string renders it to. *)
Definition create_gst_pipeline (device model_path detection_threshold : string)
    (input_source stream_id : string) (fps_target : Z) : string :=
  let source :=
    if String.prefix "rtsp://" input_source || String.prefix "http" input_source
    then "urisourcebin uri=" +:+ input_source
    else "filesrc location=" +:+ input_source in
  let '(device_config, inference_element) :=
    if String.eqb device "GPU" then ("device=GPU", "gvadetect")
    else ("device=CPU", "gvadetect") in
  let pipeline :=
    newline +:+
    "        " +:+ source +:+ " ! " +:+ newline +:+
    "        decodebin ! " +:+ newline +:+
    "        videoconvert ! " +:+ newline +:+
    "        videoscale ! " +:+ newline +:+
    "        video/x-raw,width=640,height=480,framerate="
      +:+ pretty fps_target +:+ "/1 !" +:+ newline +:+
    "        " +:+ inference_element +:+ " " +:+ newline +:+
    "            model=" +:+ model_path
      +:+ "/person-detection-retail-0013.xml " +:+ newline +:+
    "            " +:+ device_config +:+ " " +:+ newline +:+
    "            threshold=" +:+ detection_threshold +:+ " !" +:+ newline +:+
    "        gvaclassify " +:+ newline +:+
    "            model=" +:+ model_path
      +:+ "/person-attributes-recognition-crossroad-0230.xml " +:+ newline +:+
    "            " +:+ device_config +:+ " !" +:+ newline +:+
    "        gvametaconvert format=json !" +:+ newline +:+
    "        appsink name=sink_" +:+ stream_id
      +:+ " emit-signals=true sync=false" +:+ newline +:+
    "        " in
  strip (str_replace newline " " pipeline).

(** The pipeline as one line: the text between the indentations, every
    newline a blank. *)
Definition one_line (s : string) : string := str_replace newline " " s.

Definition pipeline_line (device_config model_path detection_threshold : string)
    (source stream_id : string) (fps_target : Z) : string :=
  one_line source +:+ " !  " +:+
  "        decodebin !  " +:+
  "        videoconvert !  " +:+
  "        videoscale !  " +:+
  "        video/x-raw,width=640,height=480,framerate="
    +:+ pretty fps_target +:+ "/1 ! " +:+
  "        gvadetect  " +:+
  "            model=" +:+ one_line model_path
    +:+ "/person-detection-retail-0013.xml  " +:+
  "            " +:+ device_config +:+ "  " +:+
  "            threshold=" +:+ one_line detection_threshold +:+ " ! " +:+
  "        gvaclassify  " +:+
  "            model=" +:+ one_line model_path
    +:+ "/person-attributes-recognition-crossroad-0230.xml  " +:+
  "            " +:+ device_config +:+ " ! " +:+
  "        gvametaconvert format=json ! " +:+
  "        appsink name=sink_" +:+ one_line stream_id
    +:+ " emit-signals=true sync=false".

(** ** PerformanceBenchmark.get_system_info *)

(** What psutil and GPUtil answer when they are asked; [None] for the GPUs
    when the call raises. *)
Record GPU := {
  name : string;
  memoryTotal : float;
  memoryFree : float
}.

Record Machine := {
  psutil_cpu_count : bool -> option Z;
  psutil_cpu_freq : option float;
  psutil_virtual_memory : Z * Z;
  GPUtil_getGPUs : option (list GPU)
}.

Record CpuInfo := {
  cpu_count : option Z;
  cpu_count_logical : option Z;
  cpu_freq : num;
  memory_total : Z;
  memory_available : Z
}.

Record GpuInfo := {
  gpu_name : string;
  gpu_memory_total : num;
  gpu_memory_free : num
}.

Record SystemInfo := {
  cpu : CpuInfo;
  gpu : list GpuInfo
}.

Definition get_system_info (m : Machine) : SystemInfo :=
  let cpu_info :=
    {| cpu_count := psutil_cpu_count m false;
       cpu_count_logical := psutil_cpu_count m true;
       cpu_freq := match psutil_cpu_freq m with
                   | Some current => NFloat current
                   | None => NInt 0
                   end;
       memory_total := (psutil_virtual_memory m).1;
       memory_available := (psutil_virtual_memory m).2 |} in
  let gpu_info :=
    match GPUtil_getGPUs m with
    | Some gpus =>
        (fun gpu => {| gpu_name := name gpu;
                       gpu_memory_total := NFloat (memoryTotal gpu);
                       gpu_memory_free := NFloat (memoryFree gpu) |}) <$> gpus
    | None =>
        [{| gpu_name := "No GPU detected";
            gpu_memory_total := NInt 0;
            gpu_memory_free := NInt 0 |}]
    end in
  {| cpu := cpu_info; gpu := gpu_info |}.

(** ** PerformanceBenchmark.save_results *)

Record ReportData := {
  system_info : SystemInfo;
  benchmark_results : list TrialRecord;
  analysis : option (gmap string Report);
  report_timestamp : string
}.

(** The texts that [json.dump] and [csv.DictWriter] write are left open:
    any two functions of the data. *)
Record Writers := {
  json_dump : ReportData -> string;
  csv_rows : list TrialRecord -> string
}.

(** What escapes [main] besides the errors of the benchmark. *)
Inductive Failure :=
  | OSError (filename : string)
  | Uncaught (e : py_error).

(** [with open(filename, 'w') as f: f.write(text)] on a disk of files by
    name: the file is created or truncated, and holds the text at the end;
    [open] raises for a name that cannot be written. *)
Definition open_write (writable : string -> bool) (filename text : string)
    (disk : gmap string string) : option (gmap string string) :=
  if writable filename then Some (<[filename := text]> disk) else None.

Definition save_results (wr : Writers) (writable : string -> bool)
    (m : Machine) (today : string) (results : list TrialRecord)
    (filename : string) (disk : gmap string string)
    : option Failure * gmap string string :=
  let report_data :=
    {| system_info := get_system_info m;
       benchmark_results := results;
       analysis := find_optimal_configuration results;
       report_timestamp := today |} in
  match open_write writable filename (json_dump wr report_data) disk with
  | None => (Some (OSError filename), disk)
  | Some disk =>
      let csv_filename := str_replace ".json" ".csv" filename in
      let text := match results with
                  | [] => ""
                  | _ :: _ => csv_rows wr results
                  end in
      match open_write writable csv_filename text disk with
      | None => (Some (OSError csv_filename), disk)
      | Some disk => (None, disk)
      end
  end.

(** ** download_models *)

(** The machine that [main] runs on. Whether a path exists and how a shell
    command exits may depend on the commands run before. *)
Record Host := {
  mkdir_ok : bool;
  path_exists : list string -> string -> bool;
  exit_status : list string -> string -> Z;
  machine : nat -> Machine;
  writable : string -> bool;
  today : string
}.

Definition models : list string :=
  ["person-detection-retail-0013";
   "person-attributes-recognition-crossroad-0230"].

Definition model_path_of (model : string) : string :=
  "models/" +:+ model +:+ ".xml".

Definition cmd_of (model : string) : string :=
  "omz_downloader --name " +:+ model +:+ " --output_dir ./models".

(** The loop over the models, from the commands run so far to the value
    returned and the commands run at the end. *)
Fixpoint download_loop (h : Host) (models : list string) (ran : list string)
    : bool * list string :=
  match models with
  | [] => (true, ran)
  | model :: rest =>
      if path_exists h ran (model_path_of model)
      then download_loop h rest ran
      else
        let cmd := cmd_of model in
        if exit_status h ran cmd =? 0
        then download_loop h rest (ran ++ [cmd])
        else (false, ran ++ [cmd])
  end.

(** [None] when [mkdir] raises. *)
Definition download_models (h : Host) : option (bool * list string) :=
  if mkdir_ok h then Some (download_loop h models []) else None.

(** ** main *)

Definition video_files : list string :=
  ["./test_videos/sample1.mp4"; "./test_videos/sample2.mp4";
   "./test_videos/sample3.mp4"; "./test_videos/sample4.mp4"].

Inductive Exit :=
  | Completed
  | ModelsMissing
  | Failed_with (e : Failure).

(** A run of [main]: how it ends, the shell commands it has run, the log
    and the events of its benchmark, and the disk it leaves. *)
Record Run := {
  exit : Exit;
  commands : list string;
  bench : Bench;
  disk_after : gmap string string
}.

Definition gpu_available (sys_info : SystemInfo) : bool :=
  match gpu sys_info with
  | [] => false
  | first :: _ => negb (String.eqb (gpu_name first) "No GPU detected")
  end.

Definition existing_videos_of (h : Host) (ran : list string) : list string :=
  match List.filter (path_exists h ran) video_files with
  | [] => ["dummy_video.mp4"]
  | existing_videos => existing_videos
  end.

Definition main (wr : Writers) (h : Host) (cpu_world gpu_world : World)
    (disk : gmap string string) : Run :=
  match download_models h with
  | None =>
      {| exit := Failed_with (OSError "models"); commands := [];
         bench := fresh; disk_after := disk |}
  | Some (false, ran) =>
      {| exit := ModelsMissing; commands := ran;
         bench := fresh; disk_after := disk |}
  | Some (true, ran) =>
      let existing_videos := existing_videos_of h ran in
      let sys_info := get_system_info (machine h 0) in
      match benchmark_streams cpu_world existing_videos "CPU" 8 [15; 30]
              fresh with
      | (Raise e, b) =>
          {| exit := Failed_with (Uncaught e); commands := ran;
             bench := b; disk_after := disk |}
      | (Ok _, b) =>
          match (if gpu_available sys_info
                 then benchmark_streams gpu_world existing_videos "GPU" 16
                        [15; 30; 60] b
                 else (Ok tt, b)) with
          | (Raise e, b) =>
              {| exit := Failed_with (Uncaught e); commands := ran;
                 bench := b; disk_after := disk |}
          | (Ok _, b) =>
              match save_results wr (writable h) (machine h 1) (today h)
                      (results b) "ai_camera_benchmark_results.json"
                      disk with
              | (Some e, disk) =>
                  {| exit := Failed_with e; commands := ran;
                     bench := b; disk_after := disk |}
              | (None, disk) =>
                  {| exit := Completed; commands := ran;
                     bench := b; disk_after := disk |}
              end
          end
      end
  end.

(** ** Scenarios of the main program *)

(** Writers that write fixed texts. *)
Definition plain : Writers :=
  {| json_dump := fun _ => "{}";
     csv_rows := fun _ => "device,num_streams" |}.

(** Every stream runs for 60 seconds and processes 1800 frames. *)
Definition steady : World :=
  {| workload := fun _ _ _ _ => Finished 1800 60%float;
     completion := fun _ _ _ => 0%nat;
     now := fun _ _ => "2024-01-01T00:00:00" |}.

(** A host with the models and the sample videos in place, on which every
    file can be written, and whose probe of the GPUs is as given. *)
Definition workstation (gpus : option (list GPU)) : Host :=
  {| mkdir_ok := true;
     path_exists := fun _ _ => true;
     exit_status := fun _ _ => 0;
     machine := fun _ =>
       {| psutil_cpu_count := fun logical => Some (if logical then 16 else 8);
          psutil_cpu_freq := Some 2400%float;
          psutil_virtual_memory := (34359738368, 17179869184);
          GPUtil_getGPUs := gpus |};
     writable := fun _ => true;
     today := "2024-01-01T00:00:00" |}.

Definition arc : GPU :=
  {| name := "Intel Arc A770"; memoryTotal := 16384; memoryFree := 16000 |}.

(** ** StreamProcessor.run_single_stream, with its process

    Where the outcome of the try block comes from. *)

(** What a stream meets when it runs its command: whether [Popen] raises
    (an [Exception] whose text is given), what [time.time()] returns at its
    calls from the one of [start_time] on, what [process.poll()] finds at
    its calls, the text of the exception of [time.sleep(1.0/fps_target)]
    when that raises, and whether [process.wait(timeout=5)] returns in
    time. *)
Record Launch := {
  popen_raises : option string;
  time_time : nat -> float;
  poll_exited : nat -> bool;
  sleep_raises : string;
  wait_returns : bool
}.

Inductive Cleanup := Terminate | Wait | Kill.

(** Whether [time.sleep(1.0/fps_target)] returns: the division raises
    ZeroDivisionError for 0 and OverflowError for an int that no float
    holds, and [sleep] raises ValueError for a negative length. *)
Definition can_sleep (fps_target : Z) : bool :=
  (0 <? fps_target) && (fps_target <? 2 ^ 1024 - 2 ^ 970).

(** The while loop after [n] iterations: [None] without fuel, [Some None]
    when the sleep raises, and the number of iterations with the reading of
    [end_time] when the loop ends. *)
Fixpoint watch (l : Launch) (sleeps : bool) (duration : float)
    (fuel n : nat) : option (option (nat * float)) :=
  match fuel with
  | O => None
  | S fuel =>
      if (time_time l (S n) - time_time l 0 <? duration)%float
      then
        if poll_exited l n then Some (Some (n, time_time l (S (S n))))
        else if sleeps then watch l sleeps duration fuel (S n)
        else Some None
      else Some (Some (n, time_time l (S (S n))))
  end.

(** When the loop ends: at the first test of the clock that fails, or at
    the first poll that finds the process gone. *)
Definition ends_at (l : Launch) (duration : float) (k : nat) : Prop :=
  (forall j, (j < k)%nat ->
     (time_time l (S j) - time_time l 0 <? duration)%float = true /\
     poll_exited l j = false) /\
  ((time_time l (S k) - time_time l 0 <? duration)%float = false \/
   poll_exited l k = true).

(** The try block and the finally block. [duration] is an int that a float
    holds, 60 in the harness. *)
Definition outcome_of (l : Launch) (fps_target : Z) (duration : float)
    (fuel : nat) : option (Outcome * list Cleanup) :=
  match popen_raises l with
  | Some msg => Some (Failed msg, [])
  | None =>
      let cleanup :=
        Terminate :: Wait :: (if wait_returns l then [] else [Kill]) in
      match watch l (can_sleep fps_target) duration fuel 0 with
      | None => None
      | Some None => Some (Failed (sleep_raises l), cleanup)
      | Some (Some (ticks, end_time)) =>
          Some (Finished ticks (end_time - time_time l 0)%float, cleanup)
      end
  end.

(** The method on a machine [os] that says what a command meets. *)
Definition run_single_stream_on (os : list string -> Launch)
    (device model_path detection_threshold : string)
    (video_path stream_id : string) (duration : float) (fps_target : Z)
    (fuel : nat) : option (gmap string pyval * list Cleanup) :=
  let pipeline_str :=
    create_gst_pipeline device model_path detection_threshold video_path
      stream_id fps_target in
  let cmd := ["gst-launch-1.0"; "-e"; pipeline_str] in
  match outcome_of (os cmd) fps_target duration fuel with
  | Some (o, cleanup) =>
      Some (run_single_stream device o stream_id fps_target, cleanup)
  | None => None
  end.

(** A machine without gst-launch-1.0, and one on which the clock reads 0,
    20, 40, ... and the process runs on. *)
Definition no_gst : Launch :=
  {| popen_raises :=
       Some "[Errno 2] No such file or directory: 'gst-launch-1.0'";
     time_time := fun _ => 0%float;
     poll_exited := fun _ => false;
     sleep_raises := "";
     wait_returns := true |}.

Definition slow_clock : Launch :=
  {| popen_raises := None;
     time_time := fun n => float_of_int (20 * Z.of_nat n);
     poll_exited := fun _ => false;
     sleep_raises := "float division by zero";
     wait_returns := true |}.

(** * Facts about binary64 numbers *)

Lemma iter_pos_preserves {A} (f : A -> A) (P : A -> Prop) :
  (forall x, P x -> P (f x)) -> forall p x, P x -> P (SpecFloat.iter_pos f p x).
Proof.
  intros Hf. induction p as [p IH|p IH|]; simpl; intros x Hx; auto.
Qed.

Lemma shr_1_div2 mrs : 0 <= shr_m mrs -> shr_m (shr_1 mrs) = shr_m mrs / 2.
Proof.
  destruct mrs as [m r s]. destruct m as [|[p|p|]|p]; simpl; intros H.
  all: try lia.
  all: try reflexivity.
  - rewrite (Pos2Z.inj_xI p). apply Z.div_unique with 1; lia.
  - rewrite (Pos2Z.inj_xO p). apply Z.div_unique with 0; lia.
Qed.

Lemma shr_1_nonneg mrs : 0 <= shr_m mrs -> 0 <= shr_m (shr_1 mrs).
Proof.
  intros H. rewrite shr_1_div2 by done. apply Z.div_pos; lia.
Qed.

Lemma pow2_xO p : 2 ^ Z.pos p~0 = 2 ^ Z.pos p * 2 ^ Z.pos p.
Proof. rewrite <- Z.pow_add_r by lia. f_equal. lia. Qed.

Lemma pow2_xI p : 2 ^ Z.pos p~1 = 2 * (2 ^ Z.pos p * 2 ^ Z.pos p).
Proof.
  rewrite <- Z.pow_add_r, <- Z.pow_succ_r by lia. f_equal. lia.
Qed.

Lemma iter_shr_1_div p : forall mrs,
  0 <= shr_m mrs ->
  shr_m (SpecFloat.iter_pos shr_1 p mrs) = shr_m mrs / 2 ^ Z.pos p.
Proof.
  assert (Hnn : forall q mrs,
    0 <= shr_m mrs -> 0 <= shr_m (SpecFloat.iter_pos shr_1 q mrs)).
  { intros q mrs.
    apply (iter_pos_preserves shr_1 (fun x => 0 <= shr_m x)), shr_1_nonneg. }
  assert (Hpow : forall q, 0 < 2 ^ Z.pos q) by (intros; apply Z.pow_pos_nonneg; lia).
  induction p as [p IH|p IH|]; simpl; intros mrs H.
  - rewrite IH, IH, shr_1_div2 by auto using shr_1_nonneg.
    pose proof (Hpow p).
    rewrite !Z.div_div by lia. by rewrite pow2_xI.
  - rewrite IH, IH by auto.
    pose proof (Hpow p).
    rewrite !Z.div_div by lia. by rewrite pow2_xO.
  - rewrite shr_1_div2 by done. reflexivity.
Qed.

Lemma shr_record_of_loc_m m l : shr_m (shr_record_of_loc m l) = m.
Proof. destruct l as [|[]]; reflexivity. Qed.

(** A right shift by [n] keeps the exponent sum and divides the mantissa. *)
Lemma shr_spec mrs e n :
  0 <= shr_m mrs ->
  shr_m (fst (shr mrs e n)) = shr_m mrs / 2 ^ Z.max 0 n /\
  snd (shr mrs e n) = e + Z.max 0 n.
Proof.
  intros H. destruct n as [|p|p]; simpl.
  - rewrite Z.div_1_r. split; [done|lia].
  - rewrite iter_shr_1_div by done. split; [done|lia].
  - rewrite Z.div_1_r. split; [done|lia].
Qed.

Lemma round_nearest_even_bounds m l :
  m <= round_nearest_even m l <= m + 1.
Proof.
  destruct l as [|[]]; simpl; try lia. destruct (Z.even m); lia.
Qed.

Lemma Zdigits2_log2 m : 0 < m -> Zdigits2 m = Z.log2 m + 1.
Proof.
  destruct m as [|p|p]; try lia. intros _. simpl.
  induction p as [p IH|p IH|]; simpl; try reflexivity.
  - rewrite Pos2Z.inj_succ, IH. destruct p; simpl; lia.
  - rewrite Pos2Z.inj_succ, IH. destruct p; simpl; lia.
Qed.

(** Whatever is rounded, the result carries the sign it was given. *)
Lemma binary_round_aux_signed s m e l :
  0 <= m -> signed s (binary_round_aux prec emax s m e l).
Proof.
  intros Hm. unfold binary_round_aux, shr_fexp.
  destruct (shr (shr_record_of_loc m l) e _) as [mrs' e'] eqn:E1.
  destruct (shr (shr_record_of_loc _ loc_Exact) e' _) as [mrs'' e''] eqn:E2.
  pose proof (shr_spec (shr_record_of_loc m l) e
    (fexp prec emax (Zdigits2 m + e) - e)) as [H1 _].
  { by rewrite shr_record_of_loc_m. }
  rewrite E1, shr_record_of_loc_m in H1; simpl in H1.
  assert (0 <= shr_m mrs') as Hq.
  { rewrite H1. apply Z.div_pos; [done|]. apply Z.pow_pos_nonneg; lia. }
  pose proof (round_nearest_even_bounds (shr_m mrs') (loc_of_shr_record mrs')) as Hr.
  set (m1 := round_nearest_even (shr_m mrs') (loc_of_shr_record mrs')) in *.
  pose proof (shr_spec (shr_record_of_loc m1 loc_Exact) e'
    (fexp prec emax (Zdigits2 m1 + e') - e')) as [H2 _].
  { simpl. lia. }
  rewrite E2 in H2; simpl in H2.
  assert (0 <= shr_m mrs'') as Hq2.
  { rewrite H2. apply Z.div_pos; [lia|]. apply Z.pow_pos_nonneg; lia. }
  destruct (shr_m mrs'') as [|p|p]; simpl; try done; try lia.
  by destruct (_ <=? _).
Qed.

(** In the normal range, and below the overflow threshold, rounding a positive
    mantissa yields a finite number. *)
Lemma binary_round_aux_finite s m e l :
  0 < m ->
  SpecFloat.emin prec emax <= Zdigits2 m + e - prec ->
  Zdigits2 m + e + 1 <= emax ->
  e <= emax - prec ->
  exists m' e', binary_round_aux prec emax s m e l = S754_finite s m' e' /\
    Zdigits2 m + e <= Zdigits2 (Z.pos m') + e' <= Zdigits2 m + e + 1.
Proof.
  intros Hm Hlo Hhi He. unfold binary_round_aux, shr_fexp.
  destruct (shr (shr_record_of_loc m l) e _) as [mrs' e'] eqn:E1.
  destruct (shr (shr_record_of_loc _ loc_Exact) e' _) as [mrs'' e''] eqn:E2.
  pose proof (shr_spec (shr_record_of_loc m l) e
    (fexp prec emax (Zdigits2 m + e) - e)) as [H1 H1e].
  { rewrite shr_record_of_loc_m. lia. }
  rewrite E1, shr_record_of_loc_m in H1; simpl in H1, H1e.
  rewrite E1 in H1e; simpl in H1e.
  pose proof (round_nearest_even_bounds (shr_m mrs') (loc_of_shr_record mrs')) as Hr.
  set (m1 := round_nearest_even (shr_m mrs') (loc_of_shr_record mrs')) in *.
  set (D := Zdigits2 m) in *.
  assert (HD : D = Z.log2 m + 1) by (by apply Zdigits2_log2).
  assert (Hf1 : fexp prec emax (D + e) = D + e - prec) by (unfold fexp; lia).
  rewrite Hf1 in H1, H1e.
  set (s1 := Z.max 0 (D + e - prec - e)) in *.
  pose proof (Z.log2_nonneg m) as Hlm.
  assert (Hs1 : 0 <= s1 <= Z.log2 m) by (unfold s1, prec in *; lia).
  assert (Hq_lo : 2 ^ (Z.log2 m - s1) <= shr_m mrs').
  { rewrite H1. apply Z.div_le_lower_bound; [apply Z.pow_pos_nonneg; lia|].
    rewrite <- Z.pow_add_r by lia. replace (s1 + (Z.log2 m - s1)) with (Z.log2 m) by lia.
    apply Z.log2_le_pow2; lia. }
  assert (Hq_hi : shr_m mrs' < 2 ^ (Z.log2 m + 1 - s1)).
  { rewrite H1. apply Z.div_lt_upper_bound; [apply Z.pow_pos_nonneg; lia|].
    rewrite <- Z.pow_add_r by lia. replace (s1 + (Z.log2 m + 1 - s1)) with (Z.log2 m + 1) by lia.
    apply Z.log2_lt_pow2; lia. }
  assert (Hpos : 0 < 2 ^ (Z.log2 m - s1)) by (apply Z.pow_pos_nonneg; lia).
  assert (Hm1 : 0 < m1) by lia.
  set (D1 := Zdigits2 m1) in *.
  assert (HD1 : D1 = Z.log2 m1 + 1) by (by apply Zdigits2_log2).
  assert (Hl1_lo : Z.log2 m - s1 <= Z.log2 m1).
  { apply Z.log2_le_pow2; lia. }
  assert (Hl1_hi : Z.log2 m1 <= Z.log2 m + 1 - s1).
  { destruct (Z.eq_dec m1 (2 ^ (Z.log2 m + 1 - s1))) as [->|Hne].
    - rewrite Z.log2_pow2 by lia. lia.
    - assert (Z.log2 m1 < Z.log2 m + 1 - s1); [|lia].
      apply Z.log2_lt_pow2; lia. }
  pose proof (shr_spec (shr_record_of_loc m1 loc_Exact) e'
    (fexp prec emax (D1 + e') - e')) as [H2 H2e].
  { simpl. lia. }
  rewrite E2 in H2, H2e; simpl in H2, H2e.
  assert (Hf2 : fexp prec emax (D1 + e') = D1 + e' - prec) by (unfold fexp; lia).
  rewrite Hf2 in H2, H2e.
  set (s2 := Z.max 0 (D1 + e' - prec - e')) in *.
  pose proof (Z.log2_nonneg m1) as Hlm1.
  assert (Hs2 : 0 <= s2 <= Z.log2 m1) by (unfold s2, prec in *; lia).
  assert (Hq2 : 1 <= shr_m mrs'').
  { rewrite H2. apply Z.div_le_lower_bound; [apply Z.pow_pos_nonneg; lia|].
    rewrite Z.mul_1_r. transitivity (2 ^ Z.log2 m1).
    - apply Z.pow_le_mono_r; lia.
    - apply Z.log2_le_pow2; lia. }
  assert (Hd2 : Zdigits2 (shr_m mrs'') = D1 - s2).
  { rewrite Zdigits2_log2 by lia. rewrite H2, <- Z.shiftr_div_pow2 by lia.
    rewrite Z.log2_shiftr by lia. lia. }
  destruct (shr_m mrs'') as [|p|p]; try lia.
  assert ((e'' <=? emax - prec) = true) as -> by (apply Z.leb_le; lia).
  eexists _, _. split; [done|]. lia.
Qed.


Lemma signed_nonneg x : signed false x -> SFnonneg x.
Proof. destruct x as [[]|[]| |[] ? ?]; simpl; done. Qed.

Lemma digits2_iter_xO d : forall p,
  Z.pos (digits2_pos (Pos.iter xO p d)) = Z.pos (digits2_pos p) + Z.pos d.
Proof.
  induction d as [|d IH] using Pos.peano_ind; intros p.
  - simpl. lia.
  - rewrite Pos.iter_succ. simpl. rewrite Pos2Z.inj_succ, IH. lia.
Qed.

(** Aligning a mantissa to a smaller exponent keeps digits + exponent. *)
Lemma shl_align_spec mx ex ex' :
  Zdigits2 (Z.pos (fst (shl_align mx ex ex'))) + snd (shl_align mx ex ex')
    = Zdigits2 (Z.pos mx) + ex /\
  snd (shl_align mx ex ex') <= ex.
Proof.
  unfold shl_align. destruct (ex' - ex) as [|d|d] eqn:E; simpl; try lia.
  rewrite digits2_iter_xO. lia.
Qed.

Lemma binary_round_signed s mx ex :
  signed s (binary_round prec emax s mx ex).
Proof.
  unfold binary_round. destruct (shl_align _ _ _) as [mz ez].
  apply binary_round_aux_signed. lia.
Qed.

(** Integers below 2^63 convert to finite numbers. *)
Lemma binary_normalize_int z :
  0 < z < 2 ^ 63 ->
  exists m e, binary_normalize prec emax z 0 false = S754_finite false m e /\
    1 <= Zdigits2 (Z.pos m) + e <= 64.
Proof.
  intros [Hlo Hhi]. destruct z as [|p|p]; try lia. simpl.
  unfold binary_round.
  pose proof (shl_align_spec p 0 (fexp prec emax (Z.pos (digits2_pos p) + 0)))
    as [Hd He].
  destruct (shl_align _ _ _) as [mz ez]. simpl in Hd, He.
  assert (HD : Z.pos (digits2_pos p) = Z.log2 (Z.pos p) + 1).
  { apply (Zdigits2_log2 (Z.pos p)). lia. }
  assert (Z.log2 (Z.pos p) < 63) by (apply Z.log2_lt_pow2; lia).
  pose proof (Z.log2_nonneg (Z.pos p)).
  destruct (binary_round_aux_finite false (Z.pos mz) ez loc_Exact)
    as (m & e & -> & Hb);
    unfold SpecFloat.emin, prec, emax in *; simpl in *; try lia.
  eexists _, _. split; [done|]. lia.
Qed.

Lemma SFcount_float_of_int z : SFcount (Prim2SF (float_of_int z)).
Proof.
  unfold float_of_int. rewrite of_uint63_spec, Uint63.of_Z_spec.
  assert (HwB : wB = 2 ^ 63) by reflexivity. rewrite HwB.
  pose proof (Z.mod_pos_bound z (2 ^ 63)) as Hb.
  destruct (Z.eq_dec (z mod 2 ^ 63) 0) as [E|E].
  - rewrite E. done.
  - destruct (binary_normalize_int (z mod 2 ^ 63)) as (m & e & -> & H);
      [lia|done].
Qed.

Lemma SFpositive_float_of_int z :
  0 < z < 2 ^ 63 -> SFpositive (Prim2SF (float_of_int z)).
Proof.
  intros Hz. unfold float_of_int. rewrite of_uint63_spec, Uint63.of_Z_spec.
  assert (HwB : wB = 2 ^ 63) by reflexivity. rewrite HwB.
  rewrite Z.mod_small by lia.
  by destruct (binary_normalize_int z Hz) as (m & e & -> & _).
Qed.

Lemma SFcount_nonneg x : SFcount x -> SFnonneg x.
Proof. by destruct x as [[]|[]| |[] ? ?]. Qed.

Lemma SFcount_bounded x : SFcount x -> SFbounded x.
Proof. by destruct x as [[]|[]| |[] ? ?]. Qed.

Lemma SFadd_nonneg x y :
  SFnonneg x -> SFnonneg y -> SFnonneg (SFadd prec emax x y).
Proof.
  destruct x as [[]|[]| |[] mx ex], y as [[]|[]| |[] my ey]; simpl; try done.
  intros _ _. apply signed_nonneg, binary_round_signed.
Qed.

Lemma SFmul_nonneg x y :
  SFnonneg x -> SFpositive y -> SFbounded y -> SFnonneg (SFmul prec emax x y).
Proof.
  destruct x as [[]|[]| |[] mx ex], y as [[]|[]| |[] my ey]; simpl; try done.
  intros _ _ _. apply signed_nonneg, binary_round_aux_signed. lia.
Qed.

Lemma SFdiv_core_nonneg m1 e1 m2 e2 :
  0 < m1 -> 0 < m2 ->
  0 <= fst (fst (SFdiv_core_binary prec emax m1 e1 m2 e2)).
Proof.
  intros H1 H2. unfold SFdiv_core_binary.
  set (m' := match _ - _ - _ with Z0 => m1 | Z.pos _ => _ | Z.neg _ => 0 end).
  assert (0 <= m') as Hm'.
  { unfold m'. destruct (_ - _ - _); try lia. apply Z.shiftl_nonneg. lia. }
  pose proof (Z.div_pos m' m2 Hm' H2) as Hq. unfold Z.div in Hq.
  destruct (Z.div_eucl m' m2) as [q r]. done.
Qed.

(** A quotient of non-negative numbers is non-negative unless it is
    undefined: 0/0 is excluded by the positive divisor, inf/inf by one of
    the two being finite. *)
Lemma SFdiv_nonneg x y :
  SFnonneg x -> SFpositive y -> SFbounded x \/ SFbounded y ->
  SFnonneg (SFdiv prec emax x y).
Proof.
  destruct x as [[]|[]| |[] mx ex], y as [[]|[]| |[] my ey]; simpl; try done;
    try (intros _ _ [[]|[]]; done).
  intros _ _ _.
  pose proof (SFdiv_core_nonneg (Z.pos mx) ex (Z.pos my) ey) as H.
  destruct (SFdiv_core_binary _ _ _ _ _ _) as [[mz ez] lz]. simpl in H.
  apply signed_nonneg, binary_round_aux_signed. lia.
Qed.

(** ** The order of the numbers *)

Lemma SFcompare_key x y :
  match SFcompare x y with
  | None => SFkey x = None \/ SFkey y = None
  | Some c => exists a b, SFkey x = Some a /\ SFkey y = Some b /\
      match c with
      | Lt => key_lt a b
      | Eq => key_eq a b
      | Gt => key_lt b a
      end
  end.
Proof.
  unfold key_lt, key_eq.
  destruct x as [sx|sx| |sx mx ex], y as [sy|sy| |sy my ey]; simpl; auto;
    try (destruct sx); try (destruct sy); try (eexists _, _; repeat split; simpl; lia).
  - eexists _, _. split; [done|]. split; [done|].
    destruct (Z.compare_spec ex ey); simpl; try lia.
    change (Pos.compare_cont Eq mx my) with (Pos.compare mx my).
    destruct (Pos.compare_spec mx my); simpl; lia.
  - eexists _, _. split; [done|]. split; [done|].
    destruct (Z.compare_spec ex ey); simpl; try lia.
    change (Pos.compare_cont Eq mx my) with (Pos.compare mx my).
    destruct (Pos.compare_spec mx my); simpl; lia.
Qed.


Lemma ltb_key x y :
  (x <? y)%float = true <->
  exists a b, SFkey (Prim2SF x) = Some a /\ SFkey (Prim2SF y) = Some b /\
    key_lt a b.
Proof.
  rewrite ltb_spec. unfold SFltb.
  pose proof (SFcompare_key (Prim2SF x) (Prim2SF y)) as H.
  destruct (SFcompare _ _) as [[]|].
  - destruct H as (a & b & Ha & Hb & Hab). split; [done|].
    intros (a' & b' & Ha' & Hb' & Hlt). exfalso.
    unfold key_lt, key_eq in *. simplify_eq. lia.
  - destruct H as (a & b & Ha & Hb & Hab). split; [eauto|done].
  - destruct H as (a & b & Ha & Hb & Hab). split; [done|].
    intros (a' & b' & Ha' & Hb' & Hlt). exfalso.
    unfold key_lt, key_eq in *. simplify_eq. lia.
  - split; [done|]. intros (a' & b' & Ha' & Hb' & Hlt).
    destruct H; congruence.
Qed.

Lemma leb_key x y :
  (x <=? y)%float = true <->
  exists a b, SFkey (Prim2SF x) = Some a /\ SFkey (Prim2SF y) = Some b /\
    (key_lt a b \/ key_eq a b).
Proof.
  rewrite leb_spec. unfold SFleb.
  pose proof (SFcompare_key (Prim2SF x) (Prim2SF y)) as H.
  destruct (SFcompare _ _) as [[]|].
  - destruct H as (a & b & Ha & Hb & Hab). split; [eauto 10|done].
  - destruct H as (a & b & Ha & Hb & Hab). split; [eauto 10|done].
  - destruct H as (a & b & Ha & Hb & Hab). split; [done|].
    intros (a' & b' & Ha' & Hb' & Hlt). exfalso.
    unfold key_lt, key_eq in *. simplify_eq. lia.
  - split; [done|]. intros (a' & b' & Ha' & Hb' & Hlt).
    destruct H; congruence.
Qed.

Lemma is_number_key x : is_number x <-> is_Some (SFkey (Prim2SF x)).
Proof.
  unfold is_number. rewrite FloatAxioms.eqb_spec. unfold SFeqb.
  pose proof (SFcompare_key (Prim2SF x) (Prim2SF x)) as H.
  destruct (SFcompare _ _) as [[]|].
  - destruct H as (a & b & Ha & Hb & Hab). split; [eauto|done].
  - destruct H as (a & b & Ha & Hb & Hab). exfalso.
    unfold key_lt in *. simplify_eq. lia.
  - destruct H as (a & b & Ha & Hb & Hab). exfalso.
    unfold key_lt in *. simplify_eq. lia.
  - split; [done|]. intros [a Ha]. destruct H; congruence.
Qed.

Lemma leb_ltb_trans x y z :
  (x <=? y)%float = true -> (y <? z)%float = true -> (x <? z)%float = true.
Proof.
  rewrite leb_key, !ltb_key.
  intros (a & b & Ha & Hb & Hab) (b' & c & Hb' & Hc & Hbc).
  exists a, c. unfold key_lt, key_eq in *. simplify_eq.
  repeat split; [done..|lia].
Qed.

Lemma leb_not_ltb x y :
  (x <=? y)%float = true -> (y <? x)%float = false.
Proof.
  rewrite leb_key. intros (a & b & Ha & Hb & Hab).
  apply not_true_is_false. rewrite ltb_key.
  intros (b' & a' & Hb' & Ha' & Hlt).
  unfold key_lt, key_eq in *. simplify_eq. lia.
Qed.

(** Among numbers the order is total. *)
Lemma not_ltb_leb x y :
  is_number x -> is_number y ->
  (x <? y)%float = false -> (y <=? x)%float = true.
Proof.
  rewrite !is_number_key. intros [a Ha] [b Hb] Hlt.
  apply leb_key. exists b, a. split; [done|]. split; [done|].
  apply not_true_iff_false in Hlt. rewrite ltb_key in Hlt.
  destruct a as [[a1 a2] a3], b as [[b1 b2] b3].
  unfold key_lt, key_eq in *. simpl in *.
  destruct (decide (a1 < b1 \/ a1 = b1 /\ (a2 < b2 \/ a2 = b2 /\ a3 < b3)))
    as [Hd|Hd].
  - exfalso. apply Hlt. eexists _, _. eauto.
  - lia.
Qed.

Lemma leb_refl x : is_number x -> (x <=? x)%float = true.
Proof.
  rewrite is_number_key. intros [a Ha]. apply leb_key.
  exists a, a. unfold key_eq. eauto 10.
Qed.

Lemma nonneg_SF x : nonneg x <-> SFnonneg (Prim2SF x).
Proof.
  unfold nonneg. rewrite leb_spec.
  change (Prim2SF 0) with (S754_zero false). unfold SFleb.
  by destruct (Prim2SF x) as [[]|[]| |[] ? ?].
Qed.

Lemma positive_SF x : (0 <? x)%float = true <-> SFpositive (Prim2SF x).
Proof.
  rewrite ltb_spec.
  change (Prim2SF 0) with (S754_zero false). unfold SFltb.
  by destruct (Prim2SF x) as [[]|[]| |[] ? ?].
Qed.

Lemma nonneg_is_number x : nonneg x -> is_number x.
Proof.
  rewrite nonneg_SF, is_number_key.
  by destruct (Prim2SF x) as [[]|[]| |[] ? ?].
Qed.

Lemma nonneg_float_of_int z : nonneg (float_of_int z).
Proof. apply nonneg_SF, SFcount_nonneg, SFcount_float_of_int. Qed.

Lemma nonneg_add x y : nonneg x -> nonneg y -> nonneg (x + y)%float.
Proof. rewrite !nonneg_SF, add_spec. apply SFadd_nonneg. Qed.

(** Dividing and multiplying by a count [n] of at least one. *)
Lemma nonneg_div_count x n :
  0 < n < 2 ^ 63 -> nonneg x -> nonneg (x / float_of_int n)%float.
Proof.
  intros Hn. rewrite !nonneg_SF, div_spec. intros Hx.
  apply SFdiv_nonneg; [done|by apply SFpositive_float_of_int|].
  right. apply SFcount_bounded, SFcount_float_of_int.
Qed.

Lemma nonneg_mul_count x n :
  0 < n < 2 ^ 63 -> nonneg x -> nonneg (x * float_of_int n)%float.
Proof.
  intros Hn. rewrite !nonneg_SF, mul_spec. intros Hx.
  apply SFmul_nonneg; [done|by apply SFpositive_float_of_int|].
  apply SFcount_bounded, SFcount_float_of_int.
Qed.

(** A count divided by a positive duration. *)
Lemma nonneg_count_div z d :
  (0 <? d)%float = true -> nonneg (float_of_int z / d)%float.
Proof.
  rewrite positive_SF, nonneg_SF, div_spec. intros Hd.
  apply SFdiv_nonneg; [|done|left].
  - apply SFcount_nonneg, SFcount_float_of_int.
  - apply SFcount_bounded, SFcount_float_of_int.
Qed.

(** Half of a count of at least one is above zero. *)
Lemma half_count_positive n :
  0 < n < 2 ^ 63 -> (0 <? float_of_int n * half)%float = true.
Proof.
  intros Hn. rewrite positive_SF, mul_spec.
  pose proof (SFcount_float_of_int n) as Hc.
  pose proof (SFpositive_float_of_int n Hn) as Hp.
  change (Prim2SF half) with (S754_finite false 4503599627370496 (-53)).
  destruct (Prim2SF (float_of_int n)) as [[]|[]| |[] m e]; try done.
  unfold SFcount in Hc. unfold SFmul.
  assert (Hd : Zdigits2 (Z.pos (m * 4503599627370496))
               = Zdigits2 (Z.pos m) + 52).
  { rewrite !Zdigits2_log2 by lia.
    rewrite Pos2Z.inj_mul. change (Z.pos 4503599627370496) with (2 ^ 52).
    rewrite Z.log2_mul_pow2 by lia. lia. }
  assert (1 <= Zdigits2 (Z.pos m)).
  { rewrite Zdigits2_log2 by lia. pose proof (Z.log2_nonneg (Z.pos m)). lia. }
  destruct (binary_round_aux_finite false (Z.pos (m * 4503599627370496))
              (e + -53) loc_Exact) as (m' & e' & Hr & _).
  - lia.
  - rewrite Hd. unfold SpecFloat.emin, prec, emax. lia.
  - rewrite Hd. unfold emax. lia.
  - unfold emax, prec. lia.
  - simpl. by rewrite Hr.
Qed.

(** * The stream processor *)

(** The loop counts its iterations, and one detection for every ten. *)
Lemma frame_loop_spec ticks : forall frame_count detection_count,
  frame_loop ticks frame_count detection_count =
    (frame_count + Z.of_nat ticks,
     detection_count + ((frame_count + Z.of_nat ticks) / 10 - frame_count / 10)).
Proof.
  induction ticks as [|t IH]; intros f d.
  - simpl. rewrite !Z.add_0_r. f_equal. lia.
  - cbn [frame_loop]. rewrite IH. f_equal; [lia|].
    replace (f + 1 + Z.of_nat t) with (f + Z.of_nat (S t)) by lia.
    destruct (Z.eqb_spec ((f + 1) mod 10) 0) as [E|E];
      Z.div_mod_to_equations; lia.
Qed.

Lemma frame_loop_0 ticks :
  frame_loop ticks 0 0 = (Z.of_nat ticks, Z.of_nat ticks / 10).
Proof. rewrite frame_loop_spec. simpl. by rewrite Z.sub_0_r. Qed.

Lemma run_single_stream_finished device ticks d stream_id fps_target k :
  run_single_stream device (Finished ticks d) stream_id fps_target !! k =
    if decide (k = "stream_id") then Some (VStr stream_id)
    else if decide (k = "device") then Some (VStr device)
    else if decide (k = "target_fps") then Some (VInt fps_target)
    else if decide (k = "actual_fps")
      then Some (actual_fps_of (Z.of_nat ticks) d)
    else if decide (k = "frames_processed") then Some (VInt (Z.of_nat ticks))
    else if decide (k = "detections") then Some (VInt (Z.of_nat ticks / 10))
    else if decide (k = "duration") then Some (VFloat d)
    else if decide (k = "success") then Some (VBool true)
    else None.
Proof.
  unfold run_single_stream. rewrite frame_loop_0.
  repeat (case_decide; [subst; by simplify_map_eq|]).
  by simplify_map_eq.
Qed.

Lemma run_single_stream_failed device msg stream_id fps_target k :
  run_single_stream device (Failed msg) stream_id fps_target !! k =
    if decide (k = "stream_id") then Some (VStr stream_id)
    else if decide (k = "device") then Some (VStr device)
    else if decide (k = "error") then Some (VStr msg)
    else if decide (k = "success") then Some (VBool false)
    else None.
Proof.
  unfold run_single_stream.
  repeat (case_decide; [subst; by simplify_map_eq|]).
  by simplify_map_eq.
Qed.

Lemma ltb_not_eqb x y :
  (x <? y)%float = true -> (y =? x)%float = false.
Proof.
  rewrite ltb_key. intros (a & b & Ha & Hb & Hlt).
  rewrite FloatAxioms.eqb_spec. unfold SFeqb.
  pose proof (SFcompare_key (Prim2SF y) (Prim2SF x)) as H.
  destruct (SFcompare _ _) as [[]|]; try done.
  destruct H as (b' & a' & Hb' & Ha' & Heq).
  unfold key_lt, key_eq in *. simplify_eq. lia.
Qed.

(** C9: in the success path of run_single_stream the achieved rate
    (actual_fps) is units_processed / elapsed when elapsed > 0, and 0 when
    elapsed <= 0 (and whenever elapsed > 0 fails); the division is reached
    with a divisor that is not zero only, and the achieved rate is never
    below 0. *)
Theorem C9_achieved_rate_guarded device ticks elapsed stream_id fps_target :
  let r :=
    run_single_stream device (Finished ticks elapsed) stream_id fps_target in
  let units_processed := Z.of_nat ticks in
  r !! "success" = Some (VBool true) /\
  r !! "frames_processed" = Some (VInt units_processed) /\
  ((0 <? elapsed)%float = true ->
     (elapsed =? 0)%float = false /\
     r !! "actual_fps" =
       Some (VFloat (float_of_int units_processed / elapsed)%float)) /\
  ((elapsed <=? 0)%float = true -> r !! "actual_fps" = Some (VInt 0)) /\
  ((0 <? elapsed)%float = false -> r !! "actual_fps" = Some (VInt 0)) /\
  nonneg (achieved_rate r).
Proof.
  intros r units_processed. subst r units_processed.
  unfold achieved_rate. rewrite !run_single_stream_finished. simpl.
  unfold actual_fps_of.
  split; [done|]. split; [done|]. split; [|split; [|split]].
  - intros Hpos. rewrite Hpos. split; [|done]. by apply ltb_not_eqb.
  - intros Hle. by rewrite (leb_not_ltb _ _ Hle).
  - by intros ->.
  - destruct (0 <? elapsed)%float eqn:Hpos.
    + by apply nonneg_count_div.
    + apply nonneg_float_of_int.
Qed.

(** Once the sum has raised, it stays raised. *)
Lemma foldl_raised {A B} (f : B -> A -> res B) e (l : list A) :
  foldl (fun acc r => a <-! acc; f a r) (Raise e) l = Raise e.
Proof. induction l as [|x l IH]; [done|]. simpl. apply IH. Qed.

(** C10: when an exception is raised in the try block, run_single_stream
    returns a result whose only fields are stream_id, device, error and
    success, with success false; reading actual_fps, frames_processed,
    detections or duration of it raises KeyError, so it must be filtered
    out by its success before these are read, as make_result would raise
    on it. *)
Theorem C10_failed_result_fields device msg stream_id fps_target :
  let r := run_single_stream device (Failed msg) stream_id fps_target in
  dom r = {[ "stream_id"; "device"; "error"; "success" ]} /\
  r !! "stream_id" = Some (VStr stream_id) /\
  r !! "device" = Some (VStr device) /\
  r !! "error" = Some (VStr msg) /\
  r !! "success" = Some (VBool false) /\
  Forall (fun k => getitem r k = Raise (KeyError k))
    ["actual_fps"; "frames_processed"; "detections"; "duration"] /\
  is_successful r = Ok false /\
  succeeded r = false /\
  (forall dev n fps ts rs,
     make_result dev n fps ts (r :: rs) = Raise (KeyError "actual_fps")).
Proof.
  intros r.
  assert (Hr : forall k, r !! k =
    if decide (k = "stream_id") then Some (VStr stream_id)
    else if decide (k = "device") then Some (VStr device)
    else if decide (k = "error") then Some (VStr msg)
    else if decide (k = "success") then Some (VBool false)
    else None) by apply run_single_stream_failed.
  clearbody r. split.
  { apply set_eq. intros k. rewrite elem_of_dom, Hr.
    rewrite !elem_of_union, !elem_of_singleton.
    repeat case_decide; split; intros Hk;
      try (by eauto); try tauto; try (by destruct Hk); intuition congruence. }
  unfold is_successful, succeeded, getitem.
  rewrite !Hr. simpl.
  repeat (split; [done|]).
  split.
  { repeat (apply Forall_cons; split; [by rewrite Hr|]). apply Forall_nil_2. }
  repeat (split; [done|]).
  intros dev n fps ts rs.
  assert (Hg : getitem r "actual_fps" = Raise (KeyError "actual_fps")).
  { unfold getitem. by rewrite Hr. }
  unfold make_result, py_sum. simpl. rewrite Hg. simpl.
  by rewrite foldl_raised.
Qed.

(** * The harness *)

Lemma as_completed_Permutation {A} (choose : nat -> nat) (l : list A) :
  as_completed choose (length l) l ≡ₚ l.
Proof.
  remember (length l) as n eqn:Hn. revert l Hn.
  induction n as [|n IH]; intros l Hn.
  - destruct l; [done|discriminate].
  - simpl.
    assert (choose n `mod` length l < length l)%nat as Hk.
    { apply Nat.mod_upper_bound. lia. }
    destruct (lookup_lt_is_Some_2 l _ Hk) as [x Hx]. rewrite Hx.
    etrans; [|symmetry; apply (delete_Permutation l _ x Hx)].
    constructor. apply IH. rewrite length_delete by eauto. lia.
Qed.

Lemma video_of_lookup (video_files : list string) (i : Z) :
  video_files <> [] ->
  video_files !! Z.to_nat (i mod len video_files) = Some (video_of video_files i).
Proof.
  intros Hne. unfold video_of.
  assert (0 < len video_files) as Hlen.
  { unfold len. destruct video_files; [done|]. simpl. lia. }
  pose proof (Z.mod_pos_bound i (len video_files) Hlen) as Hb.
  destruct (lookup_lt_is_Some_2 video_files (Z.to_nat (i mod len video_files)))
    as [v Hv]; [unfold len in *; lia|].
  by rewrite Hv.
Qed.

Lemma submit_streams_spec w pos video_files dev fps_target n indices b :
  video_files <> [] ->
  submit_streams w pos video_files dev fps_target n indices b =
    (Ok ((fun i => run_single_stream dev
                     (workload w pos n i (video_of video_files i))
                     ("stream_" +:+ pretty i) fps_target) <$> indices),
     {| results := results b;
        trace := trace b ++
          ((fun i => Submitted fps_target n i (video_of video_files i))
           <$> indices) |}).
Proof.
  intros Hne. revert b. induction indices as [|i rest IH]; intros b.
  - simpl. unfold ret. rewrite app_nil_r. by destruct b.
  - cbn [submit_streams]. unfold mbindM at 1, lift, py_mod.
    assert (len video_files <> 0) as Hlen.
    { unfold len. destruct video_files; [done|]. simpl. lia. }
    apply Z.eqb_neq in Hlen. rewrite Hlen.
    unfold mbindM at 1, list_getitem.
    rewrite (video_of_lookup video_files i Hne).
    unfold mbindM at 1, emit. unfold mbindM at 1. rewrite IH.
    unfold ret. simpl. by rewrite <- app_assoc.
Qed.

Lemma filterM_is_successful (l : list (gmap string pyval)) :
  Forall stream_result l ->
  filterM is_successful l = Ok (filter (fun r => succeeded r) l).
Proof.
  induction 1 as [|r l (dev & o & id & fps & ->) _ IH]; [done|].
  cbn [filterM]. rewrite IH. rewrite filter_cons.
  unfold is_successful, succeeded, getitem.
  destruct o as [ticks d|msg].
  - rewrite run_single_stream_finished. simpl. done.
  - rewrite run_single_stream_failed. simpl. done.
Qed.

Lemma succeeded_finished r :
  stream_result r -> succeeded r -> finished_result r.
Proof.
  intros (dev & o & id & fps & ->). unfold succeeded.
  destruct o as [ticks d|msg].
  - intros _. by exists dev, ticks, d, id, fps.
  - by rewrite run_single_stream_failed.
Qed.

Lemma launched_stream_results w pos video_files dev fps_target n :
  Forall stream_result (launched w pos video_files dev fps_target n).
Proof.
  unfold launched. apply Forall_fmap, Forall_forall. intros i _.
  simpl. by eexists _, _, _, _.
Qed.

Lemma collected_Permutation w pos video_files dev fps_target n :
  collected w pos video_files dev fps_target n ≡ₚ
  launched w pos video_files dev fps_target n.
Proof. apply as_completed_Permutation. Qed.

Lemma collected_stream_results w pos video_files dev fps_target n :
  Forall stream_result (collected w pos video_files dev fps_target n).
Proof.
  rewrite collected_Permutation. apply launched_stream_results.
Qed.

Lemma successful_finished w pos video_files dev fps_target n :
  Forall finished_result (successful w pos video_files dev fps_target n).
Proof.
  unfold successful. apply Forall_forall. intros r Hr.
  apply list_elem_of_filter in Hr as [Hs Hr].
  apply succeeded_finished; [|done].
  pose proof (collected_stream_results w pos video_files dev fps_target n) as H.
  rewrite Forall_forall in H. by apply H.
Qed.

Lemma float_of_int_0 : float_of_int 0 = 0%float.
Proof. reflexivity. Qed.

Lemma finished_result_fields r :
  finished_result r ->
  exists ticks elapsed,
    getitem r "actual_fps" = Ok (actual_fps_of (Z.of_nat ticks) elapsed) /\
    getitem r "detections" = Ok (VInt (Z.of_nat ticks / 10)) /\
    achieved_rate r = to_float
      (if (0 <? elapsed)%float
       then NFloat (float_of_int (Z.of_nat ticks) / elapsed)%float
       else NInt 0) /\
    events_detected r = Z.of_nat ticks / 10.
Proof.
  intros (dev & ticks & d & id & fps & ->). exists ticks, d.
  unfold getitem, achieved_rate, events_detected.
  rewrite !run_single_stream_finished. simpl.
  repeat split. unfold actual_fps_of. by destruct (0 <? d)%float.
Qed.

(** The sum of the rates as Python adds them, from the int 0, is the float
    sum of the rates. *)
Lemma py_sum_rates_from (l : list (gmap string pyval)) : forall a x,
  a = NInt 0 /\ x = 0%float \/ a = NFloat x ->
  Forall finished_result l ->
  exists s,
    foldl (fun acc r => a <-! acc; v <-! getitem r "actual_fps";
                        n <-! as_num v; Ok (num_add a n)) (Ok a) l = Ok s /\
    to_float s = foldl PrimFloat.add x (achieved_rate <$> l).
Proof.
  induction l as [|r l IH]; intros a x Ha Hl.
  - exists a. split; [done|]. by destruct Ha as [[-> ->]| ->].
  - apply Forall_cons in Hl as [Hr Hl].
    destruct (finished_result_fields r Hr) as (ticks & d & Hfps & _ & Hrate & _).
    cbn [foldl fmap list_fmap]. cbn [bind]. rewrite Hfps, Hrate.
    unfold actual_fps_of.
    destruct (0 <? d)%float; cbn [bind as_num to_float].
    + apply IH; [|done]. right.
      destruct Ha as [[-> ->]| ->]; cbn [num_add to_float]; [|done].
      by rewrite float_of_int_0.
    + apply IH; [|done].
      destruct Ha as [[-> ->]| ->]; cbn [num_add to_float].
      * left. rewrite float_of_int_0. by split.
      * by right.
Qed.

Lemma py_sum_rates (l : list (gmap string pyval)) :
  Forall finished_result l ->
  exists s, py_sum (fun r => getitem r "actual_fps") l = Ok s /\
    to_float s = foldl PrimFloat.add 0%float (achieved_rate <$> l).
Proof. apply py_sum_rates_from. by left. Qed.

Lemma py_sum_detections_from (l : list (gmap string pyval)) : forall z,
  Forall finished_result l ->
  foldl (fun acc r => a <-! acc; v <-! getitem r "detections";
                      n <-! as_num v; Ok (num_add a n)) (Ok (NInt z)) l
  = Ok (NInt (z + foldr Z.add 0 (events_detected <$> l))).
Proof.
  induction l as [|r l IH]; intros z Hl.
  - simpl. by rewrite Z.add_0_r.
  - apply Forall_cons in Hl as [Hr Hl].
    destruct (finished_result_fields r Hr) as (ticks & d & _ & Hdet & _ & Hev).
    cbn [foldl fmap list_fmap foldr]. cbn [bind]. rewrite Hdet, Hev.
    cbn [bind as_num num_add]. rewrite IH by done. do 2 f_equal. lia.
Qed.

(** [make_result] on successful results: it does not raise, and it
    computes the mean, the aggregate and the sum. *)
Lemma make_result_spec dev n fps ts (l : list (gmap string pyval)) :
  l <> [] ->
  Forall finished_result l ->
  make_result dev n fps ts l =
    Ok {| device := dev;
          num_streams := n;
          target_fps := fps;
          successful_streams := len l;
          avg_fps_per_stream := mean (achieved_rate <$> l);
          total_fps := (mean (achieved_rate <$> l) * float_of_int (len l))%float;
          total_detections := NInt (foldr Z.add 0 (events_detected <$> l));
          timestamp := ts |}.
Proof.
  intros Hne Hl. unfold make_result.
  destruct (py_sum_rates l Hl) as (s & -> & Hs). cbn [bind].
  unfold truediv.
  assert (len l <> 0) as Hlen by (unfold len; destruct l; [done|simpl; lia]).
  apply Z.eqb_neq in Hlen. rewrite Hlen. cbn [bind].
  unfold py_sum. rewrite py_sum_detections_from by done. cbn [bind].
  unfold mean. rewrite Hs. unfold len. by rewrite length_fmap.
Qed.

(** A trial that has workload specs and at least one stream does not raise:
    it records what the specification says, and stops the loop by the
    early-stop test. *)
Lemma trial_spec w pos video_files dev fps_target n b :
  video_files <> [] -> 0 < n ->
  trial w pos video_files dev fps_target n b =
    (Ok (stops w pos video_files dev fps_target n),
     {| results := results b ++
          match successful w pos video_files dev fps_target n with
          | [] => []
          | _ :: _ => [trial_record w pos video_files dev fps_target n]
          end;
        trace := trace b ++ trial_events video_files fps_target n |}).
Proof.
  intros Hne Hn. unfold trial.
  unfold mbindM at 1, emit.
  assert ((n <=? 0) = false) as -> by lia.
  unfold mbindM at 1, ret at 1.
  unfold mbindM at 1. rewrite submit_streams_spec by done.
  fold (launched w pos video_files dev fps_target n).
  fold (collected w pos video_files dev fps_target n).
  unfold mbindM at 1, lift at 1.
  rewrite filterM_is_successful by apply collected_stream_results.
  fold (successful w pos video_files dev fps_target n).
  pose proof (successful_finished w pos video_files dev fps_target n) as Hfin.
  unfold stops, trial_events, trial_record. cbn [results trace].
  destruct (successful w pos video_files dev fps_target n) as [|r l] eqn:E.
  - unfold mbindM, ret. cbn. rewrite app_nil_r, <- app_assoc. done.
  - unfold mbindM at 1. unfold mbindM at 1, lift.
    rewrite make_result_spec by done.
    unfold append_result, ret. cbn. rewrite <- app_assoc. done.
Qed.

(** ** The loops *)

Lemma stream_loop_spec w pos video_files dev fps_target levels : forall b,
  video_files <> [] -> Forall (fun n => 0 < n) levels ->
  let tested :=
    tested_levels (stops w pos video_files dev fps_target) levels in
  stream_loop w pos video_files dev fps_target levels b =
    (Ok tt,
     {| results := results b ++
          mjoin (recorded w pos video_files dev fps_target <$> tested);
        trace := trace b ++
          mjoin (level_events w pos video_files dev fps_target <$> tested) |}).
Proof.
  induction levels as [|n rest IH]; intros b Hne Hpos; simpl.
  - unfold ret. rewrite !app_nil_r. by destruct b.
  - apply Forall_cons in Hpos as [Hn Hrest].
    unfold mbindM at 1. rewrite trial_spec by done.
    fold (recorded w pos video_files dev fps_target n).
    unfold level_events at 1.
    destruct (stops w pos video_files dev fps_target n) eqn:Hstop.
    + unfold ret. simpl. by rewrite !app_nil_r.
    + unfold mbindM at 1, emit. rewrite IH by done. simpl.
      by rewrite <- !app_assoc.
Qed.

Lemma seqZ_positive (len : Z) : Forall (fun n => 0 < n) (seqZ 1 len).
Proof. apply Forall_forall. intros n Hn%elem_of_seqZ. lia. Qed.

Lemma target_loop_spec w video_files dev max fps_targets : forall pos b,
  video_files <> [] ->
  target_loop w pos video_files dev max fps_targets b =
    (Ok tt,
     {| results := results b ++
          mjoin (imap (fun i => target_records w video_files dev max (pos + i))
                   fps_targets);
        trace := trace b ++
          mjoin (imap (fun i => target_events w video_files dev max (pos + i))
                   fps_targets) |}).
Proof.
  induction fps_targets as [|t ts IH]; intros pos b Hne; simpl.
  - unfold ret. rewrite !app_nil_r. by destruct b.
  - assert (Hshift : forall B (g : nat -> Z -> B),
      imap (fun i => g (S pos + i)%nat) ts =
      imap ((fun i => g (pos + i)%nat) ∘ S) ts).
    { intros B g. apply imap_ext. intros i x _. simpl. f_equal. lia. }
    unfold mbindM. rewrite stream_loop_spec by (done || apply seqZ_positive).
    simpl. rewrite IH by done. simpl.
    rewrite Nat.add_0_r, <- !app_assoc, <- !Hshift. done.
Qed.

(** Without workload specs, the first trial raises when it assigns a spec
    to its first stream. *)
Lemma trial_no_specs w pos dev fps_target n b :
  0 < n ->
  trial w pos [] dev fps_target n b =
    (Raise ZeroDivisionError,
     {| results := results b;
        trace := trace b ++ [MonitorStarted fps_target n] |}).
Proof.
  intros Hn. unfold trial.
  unfold mbindM at 1, emit.
  assert ((n <=? 0) = false) as -> by lia.
  unfold mbindM at 1, ret at 1. unfold mbindM at 1.
  rewrite seqZ_cons by done. by cbn.
Qed.

(** * The claims on the harness *)

Lemma trial_results w pos video_files dev fps_target n b :
  video_files <> [] -> 0 < n ->
  results (trial w pos video_files dev fps_target n b).2 =
  results b ++ recorded w pos video_files dev fps_target n.
Proof. intros Hne Hn. by rewrite trial_spec. Qed.

(** C6: a trial with at least one successful stream result appends one
    record, whose avg_fps_per_stream is the mean of the achieved rates of
    the successful results, whose total_fps is that mean times the number
    of successful results, and whose total_detections is the sum of their
    detected events; four streams that achieve 10, 12, 9 and 11 give the
    mean 10.5 and the aggregate 42.0. *)
Theorem C6_aggregation :
  (forall w pos video_files dev fps_target n b,
     video_files <> [] -> 0 < n ->
     let ok := successful w pos video_files dev fps_target n in
     ok <> [] ->
     exists rec,
       results (trial w pos video_files dev fps_target n b).2
         = results b ++ [rec] /\
       successful_streams rec = len ok /\
       avg_fps_per_stream rec = mean (achieved_rate <$> ok) /\
       total_fps rec = (avg_fps_per_stream rec * float_of_int (len ok))%float /\
       total_detections rec = NInt (foldr Z.add 0 (events_detected <$> ok))) /\
  (let ok := successful scenario_A 0 ["a.mp4"] "CPU" 30 4 in
   achieved_rate <$> ok = [10; 12; 9; 11]%float /\
   exists rec,
     results (trial scenario_A 0 ["a.mp4"] "CPU" 30 4 fresh).2 = [rec] /\
     successful_streams rec = 4 /\
     avg_fps_per_stream rec = 10.5%float /\
     total_fps rec = 42%float /\
     total_detections rec = NInt (foldr Z.add 0 (events_detected <$> ok))).
Proof.
  split.
  - intros w pos video_files dev fps_target n b Hne Hn ok Hok.
    exists (trial_record w pos video_files dev fps_target n).
    rewrite trial_results by done. unfold recorded. fold ok.
    destruct ok eqn:E; [done|]. by rewrite <- E.
  - split; [by vm_compute|]. eexists. split; [by vm_compute|].
    by vm_compute.
Qed.

Lemma C6_aggregation_witness :
  exists rec,
    results (trial scenario_A 0 ["a.mp4"] "CPU" 30 4 fresh).2
      = results fresh ++ [rec] /\
    successful_streams rec = len (successful scenario_A 0 ["a.mp4"] "CPU" 30 4) /\
    avg_fps_per_stream rec
      = mean (achieved_rate <$> successful scenario_A 0 ["a.mp4"] "CPU" 30 4) /\
    total_fps rec
      = (avg_fps_per_stream rec
         * float_of_int (len (successful scenario_A 0 ["a.mp4"] "CPU" 30 4)))%float /\
    total_detections rec
      = NInt (foldr Z.add 0
                (events_detected <$> successful scenario_A 0 ["a.mp4"] "CPU" 30 4)).
Proof.
  apply (proj1 C6_aggregation scenario_A 0%nat ["a.mp4"] "CPU" 30 4 fresh).
  - discriminate.
  - lia.
  - intros Hnil. apply (f_equal length) in Hnil.
    vm_compute in Hnil. discriminate.
Defined.

Lemma all_fail_successful w pos video_files dev fps_target n :
  all_fail w pos video_files n ->
  successful w pos video_files dev fps_target n = [].
Proof.
  intros Hfail. apply elem_of_nil_inv. intros r Hr.
  apply list_elem_of_filter in Hr as [Hs Hr].
  rewrite collected_Permutation in Hr. unfold launched in Hr.
  apply list_elem_of_fmap in Hr as (i & -> & Hi).
  apply elem_of_seqZ in Hi.
  destruct (Hfail i) as [msg Hmsg]; [lia|].
  rewrite Hmsg in Hs. unfold succeeded in Hs.
  by rewrite run_single_stream_failed in Hs.
Qed.

Lemma degraded_significantly_0 n :
  0 < n < 2 ^ 63 -> degraded_significantly 0 n = true.
Proof.
  intros Hn. unfold degraded_significantly. rewrite float_of_int_0.
  by apply half_count_positive.
Qed.

(** On counts up to 64, which cover the sweeps of [main], the float test of
    the early stop is the exact comparison of twice the successes with the
    concurrency. *)
Lemma degraded_significantly_exact successes n :
  0 <= successes <= 64 -> 0 <= n <= 64 ->
  degraded_significantly successes n = (2 * successes <? n).
Proof.
  intros Hs Hn.
  assert (forallb (fun s => forallb (fun n =>
            Bool.eqb (degraded_significantly s n) (2 * s <? n))
            (seqZ 0 65)) (seqZ 0 65) = true) as Hall.
  { vm_compute. reflexivity. }
  assert (forall x, 0 <= x <= 64 -> In x (seqZ 0 65)) as Hin.
  { intros x Hx. apply list_elem_of_In, elem_of_seqZ. lia. }
  rewrite forallb_forall in Hall.
  pose proof (Hall successes (Hin successes Hs)) as Hrow.
  rewrite forallb_forall in Hrow.
  exact (Bool.eqb_prop _ _ (Hrow n (Hin n Hn))).
Qed.

(** C1, as the specification states it, fails: in a world where no stream
    can be started, the trial of one stream appends no record at all. *)
Lemma C1_counterexample :
  all_fail no_backend 0 ["a.mp4"] 1 /\
  ~ exists rec,
      results (trial no_backend 0 ["a.mp4"] "CPU" 15 1 fresh).2
        = results fresh ++ [rec] /\
      successful_streams rec = 0 /\ total_fps rec = 0%float.
Proof.
  split.
  - intros i _. by eexists.
  - intros (rec & Hrec & _). vm_compute in Hrec. discriminate.
Qed.

(** C1, amended: when every stream of a trial fails, the trial appends no
    record (the log is left as it was), and the early-stop test holds: the
    loop over the concurrency levels of the current target ends with this
    trial, whatever levels are left. *)
Theorem C1_all_fail_no_record w pos video_files dev fps_target n rest b :
  video_files <> [] -> 0 < n < 2 ^ 63 ->
  all_fail w pos video_files n ->
  trial w pos video_files dev fps_target n b =
    (Ok true,
     {| results := results b;
        trace := trace b ++ trial_events video_files fps_target n |}) /\
  stream_loop w pos video_files dev fps_target (n :: rest) b =
    (Ok tt,
     {| results := results b;
        trace := trace b ++ trial_events video_files fps_target n |}).
Proof.
  intros Hne Hn Hfail.
  assert (Ht : trial w pos video_files dev fps_target n b =
    (Ok true,
     {| results := results b;
        trace := trace b ++ trial_events video_files fps_target n |})).
  { rewrite trial_spec by (done || lia). unfold stops.
    rewrite all_fail_successful by done.
    rewrite app_nil_r. change (len []) with 0.
    by rewrite degraded_significantly_0. }
  split; [done|].
  cbn [stream_loop]. unfold mbindM. by rewrite Ht.
Qed.

Lemma C1_all_fail_no_record_witness :
  trial no_backend 0 ["a.mp4"] "CPU" 15 1 fresh =
    (Ok true,
     {| results := results fresh;
        trace := trace fresh ++ trial_events ["a.mp4"] 15 1 |}) /\
  stream_loop no_backend 0 ["a.mp4"] "CPU" 15 [1; 2; 3] fresh =
    (Ok tt,
     {| results := results fresh;
        trace := trace fresh ++ trial_events ["a.mp4"] 15 1 |}).
Proof.
  apply (C1_all_fail_no_record no_backend 0%nat ["a.mp4"] "CPU" 15 1 [2; 3] fresh).
  - discriminate.
  - lia.
  - intros i _. by eexists.
Defined.

Lemma target_loop_no_levels w video_files dev max fps_targets : forall pos b,
  max <= 0 ->
  target_loop w pos video_files dev max fps_targets b = (Ok tt, b).
Proof.
  induction fps_targets as [|t ts IH]; intros pos b Hmax; [done|].
  cbn [target_loop]. rewrite seqZ_nil by done.
  unfold mbindM. cbn. by apply IH.
Qed.

Lemma target_loop_no_specs w pos dev max t ts b :
  0 < max ->
  target_loop w pos [] dev max (t :: ts) b =
    (Raise ZeroDivisionError,
     {| results := results b; trace := trace b ++ [MonitorStarted t 1] |}).
Proof.
  intros Hmax. cbn [target_loop]. rewrite seqZ_cons by done.
  cbn [stream_loop]. unfold mbindM. by rewrite trial_no_specs.
Qed.

(** C4, as the specification states it, fails: with max_streams = 0 the
    call returns normally; with no workload spec it raises
    ZeroDivisionError, and a trial body entered with zero streams raises
    ValueError, both after the resource monitor of the trial has been
    started. *)
Lemma C4_counterexample :
  benchmark_streams no_backend ["a.mp4"] "CPU" 0 [15] fresh = (Ok tt, fresh) /\
  benchmark_streams no_backend [] "CPU" 1 [15] fresh =
    (Raise ZeroDivisionError,
     {| results := []; trace := [MonitorStarted 15 1] |}) /\
  trial no_backend 0 ["a.mp4"] "CPU" 15 0 fresh =
    (Raise ValueError, {| results := []; trace := [MonitorStarted 15 0] |}).
Proof. by vm_compute. Qed.

(** C4, amended: benchmark_streams does not validate its configuration.
    With max_streams <= 0, or without a target rate, it runs no trial and
    returns normally, the state unchanged. With no workload spec,
    max_streams >= 1 and a target rate, it raises ZeroDivisionError when
    the first trial assigns a spec to its first stream: the resource
    monitor of that trial has been started, no stream has been submitted,
    and the log is as it was. With a workload spec it does not raise. So
    that ZeroDivisionError is the only failure that reaches the caller. *)
Theorem C4_configuration_not_validated w video_files dev max fps_targets b :
  (max <= 0 \/ fps_targets = [] ->
     benchmark_streams w video_files dev max fps_targets b = (Ok tt, b)) /\
  (video_files = [] -> 0 < max -> forall t ts, fps_targets = t :: ts ->
     benchmark_streams w video_files dev max fps_targets b =
       (Raise ZeroDivisionError,
        {| results := results b;
           trace := trace b ++ [MonitorStarted t 1] |})) /\
  (video_files <> [] ->
     exists b', benchmark_streams w video_files dev max fps_targets b
                = (Ok tt, b')) /\
  (forall e b',
     benchmark_streams w video_files dev max fps_targets b = (Raise e, b') ->
     e = ZeroDivisionError /\ video_files = [] /\ 0 < max /\
     fps_targets <> [] /\ results b' = results b).
Proof.
  unfold benchmark_streams.
  assert (H1 : max <= 0 \/ fps_targets = [] ->
    target_loop w 0 video_files dev max fps_targets b = (Ok tt, b)).
  { intros [Hmax| ->]; [by apply target_loop_no_levels|done]. }
  assert (H2 : video_files = [] -> 0 < max -> forall t ts,
    fps_targets = t :: ts ->
    target_loop w 0 video_files dev max fps_targets b =
      (Raise ZeroDivisionError,
       {| results := results b; trace := trace b ++ [MonitorStarted t 1] |})).
  { intros -> Hmax t ts ->. by apply target_loop_no_specs. }
  split; [done|]. split; [done|]. split.
  - intros Hne. rewrite target_loop_spec by done. eauto.
  - intros e b' Hraise.
    destruct (decide (video_files = [])) as [Hvf|Hvf].
    + destruct (decide (max <= 0)) as [Hmax|Hmax].
      { rewrite H1 in Hraise by auto. discriminate. }
      destruct fps_targets as [|t ts].
      { rewrite H1 in Hraise by auto. discriminate. }
      rewrite (H2 Hvf ltac:(lia) t ts eq_refl) in Hraise.
      inversion Hraise; subst. repeat split; (done || lia).
    + rewrite target_loop_spec in Hraise by done. discriminate.
Qed.

(** ** The shape of a sweep *)

Lemma tested_levels_seqZ (stop : Z -> bool) (m : nat) : forall a len,
  Z.to_nat len = m ->
  exists k, 0 <= k <= Z.max 0 len /\
    tested_levels stop (seqZ a len) = seqZ a k /\
    (forall n, a <= n < a + k - 1 -> stop n = false) /\
    (k < len -> stop (a + k - 1) = true) /\
    (0 < len -> 0 < k).
Proof.
  induction m as [|m IH]; intros a len Hm.
  - exists 0. rewrite !seqZ_nil by lia. repeat split; try done; lia.
  - rewrite seqZ_cons by lia. cbn [tested_levels].
    destruct (stop a) eqn:Ha.
    + exists 1. repeat split; try lia.
      intros _. by replace (a + 1 - 1) with a by lia.
    + destruct (IH (Z.succ a) (Z.pred len)) as (k & Hk & -> & Hbefore & Hlast & Hk0);
        [lia|].
      exists (Z.succ k). split; [lia|]. split.
      { rewrite (seqZ_cons a (Z.succ k)) by lia. by rewrite Z.pred_succ. }
      split; [|split; [|lia]].
      * intros n Hn. destruct (decide (n = a)) as [->|Hna]; [done|].
        apply Hbefore. lia.
      * intros Hlt. replace (a + Z.succ k - 1) with (Z.succ a + k - 1) by lia.
        apply Hlast. lia.
Qed.

Lemma trials_of_app tr1 tr2 :
  trials_of (tr1 ++ tr2) = trials_of tr1 ++ trials_of tr2.
Proof. apply omap_app. Qed.

Lemma trials_of_trial_events video_files fps_target n :
  trials_of (trial_events video_files fps_target n) = [(fps_target, n)].
Proof.
  unfold trial_events, trials_of. cbn [omap list_omap]. f_equal.
  induction (seqZ 0 n) as [|i l IH]; [done|]. apply IH.
Qed.

Lemma trials_of_level_events w pos video_files dev fps_target n :
  trials_of (level_events w pos video_files dev fps_target n)
  = [(fps_target, n)].
Proof.
  unfold level_events. rewrite trials_of_app, trials_of_trial_events.
  by destruct (stops _ _ _ _ _ _).
Qed.

Lemma trials_of_target_events w video_files dev max pos fps_target :
  trials_of (target_events w video_files dev max pos fps_target)
  = (fun n => (fps_target, n))
    <$> sweep_levels w pos video_files dev fps_target max.
Proof.
  unfold target_events.
  induction (sweep_levels _ _ _ _ _ _) as [|n l IH]; [done|].
  rewrite !fmap_cons. change (mjoin (?x :: ?ls)) with (x ++ mjoin ls).
  by rewrite trials_of_app, trials_of_level_events, IH.
Qed.

Lemma trials_of_join {A} (l : list A) : forall f g,
  (forall i x, trials_of (f i x) = g i x) ->
  trials_of (mjoin (imap f l)) = mjoin (imap g l).
Proof.
  induction l as [|x l IH]; intros f g Hfg; [done|].
  rewrite !imap_cons. change (mjoin (?y :: ?ls)) with (y ++ mjoin ls).
  rewrite trials_of_app, Hfg. f_equal.
  apply IH. intros i y. apply Hfg.
Qed.

(** C5: in a sweep the trials run target after target in the given order,
    and for each target at the levels 1, 2, ..., k of concurrency, where no
    level before k meets the early-stop test (successful_count <
    concurrency * 0.5) and, when k is below max_streams, level k meets it.
    So a trial that meets the test is the last one of its target only, and
    the next target begins again from concurrency 1 and runs up to
    max_streams unless it is stopped as well. Four successes at
    concurrency 10 meet the test; five do not. *)
Theorem C5_early_stop_scope w video_files dev max fps_targets b :
  video_files <> [] ->
  let b' := (benchmark_streams w video_files dev max fps_targets b).2 in
  let levels pos t := sweep_levels w pos video_files dev t max in
  trials_of (trace b') =
    trials_of (trace b) ++
    mjoin (imap (fun pos t => (fun n => (t, n)) <$> levels pos t) fps_targets) /\
  (forall pos t, exists k,
     levels pos t = seqZ 1 k /\
     0 <= k <= Z.max 0 max /\
     (1 <= max -> 1 <= k) /\
     (forall n, 1 <= n < k -> stops w pos video_files dev t n = false) /\
     (k < max -> stops w pos video_files dev t k = true)) /\
  degraded_significantly 4 10 = true /\
  degraded_significantly 5 10 = false.
Proof.
  intros Hne b' levels. subst b' levels. cbn beta.
  unfold benchmark_streams. rewrite target_loop_spec by done.
  cbn [snd trace]. split; [|split; [|by vm_compute]].
  - rewrite trials_of_app. f_equal.
    apply trials_of_join. intros i t. apply trials_of_target_events.
  - intros pos t. unfold sweep_levels.
    destruct (tested_levels_seqZ (stops w pos video_files dev t)
                (Z.to_nat max) 1 max eq_refl)
      as (k & Hk & Heq & Hbefore & Hlast & Hk0).
    exists k. split; [done|]. split; [done|]. split; [lia|]. split.
    + intros n Hn. apply Hbefore. lia.
    + intros Hlt. specialize (Hlast Hlt).
      by replace (1 + k - 1) with k in Hlast by lia.
Qed.

Lemma C5_early_stop_scope_witness :
  let b' := (benchmark_streams scenario_B ["a.mp4"] "CPU" 12 [15; 30] fresh).2 in
  let levels pos t := sweep_levels scenario_B pos ["a.mp4"] "CPU" t 12 in
  trials_of (trace b') =
    trials_of (trace fresh) ++
    mjoin (imap (fun pos t => (fun n => (t, n)) <$> levels pos t) [15; 30]) /\
  (forall pos t, exists k,
     levels pos t = seqZ 1 k /\
     0 <= k <= Z.max 0 12 /\
     (1 <= 12 -> 1 <= k) /\
     (forall n, 1 <= n < k -> stops scenario_B pos ["a.mp4"] "CPU" t n = false) /\
     (k < 12 -> stops scenario_B pos ["a.mp4"] "CPU" t k = true)) /\
  degraded_significantly 4 10 = true /\
  degraded_significantly 5 10 = false.
Proof.
  apply (C5_early_stop_scope scenario_B ["a.mp4"] "CPU" 12 [15; 30] fresh).
  discriminate.
Defined.

(** Scenario B, run: the first target stops at concurrency 10, the second
    runs from 1 to 12. *)
Example scenario_B_trials :
  trials_of
    (trace (benchmark_streams scenario_B ["a.mp4"] "CPU" 12 [15; 30] fresh).2)
  = ((fun n => (15, n)) <$> seqZ 1 10) ++ ((fun n => (30, n)) <$> seqZ 1 12).
Proof. by vm_compute. Qed.

(** ** The invariant of the records *)

Lemma achieved_rate_nonneg r : finished_result r -> nonneg (achieved_rate r).
Proof.
  intros Hr. destruct (finished_result_fields r Hr) as (ticks & d & _ & _ & -> & _).
  destruct (0 <? d)%float eqn:Hd; cbn [to_float].
  - by apply nonneg_count_div.
  - apply nonneg_float_of_int.
Qed.

Lemma foldl_add_nonneg (xs : list float) : forall x,
  nonneg x -> Forall nonneg xs -> nonneg (foldl PrimFloat.add x xs).
Proof.
  induction xs as [|y xs IH]; intros x Hx Hxs; [done|].
  apply Forall_cons in Hxs as [Hy Hxs]. simpl.
  apply IH; [by apply nonneg_add|done].
Qed.

Lemma mean_nonneg (xs : list float) :
  0 < len xs < 2 ^ 63 -> Forall nonneg xs -> nonneg (mean xs).
Proof.
  intros Hlen Hxs. unfold mean. apply nonneg_div_count; [done|].
  apply foldl_add_nonneg; [|done]. by vm_compute.
Qed.

Lemma len_successful w pos video_files dev fps_target n :
  0 <= len (successful w pos video_files dev fps_target n) <= Z.max 0 n.
Proof.
  unfold successful, len.
  pose proof (length_filter (fun r => succeeded r)
    (collected w pos video_files dev fps_target n)) as Hf.
  assert (length (collected w pos video_files dev fps_target n) = Z.to_nat n)
    as Hc.
  { rewrite collected_Permutation. unfold launched.
    by rewrite length_fmap, length_seqZ. }
  lia.
Qed.

Lemma trial_record_counts w pos video_files dev fps_target n :
  0 < n ->
  let r := trial_record w pos video_files dev fps_target n in
  0 <= successful_streams r <= num_streams r.
Proof.
  intros Hn. pose proof (len_successful w pos video_files dev fps_target n).
  cbn [successful_streams num_streams trial_record]. lia.
Qed.

Lemma trial_record_nonneg w pos video_files dev fps_target n :
  0 < n < 2 ^ 63 ->
  successful w pos video_files dev fps_target n <> [] ->
  nonneg (total_fps (trial_record w pos video_files dev fps_target n)).
Proof.
  intros Hn Hok. pose proof (len_successful w pos video_files dev fps_target n).
  assert (0 < len (successful w pos video_files dev fps_target n)).
  { unfold len. destruct (successful _ _ _ _ _ _); [done|simpl; lia]. }
  cbn [total_fps trial_record].
  apply nonneg_mul_count; [lia|]. apply mean_nonneg.
  - unfold len in *. rewrite length_fmap. lia.
  - apply Forall_fmap. eapply Forall_impl; [apply successful_finished|].
    intros r Hr. by apply achieved_rate_nonneg.
Qed.

Lemma elem_of_sweep_levels w pos video_files dev fps_target max n :
  n ∈ sweep_levels w pos video_files dev fps_target max -> 1 <= n <= max.
Proof.
  unfold sweep_levels.
  destruct (tested_levels_seqZ (stops w pos video_files dev fps_target)
              (Z.to_nat max) 1 max eq_refl) as (k & Hk & -> & _).
  intros Hn%elem_of_seqZ. lia.
Qed.

(** What holds of every trial record holds of the records of a sweep. *)
Lemma sweep_records_Forall (P : TrialRecord -> Prop) w video_files dev max
    fps_targets :
  (forall pos t n, 1 <= n <= max ->
     successful w pos video_files dev t n <> [] ->
     P (trial_record w pos video_files dev t n)) ->
  Forall P
    (mjoin (imap (fun i => target_records w video_files dev max (0 + i))
              fps_targets)).
Proof.
  intros HP. apply Forall_join, Forall_forall. intros l Hl.
  apply elem_of_lookup_imap_1 in Hl as (i & t & -> & _).
  unfold target_records. apply Forall_join, Forall_fmap.
  apply Forall_forall. intros n Hn%elem_of_sweep_levels.
  unfold recorded. simpl.
  destruct (successful _ _ _ _ _ _) eqn:E; [done|].
  apply Forall_singleton, HP; [done|]. by rewrite E.
Qed.

Lemma target_loop_no_specs_results w dev max fps_targets pos b :
  results (target_loop w pos [] dev max fps_targets b).2 = results b.
Proof.
  destruct (decide (max <= 0)) as [Hmax|Hmax].
  { by rewrite target_loop_no_levels. }
  destruct fps_targets as [|t ts]; [done|].
  by rewrite target_loop_no_specs by lia.
Qed.

(** The aggregate rates of well-formed records are numbers. *)
Lemma well_formed_is_number r : well_formed r -> is_number (total_fps r).
Proof. intros [_ H]. by apply nonneg_is_number. Qed.

(** C8: every record that a sweep appends to the log has
    0 <= successful_streams <= num_streams, each trial counting its
    successes among the num_streams streams it has launched; and its
    total_fps is >= 0 (for max_streams below 2^63, the range in which the
    counts convert to floats as modelled). *)
Theorem C8_record_invariant w video_files dev max fps_targets b :
  exists new,
    results (benchmark_streams w video_files dev max fps_targets b).2
      = results b ++ new /\
    Forall (fun r => 0 <= successful_streams r <= num_streams r) new /\
    (max < 2 ^ 63 ->
     Forall (fun r => (0 <=? total_fps r)%float = true) new /\
     Forall well_formed new).
Proof.
  unfold benchmark_streams.
  destruct (decide (video_files = [])) as [->|Hne].
  - exists []. rewrite target_loop_no_specs_results, app_nil_r. done.
  - rewrite target_loop_spec by done. cbn [snd results].
    eexists. split; [done|]. split; [|intros Hmax; split].
    + apply sweep_records_Forall. intros pos t n Hn _.
      apply trial_record_counts. lia.
    + apply sweep_records_Forall. intros pos t n Hn Hok.
      apply trial_record_nonneg; [lia|done].
    + apply sweep_records_Forall. intros pos t n Hn Hok. split.
      * apply trial_record_counts. lia.
      * apply trial_record_nonneg; [lia|done].
Qed.

Lemma C8_record_invariant_witness :
  exists new,
    results (benchmark_streams scenario_A ["a.mp4"] "CPU" 4 [30] fresh).2
      = results fresh ++ new /\
    Forall (fun r => 0 <= successful_streams r <= num_streams r) new /\
    Forall (fun r => (0 <=? total_fps r)%float = true) new.
Proof.
  destruct (C8_record_invariant scenario_A ["a.mp4"] "CPU" 4 [30] fresh)
    as (new & Hnew & Hcount & Hrate).
  exists new. split; [done|]. split; [done|]. apply Hrate. lia.
Defined.

(** * The analyzer *)

(** ** Sorting *)

Lemma tuple_lt_spec a b :
  tuple_lt a b = true <-> a.1 < b.1 \/ a.1 = b.1 /\ a.2 < b.2.
Proof.
  unfold tuple_lt. destruct (Z.eqb_spec a.1 b.1); rewrite Z.ltb_lt; lia.
Qed.

Lemma key_le_spec a b : key_le a b <-> key_before (sort_key a) (sort_key b).
Proof.
  unfold key_le, key_before. rewrite <- not_true_iff_false, tuple_lt_spec. lia.
Qed.

Lemma key_le_trans a b c : key_le a b -> key_le b c -> key_le a c.
Proof. rewrite !key_le_spec. unfold key_before. lia. Qed.

Lemma key_le_antisym a b : key_le a b -> key_le b a -> sort_key a = sort_key b.
Proof.
  rewrite !key_le_spec. unfold key_before.
  destruct (sort_key a), (sort_key b). simpl. intros. f_equal; lia.
Qed.

Lemma insert_sorted_Permutation x l : insert_sorted x l ≡ₚ x :: l.
Proof.
  induction l as [|y l IH]; [done|]. simpl.
  destruct (tuple_lt _ _); [|done]. rewrite IH. apply Permutation_swap.
Qed.

Lemma sorted_Permutation l : sorted l ≡ₚ l.
Proof.
  induction l as [|x l IH]; [done|]. unfold sorted in *. simpl.
  by rewrite insert_sorted_Permutation, IH.
Qed.

Lemma insert_sorted_StronglySorted x l :
  StronglySorted key_le l -> StronglySorted key_le (insert_sorted x l).
Proof.
  induction 1 as [|y l Hl IH Hy]; simpl.
  - repeat constructor.
  - destruct (tuple_lt (sort_key y) (sort_key x)) eqn:E.
    + constructor; [done|]. rewrite insert_sorted_Permutation.
      constructor; [|done].
      apply key_le_spec. apply tuple_lt_spec in E. unfold key_before. lia.
    + constructor; [by constructor|]. constructor; [done|].
      eapply Forall_impl; [exact Hy|]. intros z Hz.
      by apply key_le_trans with y.
Qed.

Lemma sorted_StronglySorted l : StronglySorted key_le (sorted l).
Proof.
  induction l as [|x l IH]; [constructor|].
  by apply insert_sorted_StronglySorted.
Qed.

Lemma insert_sorted_filter k x l :
  filter (fun r => sort_key r = k) (insert_sorted x l)
  = filter (fun r => sort_key r = k) (x :: l).
Proof.
  induction l as [|y l IH]; [done|]. simpl.
  destruct (tuple_lt (sort_key y) (sort_key x)) eqn:E; [|done].
  apply tuple_lt_spec in E.
  rewrite (filter_cons _ y), IH, !(filter_cons _ x), (filter_cons _ y).
  repeat case_decide; try done.
  exfalso. destruct (sort_key y), (sort_key x). simplify_eq/=. lia.
Qed.

Lemma sorted_stable l : stable_sort_of (sorted l) l.
Proof.
  split; [apply sorted_StronglySorted|]. intros k.
  induction l as [|x l IH]; [done|].
  change (sorted (x :: l)) with (insert_sorted x (sorted l)).
  by rewrite insert_sorted_filter, !filter_cons, IH.
Qed.

Lemma StronglySorted_lookup_lt {A} (R : relation A) (l : list A) :
  StronglySorted R l ->
  forall (i j : nat) a b, (i < j)%nat ->
    l !! i = Some a -> l !! j = Some b -> R a b.
Proof.
  induction 1 as [|x l Hl IH Hx]; intros i j a b Hij Ha Hb; [done|].
  destruct j as [|j]; [lia|]. destruct i as [|i].
  - simplify_eq/=. rewrite Forall_forall in Hx.
    apply Hx. by eapply list_elem_of_lookup_2.
  - apply (IH i j); [lia|done..].
Qed.

(** There is one stable sort of a list only: [sorted] is Python's. *)
Lemma stable_sort_unique l1 : forall l2,
  StronglySorted key_le l1 -> StronglySorted key_le l2 ->
  (forall k, filter (fun r => sort_key r = k) l1
             = filter (fun r => sort_key r = k) l2) ->
  l1 = l2.
Proof.
  induction l1 as [|x l1 IH]; intros l2 H1 H2 Hf.
  - destruct l2 as [|y l2]; [done|].
    specialize (Hf (sort_key y)). rewrite filter_cons in Hf.
    by case_decide.
  - destruct l2 as [|y l2].
    { specialize (Hf (sort_key x)). rewrite filter_cons in Hf.
      by case_decide. }
    apply StronglySorted_inv in H1 as [H1 Hx].
    apply StronglySorted_inv in H2 as [H2 Hy].
    assert (key_le y x) as Hyx.
    { assert (x ∈ y :: l2) as Hin.
      { eapply (list_elem_of_filter (fun r => sort_key r = sort_key x)).
        rewrite <- Hf, filter_cons. case_decide; [|done]. left. }
      apply elem_of_cons in Hin as [->|Hin].
      - apply key_le_spec. unfold key_before. lia.
      - rewrite Forall_forall in Hy. by apply Hy. }
    assert (key_le x y) as Hxy.
    { assert (y ∈ x :: l1) as Hin.
      { eapply (list_elem_of_filter (fun r => sort_key r = sort_key y)).
        rewrite Hf, filter_cons. case_decide; [|done]. left. }
      apply elem_of_cons in Hin as [->|Hin].
      - apply key_le_spec. unfold key_before. lia.
      - rewrite Forall_forall in Hx. by apply Hx. }
    pose proof (key_le_antisym x y Hxy Hyx) as Hk.
    assert (x = y) as ->.
    { specialize (Hf (sort_key x)). rewrite !filter_cons in Hf.
      rewrite <- Hk in Hf. repeat case_decide; try done. by simplify_eq. }
    f_equal. apply IH; [done..|]. intros k.
    specialize (Hf k). rewrite !filter_cons in Hf.
    case_decide; by simplify_eq.
Qed.

Lemma sorted_unique l l' : stable_sort_of l' l -> l' = sorted l.
Proof.
  intros [Hs Hf]. apply stable_sort_unique; [done|apply sorted_StronglySorted|].
  intros k. rewrite Hf. symmetry. apply sorted_stable.
Qed.

(** ** The reports *)

Lemma find_optimal_configuration_lookup results dev :
  results <> [] ->
  exists analysis,
    find_optimal_configuration results = Some analysis /\
    analysis !! dev =
      if decide (dev = "CPU" \/ dev = "GPU")
      then match results_of dev results with
           | [] => None
           | first :: rest => Some (analyze first rest)
           end
      else None.
Proof.
  intros Hne. destruct results as [|r0 results]; [done|].
  eexists. split; [done|]. cbn [foldl].
  generalize (r0 :: results). intros l.
  case_decide as Hdev.
  - destruct Hdev as [-> | ->].
    + destruct (results_of "CPU" l), (results_of "GPU" l); by simplify_map_eq.
    + destruct (results_of "CPU" l), (results_of "GPU" l); by simplify_map_eq.
  - destruct (results_of "CPU" l), (results_of "GPU" l);
      simplify_map_eq; try done;
      rewrite ?lookup_insert_ne by (intros ->; tauto); done.
Qed.

(** C7: for every log and every device without a record in it, the
    analysis holds no report for that device; on a log with records of the
    GPU only, the report of the CPU is absent and that of the GPU is
    there; on the empty log the analysis is None. *)
Theorem C7_no_report_without_records :
  (forall results dev analysis,
     results_of dev results = [] ->
     find_optimal_configuration results = Some analysis ->
     analysis !! dev = None) /\
  (exists analysis,
     find_optimal_configuration scenario_D = Some analysis /\
     analysis !! "CPU" = None /\ is_Some (analysis !! "GPU")) /\
  find_optimal_configuration [] = None.
Proof.
  split; [|split; [|done]].
  - intros results dev analysis Hnone Hsome.
    destruct (decide (results = [])) as [->|Hne]; [done|].
    destruct (find_optimal_configuration_lookup results dev Hne)
      as (analysis' & Hsome' & Hlookup).
    rewrite Hsome in Hsome'. simplify_eq.
    rewrite Hlookup, Hnone. by case_decide.
  - eexists. split; [done|]. split; [by vm_compute|].
    eexists. by vm_compute.
Qed.

Lemma C7_no_report_without_records_witness :
  match find_optimal_configuration scenario_D with
  | Some analysis => analysis !! "CPU" = None
  | None => False
  end.
Proof.
  destruct (find_optimal_configuration scenario_D) as [analysis|] eqn:E.
  - apply (proj1 C7_no_report_without_records scenario_D "CPU" analysis).
    + reflexivity.
    + exact E.
  - discriminate.
Defined.

(** ** The onset of degradation *)

Lemma drops_spec prev curr : drops prev curr = true <-> degraded_pair prev curr.
Proof.
  unfold drops, degraded_pair. rewrite andb_true_iff, Z.eqb_eq. tauto.
Qed.

Lemma drops_false prev curr :
  drops prev curr = false <-> ~ degraded_pair prev curr.
Proof. by rewrite <- drops_spec, not_true_iff_false. Qed.

(** The loop returns the concurrency of the first record of the first
    degraded pair. *)
Lemma find_bottleneck_first rest : forall prev (i : nat) p c default,
  (prev :: rest) !! i = Some p -> (prev :: rest) !! S i = Some c ->
  degraded_pair p c ->
  (forall (j : nat) p' c', (j < i)%nat ->
     (prev :: rest) !! j = Some p' -> (prev :: rest) !! S j = Some c' ->
     ~ degraded_pair p' c') ->
  find_bottleneck prev rest default = num_streams p.
Proof.
  induction rest as [|curr rest IH]; intros prev i p c default Hp Hc Hd Hbefore.
  - destruct i; simplify_eq/=.
  - cbn [find_bottleneck]. destruct i as [|i].
    + simplify_eq/=. apply drops_spec in Hd. by rewrite Hd.
    + assert (drops prev curr = false) as ->.
      { apply drops_false. apply (Hbefore 0%nat); [lia|done..]. }
      apply (IH curr i p c); [done..|].
      intros j p' c' Hj Hp' Hc'. apply (Hbefore (S j)); [lia|done..].
Qed.

Lemma find_bottleneck_none rest : forall prev default,
  (forall (j : nat) p c,
     (prev :: rest) !! j = Some p -> (prev :: rest) !! S j = Some c ->
     ~ degraded_pair p c) ->
  find_bottleneck prev rest default = default.
Proof.
  induction rest as [|curr rest IH]; intros prev default Hnone; [done|].
  cbn [find_bottleneck].
  assert (drops prev curr = false) as ->.
  { apply drops_false. by apply (Hnone 0%nat). }
  apply IH. intros j p c Hp Hc. by apply (Hnone (S j)).
Qed.

(** [max] of ints is among them and is their upper bound. *)
Lemma py_max_Z (rest : list Z) : forall first,
  py_max Z.ltb first rest ∈ first :: rest /\
  forall x, x ∈ first :: rest -> x <= py_max Z.ltb first rest.
Proof.
  unfold py_max.
  induction rest as [|y rest IH]; intros first.
  - split; [left|]. intros x Hx%list_elem_of_singleton. subst. simpl. lia.
  - cbn [foldl].
    destruct (IH (if first <? y then y else first)) as [Hin Hmax].
    split.
    + apply elem_of_cons in Hin as [Hin|Hin]; [|by do 2 right].
      rewrite Hin. destruct (first <? y); [right|]; left.
    + intros x Hx.
      assert (x <= (if first <? y then y else first) \/ x ∈ rest) as [Hle|Hx'].
      { apply elem_of_cons in Hx as [->|Hx].
        - left. destruct (Z.ltb_spec first y); lia.
        - apply elem_of_cons in Hx as [->|Hx]; [|by right].
          left. destruct (Z.ltb_spec first y); lia. }
      * etrans; [exact Hle|]. apply Hmax. left.
      * apply Hmax. by right.
Qed.

(** C2: the report of a device with records has, as its onset of
    degradation, the concurrency of the first record of the first adjacent
    pair of one target rate, in the records sorted by (target rate,
    concurrency), whose second per-stream rate is below 0.8 times the
    first; without such a pair it has the greatest concurrency tested.
    The sort is stable and ascending. Concurrency 1, 2, 4, 8 with 30, 29,
    28, 15 per stream at one target rate gives the onset 4. *)
Theorem C2_degradation_onset :
  (forall results dev first rest,
     dev = "CPU" \/ dev = "GPU" ->
     results_of dev results = first :: rest ->
     exists analysis report,
       find_optimal_configuration results = Some analysis /\
       analysis !! dev = Some report /\
       let s := sorted (first :: rest) in
       s ≡ₚ first :: rest /\
       stable_sort_of s (first :: rest) /\
       (forall (i j : nat) a b, (i <= j)%nat -> s !! i = Some a ->
          s !! j = Some b -> key_before (sort_key a) (sort_key b)) /\
       (exists r, r ∈ first :: rest /\ num_streams r = max_streams report) /\
       (forall r, r ∈ first :: rest -> num_streams r <= max_streams report) /\
       (forall (i : nat) prev curr,
          s !! i = Some prev -> s !! S i = Some curr ->
          degraded_pair prev curr ->
          (forall (j : nat) p c, (j < i)%nat ->
             s !! j = Some p -> s !! S j = Some c -> ~ degraded_pair p c) ->
          bottleneck_at_streams report = num_streams prev) /\
       ((forall (j : nat) p c,
           s !! j = Some p -> s !! S j = Some c -> ~ degraded_pair p c) ->
        bottleneck_at_streams report = max_streams report)) /\
  (exists analysis report,
     find_optimal_configuration scenario_C = Some analysis /\
     analysis !! "CPU" = Some report /\
     num_streams <$> sorted scenario_C = [1; 2; 4; 8] /\
     avg_fps_per_stream <$> sorted scenario_C = [30; 29; 28; 15]%float /\
     bottleneck_at_streams report = 4).
Proof.
  split.
  - intros results dev first rest Hdev Hpart.
    assert (results <> []) as Hne.
    { intros ->. discriminate. }
    destruct (find_optimal_configuration_lookup results dev Hne)
      as (analysis & Hsome & Hlookup).
    rewrite decide_True, Hpart in Hlookup by done.
    exists analysis, (analyze first rest).
    split; [done|]. split; [done|]. cbn zeta.
    pose proof (sorted_Permutation (first :: rest)) as Hperm.
    pose proof (sorted_stable (first :: rest)) as Hstable.
    split; [done|]. split; [done|]. split.
    { intros i j a b Hij Ha Hb. apply key_le_spec.
      destruct (decide (i = j)) as [->|Hneq].
      - simplify_eq. apply key_le_spec. unfold key_before. lia.
      - destruct Hstable as [Hs _].
        apply (StronglySorted_lookup_lt key_le _ Hs i j a b); [lia|done..]. }
    pose proof (py_max_Z (num_streams <$> rest) (num_streams first))
      as [Hin Hmax].
    change (num_streams first :: (num_streams <$> rest))
      with (num_streams <$> first :: rest) in *.
    split.
    { apply list_elem_of_fmap in Hin as (r & Hr & Hin). by exists r. }
    split.
    { intros r Hr. apply Hmax. by apply list_elem_of_fmap_2. }
    unfold analyze. cbn [bottleneck_at_streams max_streams].
    destruct (sorted (first :: rest)) as [|r0 rs] eqn:Es.
    { by apply Permutation_nil_cons in Hperm. }
    split.
    + intros i prev curr Hp Hc Hd Hbefore.
      by apply (find_bottleneck_first rs r0 i prev curr).
    + intros Hnone. by apply find_bottleneck_none.
  - eexists _, _. split; [done|]. split; [by vm_compute|].
    by vm_compute.
Qed.

Lemma C2_degradation_onset_witness :
  exists analysis report,
    find_optimal_configuration scenario_C = Some analysis /\
    analysis !! "CPU" = Some report /\
    bottleneck_at_streams report = 4.
Proof.
  destruct (proj1 C2_degradation_onset scenario_C "CPU"
              (record_of "CPU" 30 8 15)
              [record_of "CPU" 30 1 30; record_of "CPU" 30 4 28;
               record_of "CPU" 30 2 29])
    as (analysis & report & Hsome & Hlookup & _ & _ & _ & _ & _ & Hfirst & _).
  - by left.
  - reflexivity.
  - exists analysis, report. split; [done|]. split; [done|].
    apply (Hfirst 2%nat (record_of "CPU" 30 4 28) (record_of "CPU" 30 8 15)).
    + reflexivity.
    + reflexivity.
    + split; [done|]. by vm_compute.
    + intros j p c Hj Hp Hc [_ Hd].
      destruct j as [|[|j]]; [| |lia];
        vm_compute in Hp, Hc; simplify_eq; by vm_compute in Hd.
Defined.

(** ** The best trial *)

Lemma ltb_leb x y : (x <? y)%float = true -> (x <=? y)%float = true.
Proof.
  rewrite ltb_key, leb_key. intros (a & b & Ha & Hb & Hlt). eauto 10.
Qed.

(** [max(results, key=total_fps)] is the first of the records whose
    aggregate rate is the greatest, in the order of the list itself. *)
Lemma py_max_first_maximum (rest : list TrialRecord) : forall first,
  Forall (fun r => is_number (total_fps r)) (first :: rest) ->
  first_maximum (first :: rest)
    (py_max (fun a b => (total_fps a <? total_fps b)%float) first rest).
Proof.
  unfold py_max.
  induction rest as [|x rest IH] using rev_ind; intros first Hnum.
  - exists 0%nat. split; [done|]. split.
    + intros x Hx%list_elem_of_singleton. subst. simpl.
      apply leb_refl. by apply Forall_cons in Hnum as [? _].
    + intros j x Hj. lia.
  - rewrite foldl_snoc.
    assert (Forall (fun r => is_number (total_fps r)) (first :: rest)
            /\ is_number (total_fps x)) as [Hnum' Hx].
    { rewrite app_comm_cons, Forall_app, Forall_singleton in Hnum. done. }
    destruct (IH first Hnum') as (i & Hi & Hmax & Hbefore).
    set (best := foldl _ first rest) in *.
    assert (is_number (total_fps best)) as Hbest.
    { rewrite Forall_forall in Hnum'. apply Hnum'.
      by eapply list_elem_of_lookup_2. }
    rewrite app_comm_cons.
    destruct (total_fps best <? total_fps x)%float eqn:Hlt.
    + exists (length (first :: rest)). split.
      { by rewrite list_lookup_middle. }
      split.
      * intros y Hy. apply elem_of_app in Hy as [Hy|Hy%list_elem_of_singleton].
        -- apply ltb_leb. eapply leb_ltb_trans; [by apply Hmax|done].
        -- subst. by apply leb_refl.
      * intros j y Hj Hy. rewrite lookup_app_l in Hy by done.
        eapply leb_ltb_trans; [|exact Hlt].
        apply Hmax. by eapply list_elem_of_lookup_2.
    + exists i. split.
      { apply lookup_app_l_Some. done. }
      split.
      * intros y Hy. apply elem_of_app in Hy as [Hy|Hy%list_elem_of_singleton].
        -- by apply Hmax.
        -- subst. by apply not_ltb_leb.
      * intros j y Hj Hy. apply (Hbefore j y Hj).
        rewrite lookup_app_l in Hy; [done|].
        apply lookup_lt_Some in Hi. lia.
Qed.

(** C3, as the specification states it, fails: of two records of the same
    aggregate rate the report keeps the one logged first, although the
    other one comes first in the order sorted by (target rate,
    concurrency). *)
Lemma C3_counterexample :
  exists analysis report,
    find_optimal_configuration tied = Some analysis /\
    analysis !! "CPU" = Some report /\
    best_config report = record_of "CPU" 30 1 42 /\
    sorted (results_of "CPU" tied)
      = [record_of "CPU" 15 1 42; record_of "CPU" 30 1 42] /\
    ~ first_maximum (sorted (results_of "CPU" tied)) (best_config report).
Proof.
  eexists _, _. split; [done|]. split; [by vm_compute|].
  split; [by vm_compute|]. split; [by vm_compute|].
  intros (i & Hi & _ & Hbefore).
  destruct i as [|[|i]]; vm_compute in Hi; simplify_eq.
  specialize (Hbefore 0%nat (record_of "CPU" 15 1 42)).
  vm_compute in Hbefore. specialize (Hbefore ltac:(lia) eq_refl).
  discriminate.
Qed.

(** C3, amended: the best trial of a device with records is a record of
    the greatest aggregate rate, and among several of that rate it is the
    one that comes first in the log, in the order in which the records
    were appended (not in the sorted order); this for aggregate rates that
    are numbers, as those of the harness are. *)
Theorem C3_best_trial_first_in_log results dev first rest :
  dev = "CPU" \/ dev = "GPU" ->
  results_of dev results = first :: rest ->
  Forall (fun r => is_number (total_fps r)) (first :: rest) ->
  exists analysis report,
    find_optimal_configuration results = Some analysis /\
    analysis !! dev = Some report /\
    first_maximum (results_of dev results) (best_config report).
Proof.
  intros Hdev Hpart Hnum.
  assert (results <> []) as Hne.
  { intros ->. discriminate. }
  destruct (find_optimal_configuration_lookup results dev Hne)
    as (analysis & Hsome & Hlookup).
  rewrite decide_True, Hpart in Hlookup by done.
  exists analysis, (analyze first rest).
  split; [done|]. split; [done|]. rewrite Hpart.
  by apply py_max_first_maximum.
Qed.

Lemma C3_best_trial_first_in_log_witness :
  exists analysis report,
    find_optimal_configuration tied = Some analysis /\
    analysis !! "CPU" = Some report /\
    first_maximum (results_of "CPU" tied) (best_config report).
Proof.
  apply (C3_best_trial_first_in_log tied "CPU"
           (record_of "CPU" 30 1 42) [record_of "CPU" 15 1 42]).
  - by left.
  - reflexivity.
  - repeat constructor.
Defined.

(** * Beyond the claims: the stream processor and the harness *)

(** X1: a stream that runs to its end reports as many frames as its loop
    made iterations, one detection for every ten frames
    (frames_processed // 10), and the duration and the target it was given;
    the loop, started from any counts, adds the iterations to the frames
    and the multiples of ten it passes to the detections. *)
Theorem X1_frames_and_detections device ticks elapsed stream_id fps_target :
  let r :=
    run_single_stream device (Finished ticks elapsed) stream_id fps_target in
  (exists frames,
     frames = Z.of_nat ticks /\
     r !! "frames_processed" = Some (VInt frames) /\
     r !! "detections" = Some (VInt (frames / 10)) /\
     0 <= 10 * (frames / 10) <= frames) /\
  r !! "duration" = Some (VFloat elapsed) /\
  r !! "target_fps" = Some (VInt fps_target) /\
  (forall frame_count detection_count,
     frame_loop ticks frame_count detection_count =
       (frame_count + Z.of_nat ticks,
        detection_count
        + ((frame_count + Z.of_nat ticks) / 10 - frame_count / 10))).
Proof.
  intros r. subst r. rewrite !run_single_stream_finished. simpl.
  split; [|split; [done|split; [done|]]].
  - exists (Z.of_nat ticks). repeat split; try done.
    + apply Z.mul_nonneg_nonneg; [lia|]. apply Z.div_pos; lia.
    + apply Z.mul_div_le. lia.
  - intros f d. apply frame_loop_spec.
Qed.

Lemma submissions_of_app tr1 tr2 :
  submissions_of (tr1 ++ tr2) = submissions_of tr1 ++ submissions_of tr2.
Proof. apply omap_app. Qed.

Lemma submissions_of_submitted fps n (f : Z -> string) (l : list Z) :
  submissions_of ((fun i => Submitted fps n i (f i)) <$> l)
  = (fun i => (i, f i)) <$> l.
Proof.
  induction l as [|i l IH]; [done|].
  rewrite !fmap_cons. cbn [submissions_of omap list_omap]. f_equal. exact IH.
Qed.

Lemma zip_with_image {A B} (f : A -> B) (l : list A) :
  zip l (f <$> l) = (fun i => (i, f i)) <$> l.
Proof.
  induction l as [|x l IH]; [done|].
  rewrite !fmap_cons. cbn [zip zip_with]. f_equal. exact IH.
Qed.

Lemma stream_id_inj : Inj (=) (=) (fun i : Z => "stream_" +:+ pretty i).
Proof.
  intros i j Hij. apply (inj pretty). by apply (inj (String.append "stream_")).
Qed.

(** X2: for a list of workload specs that is not empty, the loop that
    submits the streams of a trial does not raise and leaves the log as it
    was; it submits exactly num_streams streams, in the order of their
    indices 0, 1, ..., stream i on the spec at index i mod len(video_files),
    and future i is the result of the stream named stream_i on the given
    device, so that the stream ids of a trial are pairwise distinct. *)
Theorem X2_round_robin_launch w pos video_files dev fps_target n b :
  video_files <> [] ->
  exists futures b',
    submit_streams w pos video_files dev fps_target n (seqZ 0 n) b
      = (Ok futures, b') /\
    results b' = results b /\
    length futures = Z.to_nat n /\
    (exists files,
       submissions_of (trace b')
         = submissions_of (trace b) ++ zip (seqZ 0 n) files /\
       length files = Z.to_nat n /\
       forall (i : nat) v, files !! i = Some v ->
         video_files !! (i `mod` length video_files)%nat = Some v) /\
    (forall (i : nat) r, futures !! i = Some r ->
       stream_result r /\
       r !! "stream_id" = Some (VStr ("stream_" +:+ pretty (Z.of_nat i))) /\
       r !! "device" = Some (VStr dev)) /\
    NoDup ((fun r => r !! "stream_id") <$> futures).
Proof.
  intros Hne. rewrite submit_streams_spec by done.
  eexists _, _. split; [done|]. cbn [results trace].
  split; [done|]. split; [by rewrite length_fmap, length_seqZ|].
  split; [|split].
  - exists (video_of video_files <$> seqZ 0 n).
    rewrite submissions_of_app, submissions_of_submitted.
    split; [|split].
    + by rewrite zip_with_image.
    + by rewrite length_fmap, length_seqZ.
    + intros i v Hv. apply list_lookup_fmap_Some in Hv as (z & -> & Hz).
      apply lookup_seqZ in Hz as [-> Hi].
      rewrite <- (video_of_lookup video_files (0 + Z.of_nat i)) by done.
      f_equal. unfold len. rewrite Z.add_0_l, <- Nat2Z.inj_mod. lia.
  - intros i r Hr. apply list_lookup_fmap_Some in Hr as (z & -> & Hz).
    apply lookup_seqZ in Hz as [-> Hi]. rewrite Z.add_0_l.
    split; [by eexists _, _, _, _|].
    destruct (workload w pos n (Z.of_nat i) _);
      by rewrite ?run_single_stream_finished, ?run_single_stream_failed.
  - rewrite <- list_fmap_compose.
    apply NoDup_fmap_2_strong; [|apply NoDup_seqZ].
    intros i j _ _ Hij. simpl in Hij.
    assert (forall (k : Z) o,
      run_single_stream dev o ("stream_" +:+ pretty k) fps_target !! "stream_id"
      = Some (VStr ("stream_" +:+ pretty k))) as Hid.
    { intros k [ticks d|msg];
        by rewrite ?run_single_stream_finished, ?run_single_stream_failed. }
    rewrite !Hid in Hij. apply stream_id_inj. by simplify_eq.
Qed.

Lemma X2_round_robin_launch_witness :
  exists futures b',
    submit_streams scenario_A 0 ["a.mp4"; "b.mp4"] "CPU" 30 3 (seqZ 0 3) fresh
      = (Ok futures, b') /\
    results b' = results fresh /\
    length futures = Z.to_nat 3 /\
    (exists files,
       submissions_of (trace b')
         = submissions_of (trace fresh) ++ zip (seqZ 0 3) files /\
       length files = Z.to_nat 3 /\
       forall (i : nat) v, files !! i = Some v ->
         ["a.mp4"; "b.mp4"] !! (i `mod` length ["a.mp4"; "b.mp4"])%nat
         = Some v) /\
    (forall (i : nat) r, futures !! i = Some r ->
       stream_result r /\
       r !! "stream_id" = Some (VStr ("stream_" +:+ pretty (Z.of_nat i))) /\
       r !! "device" = Some (VStr "CPU")) /\
    NoDup ((fun r => r !! "stream_id") <$> futures).
Proof.
  apply (X2_round_robin_launch scenario_A 0%nat ["a.mp4"; "b.mp4"] "CPU" 30 3
           fresh).
  discriminate.
Defined.

(** ** What does not depend on the order of completion *)

Section completion_order.
Context (w w' : World) (video_files : list string) (dev : string).
Hypothesis same_workload :
  forall pos n i v, workload w pos n i v = workload w' pos n i v.

Lemma launched_same pos fps_target n :
  launched w pos video_files dev fps_target n
  = launched w' pos video_files dev fps_target n.
Proof.
  unfold launched. apply list_fmap_ext. intros _ i _.
  by rewrite same_workload.
Qed.

Lemma successful_same pos fps_target n :
  successful w pos video_files dev fps_target n
  ≡ₚ successful w' pos video_files dev fps_target n.
Proof.
  unfold successful. apply filter_Permutation.
  by rewrite !collected_Permutation, launched_same.
Qed.

Lemma stops_same pos fps_target n :
  stops w pos video_files dev fps_target n
  = stops w' pos video_files dev fps_target n.
Proof. unfold stops, len. by rewrite successful_same. Qed.

Lemma tested_levels_ext (f g : Z -> bool) (levels : list Z) :
  (forall n, f n = g n) -> tested_levels f levels = tested_levels g levels.
Proof.
  intros Hfg. induction levels as [|n l IH]; [done|].
  simpl. by rewrite Hfg, IH.
Qed.

Lemma sweep_levels_same pos fps_target max :
  sweep_levels w pos video_files dev fps_target max
  = sweep_levels w' pos video_files dev fps_target max.
Proof. apply tested_levels_ext. intros n. apply stops_same. Qed.

Lemma sum_Permutation (l1 l2 : list Z) :
  l1 ≡ₚ l2 -> foldr Z.add 0 l1 = foldr Z.add 0 l2.
Proof. induction 1; simpl; lia. Qed.

Lemma recorded_same_counts pos fps_target n :
  counts_of <$> recorded w pos video_files dev fps_target n
  = counts_of <$> recorded w' pos video_files dev fps_target n.
Proof.
  unfold recorded.
  pose proof (successful_same pos fps_target n) as Hperm.
  destruct (successful w pos video_files dev fps_target n) as [|r l] eqn:E,
    (successful w' pos video_files dev fps_target n) as [|r' l'] eqn:E';
    try done.
  - by apply Permutation_nil_cons in Hperm.
  - symmetry in Hperm. by apply Permutation_nil_cons in Hperm.
  - simpl. unfold counts_of, trial_record. simpl. rewrite E, E'.
    unfold len. rewrite (Permutation_length Hperm).
    by rewrite (sum_Permutation _ _
                  (fmap_Permutation events_detected _ _ Hperm)).
Qed.

Lemma target_same max pos fps_target :
  target_events w video_files dev max pos fps_target
  = target_events w' video_files dev max pos fps_target /\
  counts_of <$> target_records w video_files dev max pos fps_target
  = counts_of <$> target_records w' video_files dev max pos fps_target.
Proof.
  unfold target_events, target_records. rewrite sweep_levels_same.
  induction (sweep_levels w' pos video_files dev fps_target max)
    as [|n l [IH1 IH2]]; [done|].
  rewrite !fmap_cons.
  change (mjoin (?x :: ?ls)) with (x ++ mjoin ls).
  rewrite !fmap_app, IH1, IH2, recorded_same_counts.
  unfold level_events. by rewrite stops_same.
Qed.
End completion_order.

Lemma fmap_join_imap {A B C} (f : B -> C) (g g' : nat -> A -> list B)
    (l : list A) :
  (forall i x, f <$> g i x = f <$> g' i x) ->
  f <$> mjoin (imap g l) = f <$> mjoin (imap g' l).
Proof.
  revert g g'. induction l as [|x l IH]; intros g g' Hg; [done|].
  rewrite !imap_cons. change (mjoin (?y :: ?ls)) with (y ++ mjoin ls).
  rewrite !fmap_app, Hg. f_equal. apply IH. intros i y. apply Hg.
Qed.

(** X3: two runs of a sweep that meet the same fates of the streams, and
    differ in the order in which the streams complete or in the clock only,
    run the same trials and submit the same streams (their traces are
    equal), and log records that agree in device, num_streams, target_fps,
    successful_streams and total_detections. (The rates are float sums in
    the order of completion, and are not covered.) *)
Theorem X3_counts_independent_of_completion w w' video_files dev max
    fps_targets b :
  video_files <> [] ->
  (forall pos n i v, workload w pos n i v = workload w' pos n i v) ->
  let b1 := (benchmark_streams w video_files dev max fps_targets b).2 in
  let b2 := (benchmark_streams w' video_files dev max fps_targets b).2 in
  trace b1 = trace b2 /\
  counts_of <$> results b1 = counts_of <$> results b2.
Proof.
  intros Hne Hsame b1 b2. subst b1 b2. unfold benchmark_streams.
  rewrite !target_loop_spec by done. cbn [snd trace results]. split.
  - f_equal. f_equal. apply imap_ext. intros i t _.
    by apply target_same.
  - rewrite !fmap_app. f_equal. apply fmap_join_imap. intros i t.
    by apply target_same.
Qed.

Lemma X3_counts_independent_of_completion_witness :
  let w' := {| workload := workload scenario_A;
               completion := fun _ _ k => k;
               now := fun _ _ => "2024-06-30T12:00:00" |} in
  let b1 := (benchmark_streams scenario_A ["a.mp4"] "CPU" 4 [30] fresh).2 in
  let b2 := (benchmark_streams w' ["a.mp4"] "CPU" 4 [30] fresh).2 in
  trace b1 = trace b2 /\
  counts_of <$> results b1 = counts_of <$> results b2.
Proof.
  apply (X3_counts_independent_of_completion scenario_A
           {| workload := workload scenario_A;
              completion := fun _ _ k => k;
              now := fun _ _ => "2024-06-30T12:00:00" |}
           ["a.mp4"] "CPU" 4 [30] fresh).
  - discriminate.
  - reflexivity.
Defined.

(** ** Where the records of a sweep come from *)

Lemma sweep_records_from (P : Z -> TrialRecord -> Prop) w video_files dev max
    fps_targets :
  (forall pos t n, t ∈ fps_targets -> 1 <= n <= max ->
     successful w pos video_files dev t n <> [] ->
     P t (trial_record w pos video_files dev t n)) ->
  Forall (fun r => exists t, t ∈ fps_targets /\ P t r)
    (mjoin (imap (fun i => target_records w video_files dev max (0 + i))
              fps_targets)).
Proof.
  intros HP. apply Forall_join, Forall_forall. intros l Hl.
  apply elem_of_lookup_imap_1 in Hl as (i & t & -> & Ht).
  apply list_elem_of_lookup_2 in Ht.
  unfold target_records. apply Forall_join, Forall_fmap.
  apply Forall_forall. intros n Hn%elem_of_sweep_levels.
  unfold recorded. simpl.
  destruct (successful _ _ _ _ _ _) eqn:E; [done|].
  apply Forall_singleton. exists t. split; [done|].
  apply HP; [done..|]. by rewrite E.
Qed.

Lemma length_recorded w pos video_files dev fps_target n :
  (length (recorded w pos video_files dev fps_target n) <= 1)%nat.
Proof. unfold recorded. destruct (successful _ _ _ _ _ _); simpl; lia. Qed.

Lemma length_join_le {A} (ls : list (list A)) (k : nat) :
  Forall (fun l => (length l <= k)%nat) ls ->
  (length (mjoin ls) <= length ls * k)%nat.
Proof.
  induction 1 as [|l ls Hl _ IH]; [done|].
  change (mjoin (l :: ls)) with (l ++ mjoin ls).
  rewrite length_app. simpl. lia.
Qed.

Lemma length_target_records w video_files dev max pos fps_target :
  (length (target_records w video_files dev max pos fps_target)
   <= Z.to_nat max)%nat.
Proof.
  unfold target_records.
  pose proof (length_join_le
    (recorded w pos video_files dev fps_target
     <$> sweep_levels w pos video_files dev fps_target max) 1) as Hle.
  rewrite length_fmap in Hle.
  assert (length (sweep_levels w pos video_files dev fps_target max)
          <= Z.to_nat max)%nat as Hlev.
  { unfold sweep_levels.
    destruct (tested_levels_seqZ (stops w pos video_files dev fps_target)
                (Z.to_nat max) 1 max eq_refl) as (k & Hk & -> & _).
    rewrite length_seqZ. lia. }
  etrans; [apply Hle|lia].
  apply Forall_fmap, Forall_forall. intros n _. apply length_recorded.
Qed.

(** X4: a sweep only appends to the log, and every record it appends names
    the device of the sweep, one of its target rates and a concurrency from
    1 to max_streams, with at least one and at most num_streams successful
    streams: a trial without a success leaves no record. A sweep appends at
    most len(fps_targets) * max_streams records. *)
Theorem X4_records_of_a_sweep w video_files dev max fps_targets b :
  exists new,
    results (benchmark_streams w video_files dev max fps_targets b).2
      = results b ++ new /\
    Forall (from_sweep dev max fps_targets) new /\
    (length new <= length fps_targets * Z.to_nat max)%nat.
Proof.
  unfold benchmark_streams.
  destruct (decide (video_files = [])) as [->|Hne].
  - exists []. rewrite target_loop_no_specs_results, app_nil_r.
    split; [done|]. split; [done|]. simpl. lia.
  - rewrite target_loop_spec by done. cbn [snd results].
    eexists. split; [done|]. split.
    + eapply Forall_impl.
      * apply (sweep_records_from
          (fun t r => device r = dev /\ target_fps r = t /\
                      1 <= successful_streams r <= num_streams r /\
                      num_streams r <= max)).
        intros pos t n Ht Hn Hok.
        pose proof (len_successful w pos video_files dev t n).
        assert (0 < len (successful w pos video_files dev t n)).
        { unfold len. destruct (successful _ _ _ _ _ _); [done|simpl; lia]. }
        cbn [device target_fps successful_streams num_streams trial_record].
        repeat split; try done; lia.
      * intros r (t & Ht & Hdev & Htarget & Hcount & Hmax).
        unfold from_sweep. rewrite Htarget. done.
    + etrans; [apply (length_join_le _ (Z.to_nat max))|].
      * apply Forall_forall. intros l Hl.
        apply elem_of_lookup_imap_1 in Hl as (i & t & -> & _).
        apply length_target_records.
      * by rewrite length_imap.
Qed.

(** * Beyond the claims: the analyzer *)

(** X5: the analysis is None for the empty log only; otherwise it is a
    dict that holds a report for CPU or GPU exactly when the log has a
    record of that device, and nothing for any other key. A log that is
    not empty but holds records of other devices only gives the empty
    dict, not None. *)
Theorem X5_reports_for_cpu_and_gpu_only (results : list TrialRecord) :
  (find_optimal_configuration results = None <-> results = []) /\
  (forall analysis,
     find_optimal_configuration results = Some analysis ->
     (forall dev, is_Some (analysis !! dev) <->
        (dev = "CPU" \/ dev = "GPU") /\ results_of dev results <> []) /\
     (analysis = ∅ <->
        results_of "CPU" results = [] /\ results_of "GPU" results = [])).
Proof.
  split.
  - destruct results; [done|]. split; discriminate.
  - intros analysis Hsome.
    assert (results <> []) as Hne by (intros ->; discriminate).
    assert (Hlookup : forall dev, analysis !! dev =
      if decide (dev = "CPU" \/ dev = "GPU")
      then match results_of dev results with
           | [] => None
           | first :: rest => Some (analyze first rest)
           end
      else None).
    { intros dev.
      destruct (find_optimal_configuration_lookup results dev Hne)
        as (analysis' & Hsome' & Hl).
      rewrite Hsome in Hsome'. by simplify_eq. }
    assert (Hdev : forall dev, is_Some (analysis !! dev) <->
      (dev = "CPU" \/ dev = "GPU") /\ results_of dev results <> []).
    { intros dev. rewrite Hlookup. case_decide as Hd.
      - destruct (results_of dev results); split.
        + by intros [].
        + by intros [_ ?].
        + done.
        + by eexists.
      - split; [by intros []|]. by intros [? _]. }
    split; [done|]. split.
    + intros ->. split.
      * destruct (results_of "CPU" results) eqn:E; [done|].
        assert (is_Some ((∅ : gmap string Report) !! "CPU")) as [? H].
        { apply Hdev. rewrite E. split; [by left|done]. }
        by rewrite lookup_empty in H.
      * destruct (results_of "GPU" results) eqn:E; [done|].
        assert (is_Some ((∅ : gmap string Report) !! "GPU")) as [? H].
        { apply Hdev. rewrite E. split; [by right|done]. }
        by rewrite lookup_empty in H.
    + intros [Hcpu Hgpu]. apply map_eq. intros dev.
      rewrite lookup_empty. apply eq_None_not_Some. rewrite Hdev.
      intros [[-> | ->] Hrec]; by rewrite ?Hcpu, ?Hgpu in Hrec.
Qed.

Lemma py_max_elem {A} (lt : A -> A -> bool) (rest : list A) : forall first,
  py_max lt first rest ∈ first :: rest.
Proof.
  unfold py_max. induction rest as [|x rest IH]; intros first; [left|].
  cbn [foldl]. specialize (IH (if lt first x then x else first)).
  apply elem_of_cons in IH as [->|IH]; [|by do 2 right].
  destruct (lt first x); [right|]; left.
Qed.

Lemma find_bottleneck_elem rest : forall prev default,
  find_bottleneck prev rest default = default \/
  exists r, r ∈ prev :: rest /\
    find_bottleneck prev rest default = num_streams r.
Proof.
  induction rest as [|curr rest IH]; intros prev default; [by left|].
  cbn [find_bottleneck]. destruct (drops prev curr).
  - right. exists prev. split; [left|done].
  - destruct (IH curr default) as [->|(r & Hr & ->)]; [by left|].
    right. exists r. split; [by right|done].
Qed.

(** X6: the report of a device depends on the records of that device only,
    whatever else is in the log. It counts these records in total_results,
    its best_config is one of them, its bottleneck_at_streams is the
    concurrency of one of them, and that is at most its max_streams. *)
Theorem X6_report_of_own_records results dev first rest :
  dev = "CPU" \/ dev = "GPU" ->
  results_of dev results = first :: rest ->
  exists analysis report,
    find_optimal_configuration results = Some analysis /\
    analysis !! dev = Some report /\
    (forall results' analysis',
       results_of dev results' = first :: rest ->
       find_optimal_configuration results' = Some analysis' ->
       analysis' !! dev = Some report) /\
    total_results report = len (first :: rest) /\
    best_config report ∈ first :: rest /\
    (exists r, r ∈ first :: rest /\
       bottleneck_at_streams report = num_streams r) /\
    bottleneck_at_streams report <= max_streams report.
Proof.
  intros Hdev Hpart.
  assert (Hreport : forall l analysis,
    results_of dev l = first :: rest ->
    find_optimal_configuration l = Some analysis ->
    analysis !! dev = Some (analyze first rest)).
  { intros l analysis Hl Hsome.
    assert (l <> []) as Hne by (intros ->; discriminate).
    destruct (find_optimal_configuration_lookup l dev Hne)
      as (analysis' & Hsome' & Hlookup).
    rewrite Hsome in Hsome'. simplify_eq.
    by rewrite Hlookup, decide_True, Hl. }
  assert (results <> []) as Hne by (intros ->; discriminate).
  destruct (find_optimal_configuration_lookup results dev Hne)
    as (analysis & Hsome & _).
  exists analysis, (analyze first rest).
  split; [done|]. split; [by apply Hreport with results|].
  split; [intros l a; apply Hreport|]. split; [done|].
  split; [apply py_max_elem|].
  pose proof (py_max_Z (num_streams <$> rest) (num_streams first))
    as [Hin Hmax].
  change (num_streams first :: (num_streams <$> rest))
    with (num_streams <$> first :: rest) in *.
  apply list_elem_of_fmap in Hin as (rmax & Hrmax & Hin).
  unfold analyze. cbn [bottleneck_at_streams max_streams].
  pose proof (sorted_Permutation (first :: rest)) as Hperm.
  destruct (sorted (first :: rest)) as [|r0 rs] eqn:Es.
  { by apply Permutation_nil_cons in Hperm. }
  destruct (find_bottleneck_elem rs r0
              (py_max Z.ltb (num_streams first) (num_streams <$> rest)))
    as [->|(r & Hr & ->)].
  - split; [|lia]. exists rmax. by split.
  - rewrite Hperm in Hr. split; [by exists r|].
    apply Hmax. by apply list_elem_of_fmap_2.
Qed.

Lemma X6_report_of_own_records_witness :
  exists analysis report,
    find_optimal_configuration scenario_C = Some analysis /\
    analysis !! "CPU" = Some report /\
    (forall results' analysis',
       results_of "CPU" results' = scenario_C ->
       find_optimal_configuration results' = Some analysis' ->
       analysis' !! "CPU" = Some report) /\
    total_results report = len scenario_C /\
    best_config report ∈ scenario_C /\
    (exists r, r ∈ scenario_C /\
       bottleneck_at_streams report = num_streams r) /\
    bottleneck_at_streams report <= max_streams report.
Proof.
  apply (X6_report_of_own_records scenario_C "CPU").
  - by left.
  - reflexivity.
Defined.

(** ** The log of one sweep is in sorted order *)

Lemma StronglySorted_join {A} (R : relation A) (ls : list (list A)) :
  Forall (StronglySorted R) ls ->
  (forall (i j : nat) l1 l2 x y, (i < j)%nat ->
     ls !! i = Some l1 -> ls !! j = Some l2 -> x ∈ l1 -> y ∈ l2 -> R x y) ->
  StronglySorted R (mjoin ls).
Proof.
  induction 1 as [|l ls Hl _ IH]; intros Hcross; [constructor|].
  change (mjoin (l :: ls)) with (l ++ mjoin ls).
  apply StronglySorted_app_2; [|done|].
  - intros x y Hx Hy. apply list_elem_of_join in Hy as (l2 & Hy & Hl2).
    apply list_elem_of_lookup_1 in Hl2 as [j Hj].
    apply (Hcross 0%nat (S j) l l2); [lia|done..].
  - apply IH. intros i j l1 l2 x y Hij H1 H2.
    apply (Hcross (S i) (S j)); [lia|done..].
Qed.

Lemma elem_of_recorded w pos video_files dev fps_target n r :
  r ∈ recorded w pos video_files dev fps_target n ->
  sort_key r = (fps_target, n) /\ device r = dev.
Proof.
  unfold recorded. destruct (successful _ _ _ _ _ _); [by intros ?%elem_of_nil|].
  by intros ->%list_elem_of_singleton.
Qed.

Lemma target_records_sorted w video_files dev max pos fps_target :
  StronglySorted key_le (target_records w video_files dev max pos fps_target).
Proof.
  unfold target_records, sweep_levels.
  destruct (tested_levels_seqZ (stops w pos video_files dev fps_target)
              (Z.to_nat max) 1 max eq_refl) as (k & Hk & -> & _).
  apply StronglySorted_join.
  - apply Forall_fmap, Forall_forall. intros n _. simpl. unfold recorded.
    destruct (successful _ _ _ _ _ _); repeat constructor.
  - intros i j l1 l2 x y Hij H1 H2 Hx Hy.
    apply list_lookup_fmap_Some in H1 as (n1 & -> & Hn1).
    apply list_lookup_fmap_Some in H2 as (n2 & -> & Hn2).
    apply lookup_seqZ in Hn1 as [-> _]. apply lookup_seqZ in Hn2 as [-> _].
    apply elem_of_recorded in Hx as [Hx _], Hy as [Hy _].
    apply key_le_spec. rewrite Hx, Hy. unfold key_before. simpl. lia.
Qed.

Lemma elem_of_target_records w video_files dev max pos fps_target r :
  r ∈ target_records w video_files dev max pos fps_target ->
  target_fps r = fps_target /\ device r = dev.
Proof.
  unfold target_records. intros (l & Hr & Hl)%list_elem_of_join.
  apply list_elem_of_fmap in Hl as (n & -> & _).
  apply elem_of_recorded in Hr as [Hkey Hdev]. split; [|done].
  by injection Hkey.
Qed.

Lemma sweep_records_sorted w video_files dev max fps_targets :
  StronglySorted Z.lt fps_targets ->
  StronglySorted key_le
    (mjoin (imap (fun i => target_records w video_files dev max (0 + i))
              fps_targets)).
Proof.
  intros Hasc. apply StronglySorted_join.
  - apply Forall_forall. intros l Hl.
    apply elem_of_lookup_imap_1 in Hl as (i & t & -> & _).
    apply target_records_sorted.
  - intros i j l1 l2 x y Hij H1 H2 Hx Hy.
    apply list_lookup_imap_Some in H1 as (t1 & Ht1 & ->).
    apply list_lookup_imap_Some in H2 as (t2 & Ht2 & ->).
    apply elem_of_target_records in Hx as [Hx _], Hy as [Hy _].
    pose proof (StronglySorted_lookup_lt Z.lt _ Hasc i j t1 t2 Hij Ht1 Ht2).
    apply key_le_spec. unfold key_before, sort_key. simpl. lia.
Qed.

Lemma sorted_of_sorted l : StronglySorted key_le l -> sorted l = l.
Proof. intros Hl. symmetry. by apply sorted_unique. Qed.

Lemma results_of_own dev (l : list TrialRecord) :
  Forall (fun r => device r = dev) l -> results_of dev l = l.
Proof.
  unfold results_of. induction 1 as [|r l Hr _ IH]; [done|].
  rewrite filter_cons, decide_True by done. by rewrite IH.
Qed.

(** X7: the log that one sweep leaves, started on an empty log with
    strictly ascending target rates, is in the order of sorted(...) by
    (target_fps, num_streams) already, and holds records of the device of
    the sweep only. So on such a log (with max_streams below 2^63) the
    best_config of the report is the first record of the greatest
    total_fps in the sorted order as well. *)
Theorem X7_log_of_one_sweep_is_sorted w video_files dev max fps_targets b :
  results b = [] ->
  StronglySorted Z.lt fps_targets ->
  let log := results (benchmark_streams w video_files dev max fps_targets b).2 in
  results_of dev log = log /\
  sorted log = log /\
  (max < 2 ^ 63 -> dev = "CPU" \/ dev = "GPU" -> log <> [] ->
   exists analysis report,
     find_optimal_configuration log = Some analysis /\
     analysis !! dev = Some report /\
     first_maximum (sorted (results_of dev log)) (best_config report)).
Proof.
  intros Hfresh Hasc log. subst log. unfold benchmark_streams.
  destruct (decide (video_files = [])) as [->|Hne].
  { rewrite target_loop_no_specs_results, Hfresh.
    split; [done|]. split; [done|]. by intros _ _ ?. }
  rewrite target_loop_spec by done. cbn [snd results].
  rewrite Hfresh, app_nil_l.
  set (log := mjoin (imap _ fps_targets)).
  assert (Forall (fun r => device r = dev) log) as Hown.
  { apply Forall_join, Forall_forall. intros l Hl.
    apply elem_of_lookup_imap_1 in Hl as (i & t & -> & _).
    apply Forall_forall. by intros r [_ ?]%elem_of_target_records. }
  assert (sorted log = log) as Hsorted.
  { by apply sorted_of_sorted, sweep_records_sorted. }
  split; [by apply results_of_own|]. split; [done|].
  intros Hmax Hdev Hlog.
  rewrite results_of_own, Hsorted by done.
  destruct (find_optimal_configuration_lookup log dev Hlog)
    as (analysis & Hsome & Hlookup).
  rewrite decide_True, results_of_own in Hlookup by done.
  assert (Forall (fun r => is_number (total_fps r)) log) as Hnum.
  { apply sweep_records_Forall. intros pos t n Hn Hok.
    apply nonneg_is_number, trial_record_nonneg; [lia|done]. }
  destruct log as [|first rest]; [done|].
  exists analysis, (analyze first rest).
  split; [done|]. split; [done|]. by apply py_max_first_maximum.
Qed.

Lemma X7_log_of_one_sweep_is_sorted_witness :
  let log :=
    results (benchmark_streams scenario_A ["a.mp4"] "CPU" 4 [15; 30] fresh).2 in
  results_of "CPU" log = log /\
  sorted log = log /\
  (4 < 2 ^ 63 -> "CPU" = "CPU" \/ "CPU" = "GPU" -> log <> [] ->
   exists analysis report,
     find_optimal_configuration log = Some analysis /\
     analysis !! "CPU" = Some report /\
     first_maximum (sorted (results_of "CPU" log)) (best_config report)).
Proof.
  apply (X7_log_of_one_sweep_is_sorted scenario_A ["a.mp4"] "CPU" 4 [15; 30]
           fresh).
  - reflexivity.
  - repeat constructor.
Defined.

(** * Beyond the claims: strings and the pipeline *)

Lemma append_nil_l (s : string) : "" +:+ s = s.
Proof. reflexivity. Qed.

Lemma append_cons c (s t : string) : String c s +:+ t = String c (s +:+ t).
Proof. reflexivity. Qed.

Lemma append_nil_r (s : string) : s +:+ "" = s.
Proof.
  induction s as [|c s IH]; [done|]. by rewrite append_cons, IH.
Qed.

Lemma append_assoc (s t u : string) : (s +:+ t) +:+ u = s +:+ t +:+ u.
Proof.
  induction s as [|c s IH]; [done|]. by rewrite !append_cons, IH.
Qed.

Lemma length_append (s t : string) :
  String.length (s +:+ t) = (String.length s + String.length t)%nat.
Proof.
  induction s as [|c s IH]; [done|]. rewrite append_cons. simpl. by rewrite IH.
Qed.

Lemma prefix_spec (old s : string) :
  String.prefix old s = true <-> exists post, s = old +:+ post.
Proof.
  revert s. induction old as [|c old IH]; intros s.
  - split; [intros _; by exists s|]. intros _. by destruct s.
  - destruct s as [|c' s]; simpl.
    + split; [done|]. by intros [post Hpost].
    + destruct (Ascii.ascii_dec c c') as [->|Hc].
      * rewrite IH. split.
        -- intros [post ->]. by exists post.
        -- intros [post Hpost]. rewrite append_cons in Hpost.
           exists post. by simplify_eq.
      * split; [done|]. intros [post Hpost]. rewrite append_cons in Hpost.
        by simplify_eq.
Qed.

(** ** Newlines to blanks *)

Lemma one_line_cons c (s : string) :
  one_line (String c s) =
  String (if Ascii.ascii_dec (Ascii.ascii_of_nat 10) c
          then Ascii.ascii_of_nat 32 else c)
         (one_line s).
Proof.
  unfold one_line, str_replace. cbn [replace_from].
  unfold newline. cbn [String.prefix String.length].
  destruct (Ascii.ascii_dec _ c) as [->|Hc]; [|done].
  destruct s; reflexivity.
Qed.

Lemma one_line_app (s t : string) :
  one_line (s +:+ t) = one_line s +:+ one_line t.
Proof.
  induction s as [|c s IH]; [done|].
  by rewrite append_cons, !one_line_cons, append_cons, IH.
Qed.

Lemma has_char_app c (s t : string) :
  has_char c (s +:+ t) = has_char c s || has_char c t.
Proof.
  induction s as [|c' s IH]; [done|].
  rewrite append_cons. simpl. by rewrite IH, orb_assoc.
Qed.

Lemma one_line_no_newline (s : string) :
  has_char (Ascii.ascii_of_nat 10) (one_line s) = false.
Proof.
  induction s as [|c s IH]; [done|]. rewrite one_line_cons.
  destruct (Ascii.ascii_dec (Ascii.ascii_of_nat 10) c) as [Hc|Hc];
    cbn [has_char]; rewrite IH, orb_false_r; [done|].
  by apply Ascii.eqb_neq.
Qed.

(** ** Stripping *)

Lemma lstrip_app_blank (a t : string) :
  lstrip a = "" -> lstrip (a +:+ t) = lstrip t.
Proof.
  induction a as [|c a IH]; [done|]. intros Ha.
  rewrite append_cons. cbn [lstrip] in *.
  destruct (is_space c); [by apply IH|discriminate].
Qed.

Lemma lstrip_app_text c (a t : string) :
  is_space c = false -> lstrip (String c a +:+ t) = String c a +:+ t.
Proof. intros Hc. rewrite append_cons. cbn [lstrip]. by rewrite Hc. Qed.

Lemma rstrip_app (a t : string) :
  rstrip t <> "" ->
  rstrip (a +:+ t) = a +:+ rstrip t /\ rstrip (a +:+ t) <> "".
Proof.
  intros Ht. induction a as [|c a [IH1 IH2]]; [done|].
  rewrite !append_cons. cbn [rstrip]. rewrite IH1 in *.
  destruct (a +:+ rstrip t) eqn:E; [done|]. done.
Qed.

Lemma rstrip_app_eq (a t : string) :
  rstrip t <> "" -> rstrip (a +:+ t) = a +:+ rstrip t.
Proof. intros Ht. by apply rstrip_app. Qed.

Lemma rstrip_app_ne (a t : string) :
  rstrip t <> "" -> rstrip (a +:+ t) <> "".
Proof. intros Ht. by apply rstrip_app. Qed.

Lemma one_line_id (s : string) :
  has_char (Ascii.ascii_of_nat 10) s = false -> one_line s = s.
Proof.
  induction s as [|c s IH]; [done|]. cbn [has_char].
  intros [Hc Hs]%orb_false_elim. rewrite one_line_cons, IH by done.
  destruct (Ascii.ascii_dec _ c) as [<-|]; [|done].
  by rewrite Ascii.eqb_refl in Hc.
Qed.

(** Stripping removes characters only. *)
Lemma has_char_lstrip c (s : string) :
  has_char c s = false -> has_char c (lstrip s) = false.
Proof.
  induction s as [|c' s IH]; [done|]. cbn [lstrip has_char].
  intros [Hc Hs]%orb_false_elim.
  destruct (is_space c'); [by apply IH|].
  cbn [has_char]. by rewrite Hc, Hs.
Qed.

Lemma has_char_rstrip c (s : string) :
  has_char c s = false -> has_char c (rstrip s) = false.
Proof.
  induction s as [|c' s IH]; [done|]. cbn [rstrip has_char].
  intros [Hc Hs]%orb_false_elim. specialize (IH Hs).
  destruct (rstrip s) as [|c'' r].
  - destruct (is_space c'); [done|]. cbn [has_char]. by rewrite Hc.
  - cbn [has_char] in *. by rewrite Hc, IH.
Qed.

(** A decimal numeral holds no newline. *)
Lemma pretty_N_go_no_newline (x : N) (s : string) :
  has_char (Ascii.ascii_of_nat 10) s = false ->
  has_char (Ascii.ascii_of_nat 10) (pretty_N_go x s) = false.
Proof.
  revert s. induction (N.lt_wf_0 x) as [x _ IH]. intros s Hs.
  destruct (decide (x = 0)%N) as [->|Hx]; [by rewrite pretty_N_go_0|].
  rewrite pretty_N_go_step by lia. apply IH.
  - apply N.div_lt; lia.
  - cbn [has_char]. rewrite Hs, orb_false_r.
    unfold pretty_N_char. by repeat case_match.
Qed.

Lemma pretty_Z_no_newline (z : Z) :
  has_char (Ascii.ascii_of_nat 10) (pretty z) = false.
Proof.
  assert (forall x : N, has_char (Ascii.ascii_of_nat 10) (pretty x) = false)
    as HN.
  { intros x. unfold pretty, pretty_N. case_decide; [done|].
    by apply pretty_N_go_no_newline. }
  destruct z as [|p|p]; [done|apply HN|].
  change (pretty (Z.neg p)) with ("-" +:+ pretty (N.pos p)).
  rewrite has_char_app. by rewrite (HN (N.pos p)).
Qed.

(** ** Cancellation *)

Lemma append_inj_l (a x y : string) : a +:+ x = a +:+ y -> x = y.
Proof.
  induction a as [|c a IH]; [done|]. rewrite !append_cons.
  intros [= H]. by apply IH.
Qed.

Lemma append_inj_r (a x y : string) : x +:+ a = y +:+ a -> x = y.
Proof.
  revert y. induction x as [|c x IH]; intros [|c' y] H.
  - done.
  - apply (f_equal String.length) in H.
    rewrite append_cons, append_nil_l in H. cbn [String.length] in H.
    rewrite length_append in H. lia.
  - apply (f_equal String.length) in H.
    rewrite append_cons, append_nil_l in H. cbn [String.length] in H.
    rewrite length_append in H. lia.
  - rewrite !append_cons in H. injection H as -> H. f_equal. by apply IH.
Qed.

(** ** The pipeline text *)

Lemma rstrip_app_to (a t r : string) :
  rstrip t = r /\ r <> "" -> rstrip (a +:+ t) = a +:+ r /\ a +:+ r <> "".
Proof.
  intros [<- Hne]. split; [by apply rstrip_app_eq|].
  rewrite <- rstrip_app_eq by done. by apply rstrip_app_ne.
Qed.

Lemma rstrip_template_end :
  rstrip (one_line " emit-signals=true sync=false" +:+ one_line newline
          +:+ one_line "        ")
    = " emit-signals=true sync=false" /\
  " emit-signals=true sync=false" <> "".
Proof. split; [by vm_compute|discriminate]. Qed.

Lemma rstrip_line_end :
  rstrip " emit-signals=true sync=false" = " emit-signals=true sync=false" /\
  " emit-signals=true sync=false" <> "".
Proof. split; [by vm_compute|discriminate]. Qed.

Ltac rstrip_template :=
  lazymatch goal with
  | |- rstrip (one_line " emit-signals=true sync=false" +:+ _) = _ /\ _ =>
      exact rstrip_template_end
  | |- rstrip " emit-signals=true sync=false" = _ /\ _ =>
      exact rstrip_line_end
  | |- rstrip (_ +:+ _) = _ /\ _ =>
      refine (rstrip_app_to _ _ _ _); rstrip_template
  end.

(** The pipeline is the text between the indentations of the template,
    with every newline a blank. *)
Lemma create_gst_pipeline_line device model_path detection_threshold
    input_source stream_id fps_target :
  create_gst_pipeline device model_path detection_threshold input_source
    stream_id fps_target =
  pipeline_line
    (if String.eqb device "GPU" then "device=GPU" else "device=CPU")
    model_path detection_threshold
    (if String.prefix "rtsp://" input_source
        || String.prefix "http" input_source
     then "urisourcebin uri=" +:+ input_source
     else "filesrc location=" +:+ input_source)
    stream_id fps_target.
Proof.
  unfold create_gst_pipeline, pipeline_line, strip.
  change (str_replace newline " ") with one_line.
  destruct (String.prefix "rtsp://" input_source
            || String.prefix "http" input_source);
    destruct (String.eqb device "GPU");
    rewrite !one_line_app;
    rewrite (one_line_id (pretty fps_target)) by apply pretty_Z_no_newline;
    rewrite lstrip_app_blank by reflexivity;
    rewrite lstrip_app_blank by reflexivity;
    rewrite append_assoc;
    match goal with
    | |- context [one_line ?lit +:+ one_line input_source +:+ _] =>
        let lit' := eval vm_compute in (one_line lit) in
        change (one_line lit) with lit'
    end;
    rewrite lstrip_app_text by reflexivity;
    match goal with
    | |- rstrip ?t = _ =>
        let H := fresh in
        eassert (rstrip t = _ /\ _) as [H _];
          [rstrip_template | etrans; [exact H|] ]
    end;
    vm_compute; reflexivity.
Qed.

Lemma pipeline_line_strip device_config model_path detection_threshold
    lit input_source stream_id fps_target c :
  is_space c = false ->
  strip (pipeline_line device_config model_path detection_threshold
           (String c lit +:+ input_source) stream_id fps_target)
  = pipeline_line device_config model_path detection_threshold
      (String c lit +:+ input_source) stream_id fps_target.
Proof.
  intros Hc. unfold strip, pipeline_line.
  rewrite append_cons, one_line_cons.
  destruct (Ascii.ascii_dec _ c) as [<-|_]; [done|].
  rewrite append_cons. cbn [lstrip]. rewrite Hc. rewrite <- append_cons.
  match goal with
  | |- rstrip ?t = _ =>
      let H := fresh in
      eassert (rstrip t = _ /\ _) as [H _];
        [rstrip_template | etrans; [exact H|] ]
  end.
  reflexivity.
Qed.

Ltac cancel_l H :=
  repeat lazymatch type of H with
  | ?a +:+ _ = ?a +:+ _ => apply append_inj_l in H
  end.

Lemma pipeline_line_device_config mp thr src sid fps :
  pipeline_line "device=GPU" mp thr src sid fps
  <> pipeline_line "device=CPU" mp thr src sid fps.
Proof.
  unfold pipeline_line. intros H. cancel_l H.
  vm_compute in H. discriminate H.
Qed.

Lemma pipeline_line_stream_id dc mp thr src s1 s2 fps :
  pipeline_line dc mp thr src s1 fps = pipeline_line dc mp thr src s2 fps
  <-> one_line s1 = one_line s2.
Proof.
  unfold pipeline_line. split; [|by intros ->].
  intros H. cancel_l H. by apply append_inj_r in H.
Qed.

(** * Beyond the claims: the pipeline text *)

(** X8: the pipeline string is the text of the template between its first
    and its last indentation, on one line: every newline of the template
    and of the interpolated fields (source, model path, threshold, stream
    id) is a blank, the indentations inside the text stay, and nothing but
    the leading and the trailing white space is stripped. It starts with
    urisourcebin for a source that starts with rtsp:// or http and with
    filesrc otherwise, holds no newline, is its own strip() and is never
    empty. *)
Theorem X8_pipeline_is_one_trimmed_line device model_path detection_threshold
    input_source stream_id fps_target :
  let p := create_gst_pipeline device model_path detection_threshold
             input_source stream_id fps_target in
  p = pipeline_line
        (if String.eqb device "GPU" then "device=GPU" else "device=CPU")
        model_path detection_threshold
        (if String.prefix "rtsp://" input_source
            || String.prefix "http" input_source
         then "urisourcebin uri=" +:+ input_source
         else "filesrc location=" +:+ input_source)
        stream_id fps_target /\
  has_char (Ascii.ascii_of_nat 10) p = false /\
  strip p = p /\
  p <> "".
Proof.
  intros p. assert (strip p = p) as Hstrip.
  { unfold p. rewrite create_gst_pipeline_line.
    destruct (String.prefix "rtsp://" input_source
              || String.prefix "http" input_source);
      by apply pipeline_line_strip. }
  split_and!; [apply create_gst_pipeline_line| |done|].
  - unfold p, create_gst_pipeline.
    destruct (String.eqb device "GPU");
      apply has_char_rstrip, has_char_lstrip, one_line_no_newline.
  - unfold p. rewrite create_gst_pipeline_line.
    destruct (String.prefix "rtsp://" input_source
              || String.prefix "http" input_source);
      unfold pipeline_line; rewrite one_line_app; discriminate.
Qed.

(** X9: every device other than the exact string GPU gets the pipeline of
    the CPU (device=CPU in both inference elements), and that pipeline
    differs from the one of the GPU. *)
Theorem X9_only_GPU_selects_the_gpu device mp thr src sid fps :
  device <> "GPU" ->
  create_gst_pipeline device mp thr src sid fps
    = create_gst_pipeline "CPU" mp thr src sid fps /\
  create_gst_pipeline device mp thr src sid fps
    <> create_gst_pipeline "GPU" mp thr src sid fps.
Proof.
  intros Hdev. apply String.eqb_neq in Hdev.
  rewrite !create_gst_pipeline_line, Hdev.
  change (String.eqb "CPU" "GPU") with false.
  change (String.eqb "GPU" "GPU") with true.
  split; [done|]. intros H. symmetry in H.
  by apply pipeline_line_device_config in H.
Qed.

Lemma X9_only_GPU_selects_the_gpu_witness :
  "gpu" <> "GPU" /\
  create_gst_pipeline "gpu" "./models" "0.5" "dummy_video.mp4" "stream_0" 15
    = create_gst_pipeline "CPU" "./models" "0.5" "dummy_video.mp4"
        "stream_0" 15 /\
  create_gst_pipeline "gpu" "./models" "0.5" "dummy_video.mp4" "stream_0" 15
    <> create_gst_pipeline "GPU" "./models" "0.5" "dummy_video.mp4"
         "stream_0" 15.
Proof.
  split; [discriminate|].
  apply (X9_only_GPU_selects_the_gpu "gpu"). discriminate.
Defined.

(** X10: with the other arguments fixed, two stream ids give the same
    pipeline exactly when they are equal up to newlines for blanks; the ids
    stream_i that the harness gives to the streams of a trial give
    pairwise different pipelines (appsink names). *)
Theorem X10_one_sink_per_stream device mp thr src fps :
  (forall s1 s2,
     create_gst_pipeline device mp thr src s1 fps
       = create_gst_pipeline device mp thr src s2 fps
     <-> one_line s1 = one_line s2) /\
  (forall i j : Z,
     create_gst_pipeline device mp thr src ("stream_" +:+ pretty i) fps
       = create_gst_pipeline device mp thr src ("stream_" +:+ pretty j) fps
     <-> i = j).
Proof.
  assert (forall s1 s2,
     create_gst_pipeline device mp thr src s1 fps
       = create_gst_pipeline device mp thr src s2 fps
     <-> one_line s1 = one_line s2) as Hsid.
  { intros s1 s2. rewrite !create_gst_pipeline_line.
    apply pipeline_line_stream_id. }
  split; [done|]. intros i j. rewrite Hsid.
  rewrite !one_line_id
    by (rewrite has_char_app, pretty_Z_no_newline; reflexivity).
  split; [apply stream_id_inj|by intros ->].
Qed.

(** ** Replacing *)

Lemma replace_from_skip (old new a s : string) :
  replace_from old new (a +:+ s) (String.length a) = replace_from old new s 0.
Proof.
  induction a as [|c a IH]; [done|]. rewrite append_cons.
  cbn [String.length replace_from]. apply IH.
Qed.

Lemma str_replace_match (old new post : string) :
  old <> "" ->
  str_replace old new (old +:+ post) = new +:+ str_replace old new post.
Proof.
  intros Hold. destruct old as [|c old]; [done|].
  unfold str_replace. rewrite append_cons. cbn [replace_from].
  rewrite <- append_cons.
  assert (String.prefix (String c old) (String c old +:+ post) = true) as ->.
  { apply prefix_spec. by exists post. }
  cbn [String.length].
  replace (S (String.length old) - 1)%nat with (String.length old) by lia.
  by rewrite replace_from_skip.
Qed.

Lemma str_replace_no_match (old new : string) c (s : string) :
  String.prefix old (String c s) = false ->
  str_replace old new (String c s) = String c (str_replace old new s).
Proof. unfold str_replace. cbn [replace_from]. by intros ->. Qed.

Lemma occurs_prefix (old s : string) :
  String.prefix old s = true -> occurs old s.
Proof. intros [post ->]%prefix_spec. by exists "", post. Qed.

Lemma occurs_cons (old : string) c (s : string) :
  occurs old (String c s) ->
  String.prefix old (String c s) = true \/ occurs old s.
Proof.
  intros [[|c' pre] [post H]].
  - left. apply prefix_spec. exists post. by rewrite append_nil_l in H.
  - right. rewrite append_cons in H. injection H as _ ->. by exists pre, post.
Qed.

Lemma str_replace_absent (old new s : string) :
  ~ occurs old s -> str_replace old new s = s.
Proof.
  induction s as [|c s IH]; [done|]. intros Hs.
  destruct (String.prefix old (String c s)) eqn:Hp.
  - destruct Hs. by apply occurs_prefix.
  - rewrite str_replace_no_match by done. f_equal. apply IH.
    intros (pre & post & ->). apply Hs. by exists (String c pre), post.
Qed.

Lemma str_replace_length (old new : string) :
  old <> "" -> (String.length new <= String.length old)%nat ->
  forall (n : nat) (s : string), (String.length s <= n)%nat ->
    (String.length (str_replace old new s) <= String.length s)%nat /\
    (occurs old s -> (String.length new < String.length old)%nat ->
     (String.length (str_replace old new s) < String.length s)%nat).
Proof.
  intros Hold Hlen. induction n as [|n IH]; intros s Hs.
  { destruct s; [|simpl in Hs; lia]. split; [done|].
    intros ([|??] & post & H) _; [|by rewrite append_cons in H].
    rewrite append_nil_l in H. destruct old; [done|].
    by rewrite append_cons in H. }
  destruct s as [|c s]; [apply (IH ""); simpl; lia|].
  destruct (String.prefix old (String c s)) eqn:Hp.
  - destruct (proj1 (prefix_spec _ _) Hp) as [post Hpost].
    rewrite Hpost, str_replace_match, !length_append by done.
    destruct (IH post) as [IH1 _].
    { apply (f_equal String.length) in Hpost.
      rewrite length_append in Hpost. simpl in Hpost.
      destruct old; [done|]. simpl in Hpost, Hs. lia. }
    split; [lia|]. intros _ ?. lia.
  - rewrite str_replace_no_match by done. cbn [String.length].
    simpl in Hs. destruct (IH s) as [IH1 IH2]; [lia|].
    split; [lia|]. intros [Hc|Hc]%occurs_cons ?; [congruence|].
    specialize (IH2 Hc). lia.
Qed.

(** [filename.replace('.json', '.csv')] gives the name back exactly when
    [.json] is no part of it. *)
Lemma csv_filename_same (filename : string) :
  str_replace ".json" ".csv" filename = filename <-> ~ occurs ".json" filename.
Proof.
  split; [|apply str_replace_absent].
  intros Heq Hocc.
  destruct (str_replace_length ".json" ".csv" ltac:(done) ltac:(simpl; lia)
              (String.length filename) filename ltac:(done)) as [_ Hlt].
  specialize (Hlt Hocc ltac:(simpl; lia)). rewrite Heq in Hlt. lia.
Qed.

Lemma csv_filename_suffix (stem : string) :
  ~ occurs "." stem ->
  str_replace ".json" ".csv" (stem +:+ ".json") = stem +:+ ".csv".
Proof.
  induction stem as [|c stem IH]; [done|]. intros Hstem.
  rewrite !append_cons, str_replace_no_match.
  - f_equal. apply IH. intros (pre & post & ->). apply Hstem.
    by exists (String c pre), post.
  - destruct (String.prefix _ _) eqn:Hp; [|done]. destruct Hstem.
    apply prefix_spec in Hp as [post Hp]. rewrite append_cons in Hp.
    injection Hp as -> _. by exists "", stem.
Qed.

(** * Beyond the claims: the files of the report *)

(** X11: save_results writes the JSON report under the name it is given
    and then the CSV under that name with every .json replaced by .csv.
    The two names are the same exactly when .json is no part of the name;
    then the CSV is written over the report, and the file holds the CSV
    text at the end (nothing, for an empty log). When .json is part of the
    name, both files are there at the end. If the first name cannot be
    opened the disk is left as it was; if only the second cannot, the
    report has been written already. No other file is touched. *)
Theorem X11_csv_file_may_replace_the_report wr writable m today results
    filename disk :
  let csv_filename := str_replace ".json" ".csv" filename in
  let json :=
    json_dump wr {| system_info := get_system_info m;
                    benchmark_results := results;
                    analysis := find_optimal_configuration results;
                    report_timestamp := today |} in
  let csv := match results with [] => "" | _ :: _ => csv_rows wr results end in
  let saved := save_results wr writable m today results filename disk in
  (csv_filename = filename <-> ~ occurs ".json" filename) /\
  (writable filename = false ->
     saved = (Some (OSError filename), disk)) /\
  (writable filename = true -> writable csv_filename = false ->
     saved = (Some (OSError csv_filename), <[filename := json]> disk)) /\
  (writable filename = true -> writable csv_filename = true ->
     saved.1 = None /\
     saved.2 !! csv_filename = Some csv /\
     (occurs ".json" filename -> saved.2 !! filename = Some json) /\
     (~ occurs ".json" filename -> saved.2 = <[filename := csv]> disk) /\
     (forall other, other <> filename -> other <> csv_filename ->
        saved.2 !! other = disk !! other)).
Proof.
  intros csv_filename json csv saved. subst csv_filename.
  pose proof (csv_filename_same filename) as Hsame.
  split; [done|]. unfold saved, save_results, open_write.
  fold json csv. split; [by intros ->|].
  split; [by intros -> ->|]. intros -> ->. cbn [fst snd].
  split; [done|]. split; [by rewrite lookup_insert_eq|]. split; [|split].
  - intros Hocc. rewrite lookup_insert_ne, lookup_insert_eq; [done|].
    intros Heq. by apply Hsame in Heq.
  - intros Hocc. apply Hsame in Hocc. rewrite Hocc.
    by rewrite insert_insert_eq.
  - intros other H1 H2. by rewrite !lookup_insert_ne.
Qed.

(** * Beyond the claims: the models *)

Lemma cmd_of_inj : Inj (=) (=) cmd_of.
Proof.
  intros m1 m2 H. unfold cmd_of in H.
  apply append_inj_l in H. by apply append_inj_r in H.
Qed.

(** X12: the loop of download_models runs at most one command per model,
    in the order of the models, and none for a model whose file is there
    whenever it is looked for. Every command but the last has exited with
    status zero; the loop returns False exactly when the last command it
    ran has not, and it then stops. *)
Theorem X12_downloads_of_absent_models h ms : forall ran,
  let done := download_loop h ms ran in
  exists new,
    done.2 = ran ++ new /\
    new `sublist_of` (cmd_of <$> ms) /\
    (forall prior cmd rest, new = prior ++ cmd :: rest ->
       exit_status h (ran ++ prior) cmd = 0 <-> rest <> [] \/ done.1 = true) /\
    (done.1 = false -> new <> []) /\
    (forall model,
       (forall ran', path_exists h ran' (model_path_of model) = true) ->
       cmd_of model ∉ new).
Proof.
  induction ms as [|model ms IH]; intros ran; cbn [download_loop].
  { exists []. rewrite app_nil_r. split_and!; try done.
    - intros [|??] ???; done.
    - intros ? _. apply not_elem_of_nil. }
  destruct (path_exists h ran (model_path_of model)) eqn:Hex.
  { destruct (IH ran) as (new & Hran & Hsub & Hst & Hfalse & Hpres).
    exists new. split_and!; try done.
    rewrite fmap_cons. by apply sublist_cons. }
  destruct (exit_status h ran (cmd_of model) =? 0) eqn:Hst0.
  - destruct (IH (ran ++ [cmd_of model]))
      as (new & Hran & Hsub & Hst & Hfalse & Hpres).
    exists (cmd_of model :: new). cbn zeta in *. split_and!.
    + by rewrite Hran, <- app_assoc.
    + rewrite fmap_cons. by apply sublist_skip.
    + intros [|c prior] cmd rest Heq; simplify_eq/=.
      * rewrite app_nil_r. split; [intros _|intros _; lia].
        destruct rest as [|c rest]; [right|by left].
        destruct (download_loop _ _ _) as [[] ?]; [done|].
        by destruct Hfalse.
      * specialize (Hst prior cmd rest eq_refl).
        by rewrite <- app_assoc in Hst.
    + done.
    + intros model' Hm [Heq|Hin]%elem_of_cons.
      * apply cmd_of_inj in Heq as ->. by rewrite Hm in Hex.
      * by apply (Hpres model').
  - exists [cmd_of model]. cbn [fst snd]. split_and!; try done.
    + rewrite fmap_cons. apply sublist_skip, sublist_nil_l.
    + intros [|c [|??]] cmd rest Heq; simplify_eq/=.
      rewrite app_nil_r. split; [lia|]. by intros [|].
    + intros model' Hm [Heq|Hin]%elem_of_cons.
      * apply cmd_of_inj in Heq as ->. by rewrite Hm in Hex.
      * by apply elem_of_nil in Hin.
Qed.

(** * Beyond the claims: the main program *)

(** ** One sweep *)

Lemma video_of_elem (video_files : list string) (i : Z) :
  video_files <> [] -> video_of video_files i ∈ video_files.
Proof.
  intros Hne. eapply list_elem_of_lookup_2. by apply video_of_lookup.
Qed.

Lemma benchmark_streams_sweep w video_files dev max fps_targets b :
  video_files <> [] ->
  exists new events,
    benchmark_streams w video_files dev max fps_targets b
      = (Ok tt, {| results := results b ++ new;
                   trace := trace b ++ events |}) /\
    Forall (from_sweep dev max fps_targets) new /\
    (length new <= length fps_targets * Z.to_nat max)%nat /\
    (max < 2 ^ 63 -> Forall well_formed new) /\
    (StronglySorted Z.lt fps_targets -> StronglySorted key_le new) /\
    (forall t n i v, Submitted t n i v ∈ events -> v ∈ video_files).
Proof.
  intros Hne. unfold benchmark_streams. rewrite target_loop_spec by done.
  eexists _, _. split; [done|]. split_and!.
  - eapply Forall_impl.
    + apply (sweep_records_from
        (fun t r => device r = dev /\ target_fps r = t /\
                    1 <= successful_streams r <= num_streams r /\
                    num_streams r <= max)).
      intros pos t n Ht Hn Hok.
      pose proof (len_successful w pos video_files dev t n).
      assert (0 < len (successful w pos video_files dev t n)).
      { unfold len. destruct (successful _ _ _ _ _ _); [done|simpl; lia]. }
      cbn [device target_fps successful_streams num_streams trial_record].
      repeat split; try done; lia.
    + intros r (t & Ht & Hdev & Htarget & Hcount & Hmax).
      unfold from_sweep. by rewrite Htarget.
  - etrans; [apply (length_join_le _ (Z.to_nat max))|].
    + apply Forall_forall. intros l Hl.
      apply elem_of_lookup_imap_1 in Hl as (i & t & -> & _).
      apply length_target_records.
    + by rewrite length_imap.
  - intros Hmax. apply sweep_records_Forall. intros pos t n Hn Hok. split.
    + apply trial_record_counts. lia.
    + apply trial_record_nonneg; [lia|done].
  - apply sweep_records_sorted.
  - intros t n i v (l & Hev & Hl)%list_elem_of_join.
    apply elem_of_lookup_imap_1 in Hl as (k & t' & -> & _).
    unfold target_events in Hev.
    apply list_elem_of_join in Hev as (l & Hev & Hl).
    apply list_elem_of_fmap in Hl as (n' & -> & _).
    unfold level_events, trial_events in Hev.
    apply elem_of_app in Hev as [Hev|Hev].
    + apply elem_of_cons in Hev as [Hev|Hev]; [done|].
      apply list_elem_of_fmap in Hev as (j & Hev & _).
      injection Hev as -> -> -> ->. by apply video_of_elem.
    + destruct (stops _ _ _ _ _ _); [by apply elem_of_nil in Hev|].
      by apply list_elem_of_singleton in Hev.
Qed.

(** ** The videos *)

Lemma existing_videos_of_spec h ran :
  existing_videos_of h ran <> [] /\
  forall v, v ∈ existing_videos_of h ran ->
    (v ∈ video_files /\ path_exists h ran v = true) \/
    (v = "dummy_video.mp4" /\
     forall v', v' ∈ video_files -> path_exists h ran v' = false).
Proof.
  unfold existing_videos_of.
  destruct (List.filter (path_exists h ran) video_files) as [|v0 l] eqn:E.
  - split; [done|]. intros v ->%list_elem_of_singleton. right.
    split; [done|]. intros v' Hv'. apply not_true_is_false. intros Hex.
    assert (In v' (List.filter (path_exists h ran) video_files)) as Hin.
    { apply filter_In. split; [by apply list_elem_of_In|done]. }
    by rewrite E in Hin.
  - split; [done|]. intros v Hv. left. rewrite <- E in Hv.
    apply list_elem_of_In, filter_In in Hv as [Hv1 Hv2].
    split; [by apply list_elem_of_In|done].
Qed.

(** ** The run *)

Lemma gpu_available_spec m :
  gpu_available (get_system_info m) = true <->
  exists first rest,
    GPUtil_getGPUs m = Some (first :: rest) /\ name first <> "No GPU detected".
Proof.
  unfold gpu_available, get_system_info. cbn [gpu].
  destruct (GPUtil_getGPUs m) as [[|first rest]|]; cbn.
  - split; [done|]. by intros (? & ? & ? & _).
  - rewrite negb_true_iff, String.eqb_neq. split.
    + intros Hname. by exists first, rest.
    + by intros (? & ? & [= <- _] & ?).
  - split; [done|]. by intros (? & ? & ? & _).
Qed.

(** What every run of [main] is made of. *)
Lemma main_run wr h cpu_world gpu_world disk :
  let run := main wr h cpu_world gpu_world disk in
  (bench run = fresh /\ disk_after run = disk /\
   (exit run = Failed_with (OSError "models") /\ mkdir_ok h = false \/
    exit run = ModelsMissing /\ mkdir_ok h = true /\
      (download_loop h models []).1 = false)) \/
  (mkdir_ok h = true /\ download_loop h models [] = (true, commands run) /\
   exists cpu_part gpu_part cpu_events gpu_events,
     let videos := existing_videos_of h (commands run) in
     benchmark_streams cpu_world videos "CPU" 8 [15; 30] fresh
       = (Ok tt, {| results := cpu_part; trace := cpu_events |}) /\
     (if gpu_available (get_system_info (machine h 0))
      then benchmark_streams gpu_world videos "GPU" 16 [15; 30; 60]
             {| results := cpu_part; trace := cpu_events |}
           = (Ok tt, {| results := cpu_part ++ gpu_part;
                        trace := cpu_events ++ gpu_events |})
      else gpu_part = [] /\ gpu_events = []) /\
     bench run = {| results := cpu_part ++ gpu_part;
                    trace := cpu_events ++ gpu_events |} /\
     (let saved := save_results wr (writable h) (machine h 1) (today h)
                     (cpu_part ++ gpu_part)
                     "ai_camera_benchmark_results.json" disk in
      disk_after run = saved.2 /\
      exit run = match saved.1 with
                 | Some e => Failed_with e
                 | None => Completed
                 end) /\
     Forall (from_sweep "CPU" 8 [15; 30]) cpu_part /\
     Forall (from_sweep "GPU" 16 [15; 30; 60]) gpu_part /\
     (length cpu_part <= 16)%nat /\ (length gpu_part <= 48)%nat /\
     Forall well_formed (cpu_part ++ gpu_part) /\
     StronglySorted key_le cpu_part /\ StronglySorted key_le gpu_part /\
     (forall t n i v, Submitted t n i v ∈ cpu_events ++ gpu_events ->
        v ∈ videos)).
Proof.
  intros run. subst run. unfold main, download_models.
  destruct (mkdir_ok h); [|left; cbn; naive_solver].
  destruct (download_loop h models []) as [[] ran] eqn:Hdl;
    [|left; cbn; naive_solver].
  right. split; [done|].
  destruct (existing_videos_of_spec h ran) as [Hne _].
  set (videos := existing_videos_of h ran) in *.
  destruct (benchmark_streams_sweep cpu_world videos "CPU" 8 [15; 30]
              fresh Hne)
    as (cpu_part & cpu_events & Hrun1 & Hcpu1 & Hcpu2 & Hcpu3 & Hcpu4 & Hcpu5).
  cbn [results trace fresh app] in *. rewrite Hrun1.
  assert (StronglySorted Z.lt [15; 30]) as Hasc2.
  { repeat constructor; lia. }
  assert (StronglySorted Z.lt [15; 30; 60]) as Hasc3.
  { repeat constructor; lia. }
  destruct (gpu_available (get_system_info (machine h 0))) eqn:Hgpu.
  - destruct (benchmark_streams_sweep gpu_world videos "GPU" 16 [15; 30; 60]
                {| results := cpu_part; trace := cpu_events |} Hne)
      as (gpu_part & gpu_events & Hrun & Hg1 & Hg2 & Hg3 & Hg4 & Hg5).
    cbn [results trace] in Hrun. rewrite Hrun. cbn [results].
    destruct (save_results _ _ _ _ _ _ _) as [[e|] disk'] eqn:Hsave;
      cbn [bench disk_after exit commands fst snd]; fold videos;
      (split; [done|]);
      exists cpu_part, gpu_part, cpu_events, gpu_events; cbn zeta;
      rewrite Hsave; cbn [fst snd];
      (split_and!; try done;
       [ by apply Forall_app; split; [apply Hcpu3|apply Hg3]
       | by apply Hcpu4 | by apply Hg4
       | intros t n i v [?|?]%elem_of_app; by eauto ]).
  - cbn [results].
    destruct (save_results _ _ _ _ _ _ _) as [[e|] disk'] eqn:Hsave;
      cbn [bench disk_after exit commands fst snd]; fold videos;
      (split; [done|]);
      exists cpu_part, [], cpu_events, []; cbn zeta;
      rewrite !app_nil_r, Hsave; cbn [fst snd];
      (split_and!; try done;
       first [ simpl; lia | by apply Hcpu3 | by apply Hcpu4 | by constructor
             | intros t n i v ?; by eauto ]).
Qed.

Lemma save_results_exit wr writable m today results filename disk :
  (save_results wr writable m today results filename disk).1 =
  if writable filename
  then if writable (str_replace ".json" ".csv" filename) then None
       else Some (OSError (str_replace ".json" ".csv" filename))
  else Some (OSError filename).
Proof.
  unfold save_results, open_write.
  by destruct (writable filename),
    (writable (str_replace ".json" ".csv" filename)).
Qed.

Lemma csv_filename_main :
  str_replace ".json" ".csv" "ai_camera_benchmark_results.json"
  = "ai_camera_benchmark_results.csv".
Proof. by vm_compute. Qed.

(** X13: in main no sweep raises: the list of videos it passes on is never
    empty. Every stream is submitted on a sample video that exists when
    the videos are checked, or on dummy_video.mp4 when none of the four
    exists. Without the models nothing is benchmarked or written. With
    them, main runs to its end exactly when the two files of the report
    can be opened. *)
Theorem X13_main_benchmarks_do_not_raise wr h cpu_world gpu_world disk :
  let run := main wr h cpu_world gpu_world disk in
  (forall e, exit run <> Failed_with (Uncaught e)) /\
  (forall t n i v, Submitted t n i v ∈ trace (bench run) ->
     (v ∈ video_files /\ path_exists h (commands run) v = true) \/
     (v = "dummy_video.mp4" /\
      forall v', v' ∈ video_files -> path_exists h (commands run) v' = false)) /\
  (mkdir_ok h = false \/ (download_loop h models []).1 = false ->
   bench run = fresh /\ disk_after run = disk /\ exit run <> Completed) /\
  (exit run = Completed <->
   mkdir_ok h = true /\ (download_loop h models []).1 = true /\
   writable h "ai_camera_benchmark_results.json" = true /\
   writable h "ai_camera_benchmark_results.csv" = true).
Proof.
  intros run. subst run.
  destruct (main_run wr h cpu_world gpu_world disk)
    as [(Hb & Hd & Hexit)|(Hmk & Hdl & cpu_part & gpu_part & cpu_events &
          gpu_events & Hcpu & Hgpu & Hb & [Hdisk Hexit] & _ & _ & _ & _ & _ &
          _ & _ & Hev)];
    set (run := main wr h cpu_world gpu_world disk) in *.
  - split_and!.
    + intros e. destruct Hexit as [[-> _]|[-> _]]; discriminate.
    + rewrite Hb. intros t n i v Hin. by apply elem_of_nil in Hin.
    + intros _. split; [done|]. split; [done|].
      destruct Hexit as [[-> _]|[-> _]]; discriminate.
    + split.
      * intros Hc. destruct Hexit as [[He _]|[He _]]; congruence.
      * intros (Hmk & Hdl & _). destruct Hexit as [[_ ?]|(_ & _ & ?)];
          congruence.
  - rewrite save_results_exit, csv_filename_main in Hexit.
    rewrite Hmk, Hdl, Hexit. cbn [fst].
    split_and!.
    + intros e.
      by destruct (writable h "ai_camera_benchmark_results.json"),
        (writable h "ai_camera_benchmark_results.csv").
    + rewrite Hb. cbn [trace]. intros t n i v Hin.
      apply Hev in Hin. by apply existing_videos_of_spec in Hin.
    + by intros [|].
    + destruct (writable h "ai_camera_benchmark_results.json"),
        (writable h "ai_camera_benchmark_results.csv");
        split; try done; by intros (_ & _ & ? & ?).
Qed.

Lemma results_of_app dev (l1 l2 : list TrialRecord) :
  results_of dev (l1 ++ l2) = results_of dev l1 ++ results_of dev l2.
Proof. apply filter_app. Qed.

Lemma results_of_other dev (l : list TrialRecord) :
  Forall (fun r => device r <> dev) l -> results_of dev l = [].
Proof.
  induction 1 as [|r l Hr _ IH]; [done|].
  unfold results_of in *. by rewrite filter_cons_False.
Qed.

Lemma analyze_within first rest :
  let report := analyze first rest in
  (exists r, r ∈ first :: rest /\ max_streams report = num_streams r) /\
  (exists r, r ∈ first :: rest /\
     bottleneck_at_streams report = num_streams r) /\
  bottleneck_at_streams report <= max_streams report /\
  best_config report ∈ first :: rest.
Proof.
  pose proof (py_max_Z (num_streams <$> rest) (num_streams first))
    as [Hin Hmax].
  change (num_streams first :: (num_streams <$> rest))
    with (num_streams <$> first :: rest) in *.
  apply list_elem_of_fmap in Hin as (rmax & Hrmax & Hin).
  unfold analyze. cbn [bottleneck_at_streams max_streams best_config].
  split; [by exists rmax|].
  pose proof (sorted_Permutation (first :: rest)) as Hperm.
  destruct (sorted (first :: rest)) as [|r0 rs] eqn:Es.
  { by apply Permutation_nil_cons in Hperm. }
  destruct (find_bottleneck_elem rs r0
              (py_max Z.ltb (num_streams first) (num_streams <$> rest)))
    as [->|(r & Hr & ->)].
  - split; [by exists rmax|]. split; [lia|apply py_max_elem].
  - rewrite Hperm in Hr. split; [by exists r|].
    split; [|apply py_max_elem].
    apply Hmax. by apply list_elem_of_fmap_2.
Qed.

(** The two parts of the log of [main]. *)
Lemma main_log wr h cpu_world gpu_world disk :
  let run := main wr h cpu_world gpu_world disk in
  exists cpu_part gpu_part,
    results (bench run) = cpu_part ++ gpu_part /\
    Forall (from_sweep "CPU" 8 [15; 30]) cpu_part /\
    Forall (from_sweep "GPU" 16 [15; 30; 60]) gpu_part /\
    (length cpu_part <= 16)%nat /\ (length gpu_part <= 48)%nat /\
    Forall well_formed (results (bench run)) /\
    StronglySorted key_le cpu_part /\ StronglySorted key_le gpu_part /\
    results_of "CPU" (results (bench run)) = cpu_part /\
    results_of "GPU" (results (bench run)) = gpu_part /\
    (gpu_part <> [] -> gpu_available (get_system_info (machine h 0)) = true).
Proof.
  intros run. subst run.
  destruct (main_run wr h cpu_world gpu_world disk)
    as [(Hb & _)|(_ & _ & cpu_part & gpu_part & cpu_events &
          gpu_events & _ & Hgpu & Hb & _ & Hc & Hg & Hlc & Hlg & Hwf &
          Hsc & Hsg & _)].
  { exists [], []. rewrite Hb. cbn.
    split_and!; first [done | simpl; lia | constructor]. }
  exists cpu_part, gpu_part. rewrite Hb. cbn [results].
  split_and!; try done.
  - rewrite results_of_app, results_of_own, results_of_other, app_nil_r;
      [done| |].
    + eapply Forall_impl; [exact Hg|]. by intros r [-> _].
    + eapply Forall_impl; [exact Hc|]. by intros r [-> _].
  - rewrite results_of_app, results_of_other, results_of_own; [done| |].
    + eapply Forall_impl; [exact Hg|]. by intros r [-> _].
    + eapply Forall_impl; [exact Hc|]. by intros r [-> _].
  - intros Hne. destruct (gpu_available _); [done|]. by destruct Hgpu.
Qed.

(** X14: the log of main is the records of the CPU followed by those of
    the GPU: at most 16 of the CPU, of a target rate of 15 or 30 and 1 to
    8 streams, and at most 48 of the GPU, of 15, 30 or 60 and 1 to 16
    streams, all of them well formed. There are records of the GPU only if
    the first probe of the GPUs has returned without raising a list that is
    not empty and whose first name is not the placeholder. *)
Theorem X14_main_log_is_cpu_then_gpu wr h cpu_world gpu_world disk :
  let log := results (bench (main wr h cpu_world gpu_world disk)) in
  log = results_of "CPU" log ++ results_of "GPU" log /\
  Forall (from_sweep "CPU" 8 [15; 30]) (results_of "CPU" log) /\
  Forall (from_sweep "GPU" 16 [15; 30; 60]) (results_of "GPU" log) /\
  (length (results_of "CPU" log) <= 16)%nat /\
  (length (results_of "GPU" log) <= 48)%nat /\
  Forall well_formed log /\
  (results_of "GPU" log <> [] ->
   exists first rest,
     GPUtil_getGPUs (machine h 0) = Some (first :: rest) /\
     name first <> "No GPU detected").
Proof.
  intros log. subst log.
  destruct (main_log wr h cpu_world gpu_world disk)
    as (cpu_part & gpu_part & Hlog & Hc & Hg & Hlc & Hlg & Hwf & _ & _ &
        -> & -> & Hgpu).
  split_and!; try done. intros Hne. by apply gpu_available_spec, Hgpu.
Qed.

(** X15: on the log of main the analysis is None when no trial has had a
    success, and otherwise holds a report (it is never the empty dict).
    For each device reported, the records are in the order of sorted(...)
    already, so that best_config is the first record of the greatest
    total_fps in the sorted order too; the bottleneck is between 1 and
    max_streams, which is at most 8 for the CPU and 16 for the GPU, and
    total_results is at most 16 and 48. *)
Theorem X15_main_reports wr h cpu_world gpu_world disk :
  let log := results (bench (main wr h cpu_world gpu_world disk)) in
  (find_optimal_configuration log = None <-> log = []) /\
  find_optimal_configuration log <> Some ∅ /\
  (forall analysis dev report,
     find_optimal_configuration log = Some analysis ->
     analysis !! dev = Some report ->
     (dev = "CPU" \/ dev = "GPU") /\
     sorted (results_of dev log) = results_of dev log /\
     first_maximum (sorted (results_of dev log)) (best_config report) /\
     1 <= bottleneck_at_streams report <= max_streams report /\
     max_streams report <= (if decide (dev = "CPU") then 8 else 16) /\
     1 <= total_results report <= (if decide (dev = "CPU") then 16 else 48)).
Proof.
  intros log. subst log.
  destruct (main_log wr h cpu_world gpu_world disk)
    as (cpu_part & gpu_part & Hlog & Hc & Hg & Hlc & Hlg & Hwf & Hsc & Hsg &
        Hrc & Hrg & _).
  set (log := results (bench (main wr h cpu_world gpu_world disk))) in *.
  assert (find_optimal_configuration log = None <-> log = []) as Hnone.
  { destruct log; [done|]. split; discriminate. }
  assert (forall analysis dev report,
     find_optimal_configuration log = Some analysis ->
     analysis !! dev = Some report ->
     (dev = "CPU" \/ dev = "GPU") /\
     exists first rest, results_of dev log = first :: rest /\
       report = analyze first rest) as Hreport.
  { intros analysis dev report Hsome Hrep.
    assert (log <> []) as Hne by (intros E; apply Hnone in E; congruence).
    destruct (find_optimal_configuration_lookup log dev Hne)
      as (analysis' & Hsome' & Hlookup).
    rewrite Hsome in Hsome'. injection Hsome' as <-.
    rewrite Hrep in Hlookup.
    case_decide as Hdev; [|done]. split; [done|].
    destruct (results_of dev log) as [|first rest]; [done|].
    exists first, rest. by injection Hlookup as ->. }
  split; [done|]. split.
  - intros Hsome.
    assert (log <> []) as Hne by (intros E; apply Hnone in E; congruence).
    assert (results_of "CPU" log <> [] \/ results_of "GPU" log <> [])
      as Hpart.
    { rewrite Hrc, Hrg. destruct cpu_part, gpu_part; by eauto. }
    destruct Hpart as [Hp|Hp].
    + destruct (find_optimal_configuration_lookup log "CPU" Hne)
        as (analysis' & Hsome' & Hlookup).
      rewrite Hsome in Hsome'. injection Hsome' as <-.
      rewrite decide_True in Hlookup by by left.
      rewrite lookup_empty in Hlookup.
      by destruct (results_of "CPU" log).
    + destruct (find_optimal_configuration_lookup log "GPU" Hne)
        as (analysis' & Hsome' & Hlookup).
      rewrite Hsome in Hsome'. injection Hsome' as <-.
      rewrite decide_True in Hlookup by by right.
      rewrite lookup_empty in Hlookup.
      by destruct (results_of "GPU" log).
  - intros analysis dev report Hsome Hrep.
    destruct (Hreport _ _ _ Hsome Hrep) as (Hdev & first & rest & Hpart & ->).
    split; [done|].
    assert (StronglySorted key_le (results_of dev log) /\
            Forall (fun r => 1 <= num_streams r <=
                      if decide (dev = "CPU") then 8 else 16)
              (results_of dev log) /\
            (length (results_of dev log) <=
               if decide (dev = "CPU") then 16 else 48)%nat)
      as (Hsorted & Hlevels & Hlen).
    { destruct Hdev as [-> | ->].
      - rewrite Hrc, decide_True by done. split_and!; try done.
        eapply Forall_impl; [exact Hc|].
        intros r (_ & _ & ? & ?). lia.
      - rewrite Hrg, decide_False by done. split_and!; try done.
        eapply Forall_impl; [exact Hg|].
        intros r (_ & _ & ? & ?). lia. }
    assert (Forall (fun r => is_number (total_fps r)) (results_of dev log))
      as Hnum.
    { apply Forall_forall. intros r Hr. apply well_formed_is_number.
      eapply Forall_forall; [exact Hwf|].
      unfold results_of in Hr. by apply list_elem_of_filter in Hr as [_ ?]. }
    rewrite sorted_of_sorted by done. split; [done|].
    rewrite Hpart in *. split; [by apply py_max_first_maximum|].
    destruct (analyze_within first rest)
      as ((rm & Hrm & Hmax) & (rb & Hrb & Hbot) & Hle & _).
    rewrite Forall_forall in Hlevels.
    pose proof (Hlevels _ Hrm). pose proof (Hlevels _ Hrb).
    split; [lia|]. split; [lia|].
    unfold analyze, len. cbn [total_results length] in *.
    destruct (decide (dev = "CPU")); lia.
Qed.

(** A run on a host with a GPU: both sweeps run in full, and both devices
    are reported. *)
Example main_with_gpu :
  let run := main plain (workstation (Some [arc])) steady steady ∅ in
  exit run = Completed /\
  length (results_of "CPU" (results (bench run))) = 16%nat /\
  length (results_of "GPU" (results (bench run))) = 48%nat /\
  (match find_optimal_configuration (results (bench run)) with
   | Some analysis =>
       bottleneck_at_streams <$> analysis !! "CPU" = Some 8 /\
       bottleneck_at_streams <$> analysis !! "GPU" = Some 16
   | None => False
   end) /\
  disk_after run !! "ai_camera_benchmark_results.json" = Some "{}" /\
  disk_after run !! "ai_camera_benchmark_results.csv"
    = Some "device,num_streams".
Proof. vm_compute. done. Qed.

(** A run on a host whose probe of the GPUs raises: the CPU only. *)
Example main_without_gpu :
  let run := main plain (workstation None) steady steady ∅ in
  exit run = Completed /\
  length (results (bench run)) = 16%nat /\
  (match find_optimal_configuration (results (bench run)) with
   | Some analysis => is_Some (analysis !! "CPU") /\ analysis !! "GPU" = None
   | None => False
   end).
Proof. vm_compute. split_and!; try done. by eexists. Qed.

(** A report saved under a name without [.json] is lost: the file holds the
    CSV text, here of no records. *)
Example save_results_without_json :
  let saved :=
    save_results plain (fun _ => true) (machine (workstation None) 0)
      "2024-01-01T00:00:00" [] "report.txt" ∅ in
  saved.1 = None /\ saved.2 !! "report.txt" = Some "".
Proof. by vm_compute. Qed.

(** * Beyond the claims: the process of a stream *)

Lemma watch_fuel l sleeps duration fuel : forall n r,
  watch l sleeps duration fuel n = Some r ->
  forall fuel', (fuel <= fuel')%nat -> watch l sleeps duration fuel' n = Some r.
Proof.
  induction fuel as [|fuel IH]; intros n r Hr fuel' Hle; [done|].
  destruct fuel' as [|fuel']; [lia|]. cbn [watch] in *.
  destruct (_ <? _)%float; [|done].
  destruct (poll_exited l n); [done|].
  destruct sleeps; [|done]. apply IH; [done|lia].
Qed.

Lemma watch_ends l duration k : forall fuel n,
  (forall j, (n <= j < n + k)%nat ->
     (time_time l (S j) - time_time l 0 <? duration)%float = true /\
     poll_exited l j = false) ->
  ((time_time l (S (n + k)) - time_time l 0 <? duration)%float = false \/
   poll_exited l (n + k)%nat = true) ->
  (k < fuel)%nat ->
  watch l true duration fuel n
    = Some (Some ((n + k)%nat, time_time l (S (S (n + k))))).
Proof.
  induction k as [|k IH]; intros fuel n Hrun Hend Hfuel.
  - destruct fuel as [|fuel]; [lia|]. cbn [watch].
    rewrite Nat.add_0_r in *.
    destruct Hend as [-> | Hex]; [done|].
    rewrite Hex. by destruct (_ <? _)%float.
  - destruct fuel as [|fuel]; [lia|]. cbn [watch].
    destruct (Hrun n ltac:(lia)) as [-> ->].
    replace (n + S k)%nat with (S n + k)%nat in * by lia.
    apply IH; [|done|lia]. intros j Hj. apply Hrun. lia.
Qed.

Lemma watch_no_sleep l duration fuel r :
  watch l false duration fuel 0 = Some r ->
  r = None \/ exists end_time, r = Some (0%nat, end_time).
Proof.
  destruct fuel as [|fuel]; [done|]. cbn [watch].
  destruct (_ <? _)%float; [|intros [= <-]; by eauto].
  destruct (poll_exited l 0); intros [= <-]; by eauto.
Qed.

Lemma watch_result l sleeps duration fuel : forall n r,
  watch l sleeps duration fuel n = Some r ->
  match r with
  | Some (ticks, end_time) =>
      (n <= ticks)%nat /\ end_time = time_time l (S (S ticks)) /\
      (forall j, (n <= j < ticks)%nat ->
         (time_time l (S j) - time_time l 0 <? duration)%float = true /\
         poll_exited l j = false) /\
      ((time_time l (S ticks) - time_time l 0 <? duration)%float = false \/
       poll_exited l ticks = true)
  | None => sleeps = false
  end.
Proof.
  induction fuel as [|fuel IH]; intros n r Hr; [done|]. cbn [watch] in Hr.
  destruct (_ <? _)%float eqn:Htest.
  - destruct (poll_exited l n) eqn:Hpoll.
    + injection Hr as <-. split_and!; try done; [lia|]. by right.
    + destruct sleeps; [|by injection Hr as <-].
      apply IH in Hr. destruct r as [[ticks end_time]|]; [|done].
      destruct Hr as (Hle & -> & Hrun & Hend).
      split_and!; try done; [lia|]. intros j Hj.
      destruct (decide (j = n)) as [->|]; [done|]. apply Hrun. lia.
  - injection Hr as <-. split_and!; try done; [lia|]. by left.
Qed.

Lemma watch_running l duration fuel : forall n,
  watch l true duration fuel n = None ->
  forall j, (n <= j < n + fuel)%nat ->
    (time_time l (S j) - time_time l 0 <? duration)%float = true /\
    poll_exited l j = false.
Proof.
  induction fuel as [|fuel IH]; intros n Hw j Hj; [lia|].
  cbn [watch] in Hw.
  destruct (_ <? _)%float eqn:Htest; [|done].
  destruct (poll_exited l n) eqn:Hpoll; [done|].
  destruct (decide (j = n)) as [->|]; [done|].
  apply (IH (S n)); [done|lia].
Qed.

Lemma watch_none l duration fuel :
  watch l false duration (S fuel) 0 <> None.
Proof.
  cbn [watch]. destruct (_ <? _)%float; [|done].
  by destruct (poll_exited l 0).
Qed.

(** X16: what a call of run_single_stream that returns has done. Its result
    is the one of the try block on some outcome, and more fuel does not
    change it. The process is cleaned up exactly when Popen has returned
    one: terminated and waited for, and killed only when the wait times
    out. A success reports as frames the number of polls that have found
    the process running before the clock test fails or the process is
    gone, and as duration the reading of end_time less that of start_time;
    for a target that cannot be slept on (0, negative, or beyond the
    floats) it reports no frame. A failure reports the text of the
    exception of Popen, or of the sleep of the first iteration. A call
    that has not returned has a process that is still running. *)
Theorem X16_stream_on_a_process os device model_path detection_threshold
    video_path stream_id duration fps_target fuel :
  let run := run_single_stream_on os device model_path detection_threshold
               video_path stream_id duration fps_target in
  let l := os ["gst-launch-1.0"; "-e";
               create_gst_pipeline device model_path detection_threshold
                 video_path stream_id fps_target] in
  match run fuel with
  | Some (result, cleanup) =>
      (exists o, result = run_single_stream device o stream_id fps_target) /\
      (forall fuel', (fuel <= fuel')%nat -> run fuel' = Some (result, cleanup)) /\
      (cleanup = [] <-> is_Some (popen_raises l)) /\
      (cleanup = [] \/
       cleanup = [Terminate; Wait] /\ wait_returns l = true \/
       cleanup = [Terminate; Wait; Kill] /\ wait_returns l = false) /\
      (succeeded result = true ->
       exists ticks,
         ends_at l duration ticks /\
         result !! "frames_processed" = Some (VInt (Z.of_nat ticks)) /\
         result !! "duration"
           = Some (VFloat (time_time l (S (S ticks)) - time_time l 0)%float) /\
         (can_sleep fps_target = false -> ticks = 0%nat)) /\
      (succeeded result = false ->
       result !! "error"
         = Some (VStr (default (sleep_raises l) (popen_raises l))) /\
       (popen_raises l = None ->
        can_sleep fps_target = false /\
        (time_time l 1 - time_time l 0 <? duration)%float = true /\
        poll_exited l 0 = false))
  | None =>
      popen_raises l = None /\
      (fuel = 0%nat \/ can_sleep fps_target = true) /\
      forall j, (j < fuel)%nat ->
        (time_time l (S j) - time_time l 0 <? duration)%float = true /\
        poll_exited l j = false
  end.
Proof.
  intros run l. subst run. unfold run_single_stream_on. fold l.
  unfold outcome_of. destruct (popen_raises l) as [msg|] eqn:Hpopen.
  { split_and!.
    - by eexists.
    - done.
    - split; [by eexists|done].
    - by left.
    - unfold succeeded. by rewrite run_single_stream_failed.
    - intros _. split; [|done]. by rewrite run_single_stream_failed. }
  set (cleanup := Terminate :: Wait :: _).
  destruct (watch l (can_sleep fps_target) duration fuel 0)
    as [[[ticks end_time]|]|] eqn:Hw.
  - pose proof (watch_fuel _ _ _ _ _ _ Hw) as Hfuel.
    apply watch_result in Hw as (_ & -> & Hrun & Hend).
    split_and!.
    + by eexists.
    + intros fuel' Hle. by rewrite (Hfuel fuel' Hle).
    + split; [done|]. by intros [].
    + right. unfold cleanup. destruct (wait_returns l); by eauto.
    + intros _. exists ticks. split_and!.
      * split; [|done]. intros j Hj. apply Hrun. lia.
      * by rewrite run_single_stream_finished.
      * by rewrite run_single_stream_finished.
      * intros Hsleep. rewrite Hsleep in Hfuel.
        destruct (watch_no_sleep l duration (S fuel) _ (Hfuel (S fuel) ltac:(lia)))
          as [?|[? [= -> _]]]; done.
    + unfold succeeded. by rewrite run_single_stream_finished.
  - pose proof (watch_fuel _ _ _ _ _ _ Hw) as Hfuel.
    pose proof (watch_result _ _ _ _ _ _ Hw) as Hsleep. cbn in Hsleep.
    split_and!.
    + by eexists.
    + intros fuel' Hle. by rewrite (Hfuel fuel' Hle).
    + split; [done|]. by intros [].
    + right. unfold cleanup. destruct (wait_returns l); by eauto.
    + unfold succeeded. by rewrite run_single_stream_failed.
    + intros _. split; [by rewrite run_single_stream_failed|].
      intros _. split; [done|].
      rewrite Hsleep in Hw. destruct fuel as [|fuel]; [done|].
      cbn [watch] in Hw. destruct (_ <? _)%float; [|done].
      by destruct (poll_exited l 0).
  - split; [done|]. destruct (can_sleep fps_target) eqn:Hsleep.
    + split; [by right|]. intros j Hj.
      apply (watch_running _ _ _ _ Hw). lia.
    + destruct fuel as [|fuel]; [|by apply watch_none in Hw].
      split; [by left|]. intros j Hj. lia.
Qed.

(** X17: when a call of run_single_stream returns, and with what. It
    returns a failure at once when Popen raises. For a target that cannot
    be slept on it returns at the first test. For any other target, when
    the loop ends at iteration k (the first at which the clock test fails
    or the process is gone), it returns the success of k frames, having
    cleaned up the process. *)
Theorem X17_stream_returns os device model_path detection_threshold
    video_path stream_id duration fps_target :
  let run := run_single_stream_on os device model_path detection_threshold
               video_path stream_id duration fps_target in
  let l := os ["gst-launch-1.0"; "-e";
               create_gst_pipeline device model_path detection_threshold
                 video_path stream_id fps_target] in
  (forall msg fuel, popen_raises l = Some msg ->
     run fuel
       = Some (run_single_stream device (Failed msg) stream_id fps_target,
               [])) /\
  (forall fuel, can_sleep fps_target = false -> is_Some (run (S fuel))) /\
  (forall k fuel,
     popen_raises l = None -> can_sleep fps_target = true ->
     ends_at l duration k -> (k < fuel)%nat ->
     run fuel
       = Some (run_single_stream device
                 (Finished k (time_time l (S (S k)) - time_time l 0)%float)
                 stream_id fps_target,
               Terminate :: Wait ::
                 (if wait_returns l then [] else [Kill]))).
Proof.
  intros run l. subst run. unfold run_single_stream_on. fold l.
  unfold outcome_of. split_and!.
  - by intros msg fuel ->.
  - intros fuel ->. destruct (popen_raises l); [done|].
    pose proof (watch_none l duration fuel).
    by destruct (watch l false duration (S fuel) 0) as [[[]|]|].
  - intros k fuel -> -> [Hrun Hend] Hfuel.
    rewrite (watch_ends l duration k fuel 0); [done| |done|done].
    intros j Hj. apply Hrun. lia.
Qed.

Lemma slow_clock_ends : ends_at slow_clock 60 2.
Proof.
  split; [|by left]. intros [|[|j]] Hj; [done|done|lia].
Qed.

(** On the slow clock a stream of target 30 and duration 60 makes two
    iterations; of target 0, it fails in the first. *)
Example slow_clock_run :
  let run target :=
    run_single_stream_on (fun _ => slow_clock) "CPU" "./models" "0.5"
      "dummy_video.mp4" "stream_0" 60 target 3 in
  match run 30, run 0 with
  | Some (result, cleanup), Some (result0, cleanup0) =>
      cleanup = [Terminate; Wait] /\
      result !! "frames_processed" = Some (VInt 2) /\
      result !! "duration" = Some (VFloat 80) /\
      cleanup0 = [Terminate; Wait] /\
      result0 !! "success" = Some (VBool false) /\
      result0 !! "error" = Some (VStr "float division by zero")
  | _, _ => False
  end.
Proof. by vm_compute. Qed.
